(** * Quantity parsing and proportional scaling of [app.py]

    A shallow embedding of the quantity engine of the recipe application:
    [parse_quantity], [format_scaled_quantity], the scale factor and the
    ingredient loop that calls them.

    Python values are modelled as follows.
    - A [str] is the list of its characters.  A character is a code point
      below 256 (the Latin-1 range); [isspace], [isdecimal] and [lower] are
      Python's on that range.
    - An [int] is a [Z].
    - A [float] is an IEEE 754 binary64 value, [spec_float] with precision 53
      and maximal exponent 1024; every operation rounds to nearest, ties to
      even, as the interpreter's does.
    - A call that can raise returns a [result]: [Ok v] or [Raise e]. *)

From Stdlib Require Import ZArith Bool Ascii String List Lia.
From Stdlib Require Import Floats.SpecFloat.
Import ListNotations.

Set Implicit Arguments.

Local Open Scope Z_scope.

(** ** Exceptions and results *)

Inductive exn : Type :=
| ZeroDivisionError
| ValueError
| OverflowError
| IndexError.

Inductive result (A : Type) : Type :=
| Ok (a : A)
| Raise (e : exn).

Arguments Ok {A} a.
Arguments Raise {A} e.

Definition bind {A B : Type} (r : result A) (f : A -> result B) : result B :=
  match r with
  | Ok a => f a
  | Raise e => Raise e
  end.

Notation "x <- r ;; k" := (bind r (fun x => k))
  (at level 61, r at next level, right associativity).
Notation "' p <- r ;; k" := (bind r (fun x => let p := x in k))
  (at level 61, p pattern, r at next level, right associativity).

(** The spec's InvalidArgument kind is Python's [ValueError]. *)
Definition is_invalid_argument (e : exn) : bool :=
  match e with
  | ValueError => true
  | _ => false
  end.

(** ** Strings *)

Abbreviation str := (list ascii).

Definition str_of_string (s : string) : str := list_ascii_of_string s.
Coercion str_of_string : string >-> list.

Module PyStr.

Definition code (c : ascii) : N := N_of_ascii c.

(** [str.isspace] on one character: TAB..CR, FS..US, space, NEL, NBSP. *)
Definition isspace (c : ascii) : bool :=
  let n := code c in
  ((9 <=? n) && (n <=? 13) || (28 <=? n) && (n <=? 32)
   || (n =? 133) || (n =? 160))%N.

(** [\d] of a text pattern: the decimal digits; below 256 these are 0-9. *)
Definition isdecimal (c : ascii) : bool :=
  let n := code c in ((48 <=? n) && (n <=? 57))%N.

(** [str.lower] on one character: A-Z and the Latin-1 capitals. *)
Definition lower_char (c : ascii) : ascii :=
  let n := code c in
  if ((65 <=? n) && (n <=? 90)
      || (192 <=? n) && (n <=? 222) && negb (n =? 215))%N
  then ascii_of_N (n + 32) else c.

Definition lower (s : str) : str := map lower_char s.

Fixpoint drop_while (p : ascii -> bool) (s : str) : str :=
  match s with
  | c :: t => if p c then drop_while p t else s
  | [] => []
  end.

Fixpoint take_while (p : ascii -> bool) (s : str) : str :=
  match s with
  | c :: t => if p c then c :: take_while p t else []
  | [] => []
  end.

Definition lstrip (s : str) : str := drop_while isspace s.
Definition rstrip (s : str) : str := rev (drop_while isspace (rev s)).

(** [s.strip()] *)
Definition strip (s : str) : str := rstrip (lstrip s).

(** [c in s] for a one-character [c]. *)
Definition contains (c : ascii) (s : str) : bool :=
  existsb (Ascii.eqb c) s.

(** [s.split()]: the maximal runs of characters that are not whitespace.
    [cur] is the run being read, reversed. *)
Fixpoint split_ws_from (cur : str) (s : str) : list str :=
  match s with
  | c :: t =>
      if isspace c
      then match cur with
           | [] => split_ws_from [] t
           | _ => rev cur :: split_ws_from [] t
           end
      else split_ws_from (c :: cur) t
  | [] => match cur with
          | [] => []
          | _ => [rev cur]
          end
  end.

Definition split_ws (s : str) : list str := split_ws_from [] s.

(** [s.split(sep)] for a one-character [sep]: never empty. *)
Fixpoint split_on (sep : ascii) (s : str) : list str :=
  match s with
  | c :: t =>
      if Ascii.eqb c sep then [] :: split_on sep t
      else match split_on sep t with
           | h :: r => (c :: h) :: r
           | [] => [[c]]
           end
  | [] => [[]]
  end.

(** [s[n:]] *)
Definition slice_from (n : nat) (s : str) : str := skipn n s.

Definition digit_val (c : ascii) : Z := Z.of_N (code c) - 48.

(** Value of a run of decimal digits, most significant first. *)
Definition digits_val (s : str) : Z :=
  fold_left (fun acc c => 10 * acc + digit_val c) s 0.

Definition digit_char (d : Z) : ascii := ascii_of_N (Z.to_N (48 + d)).

(** Decimal digits of a non-negative integer, most significant first;
    [fuel] bounds the number of digits. *)
Fixpoint digits_of (fuel : nat) (n : Z) (acc : str) : str :=
  match fuel with
  | O => acc
  | S f =>
      let acc' := digit_char (n mod 10) :: acc in
      if n <? 10 then acc' else digits_of f (n / 10) acc'
  end.

(** [str(n)] for an [int]. *)
Definition str_of_int (n : Z) : str :=
  let a := Z.abs n in
  let ds := digits_of (S (Z.to_nat (Z.log2 a))) a [] in
  if n <? 0 then "-"%char :: ds else ds.

End PyStr.

(** ** Floats: IEEE 754 binary64 *)

Definition float : Type := spec_float.

Module PyFloat.

Definition prec : Z := 53.
Definition emax : Z := 1024.

Definition add : float -> float -> float := SFadd prec emax.
Definition sub : float -> float -> float := SFsub prec emax.
Definition mul : float -> float -> float := SFmul prec emax.
Definition abs : float -> float := SFabs.
Definition eqb : float -> float -> bool := SFeqb.
Definition ltb : float -> float -> bool := SFltb.
Definition leb : float -> float -> bool := SFleb.

Definition is_finite (x : float) : bool :=
  match x with
  | S754_zero _ | S754_finite _ _ _ => true
  | _ => false
  end.

(** The quotient of two integers, [d] not zero, rounded once to the nearest
    binary64 value: an integer is the float with that mantissa and
    exponent 0, of unbounded precision, and [SFdiv] rounds the exact
    quotient. *)
Definition quotient (n d : Z) : float :=
  match n, d with
  | Z0, _ => S754_zero (d <? 0)
  | _, Z0 => S754_nan
  | _, _ =>
      SFdiv prec emax
        (S754_finite (n <? 0) (Z.to_pos (Z.abs n)) 0)
        (S754_finite (d <? 0) (Z.to_pos (Z.abs d)) 0)
  end.

(** [n / d] on two [int]s. *)
Definition truediv (n d : Z) : result float :=
  if d =? 0 then Raise ZeroDivisionError
  else
    let q := quotient n d in
    if is_finite q then Ok q else Raise OverflowError.

(** [float(n)] for an [int] [n]. *)
Definition of_int (n : Z) : result float :=
  let x := binary_normalize prec emax n 0 false in
  if is_finite x then Ok x else Raise OverflowError.

(** The float of a decimal literal [digits / 10^scale], as [float(text)]
    and the compiler read it: too large a value is infinity. *)
Definition of_decimal (digits : Z) (scale : nat) : float :=
  quotient digits (10 ^ Z.of_nat scale).

(** [x / y] on two floats. *)
Definition div (x y : float) : result float :=
  if eqb y (S754_zero false) then Raise ZeroDivisionError
  else Ok (SFdiv prec emax x y).

(** [int(x)]: truncation toward zero. *)
Definition to_int (x : float) : result Z :=
  match x with
  | S754_zero _ => Ok 0
  | S754_finite s m e => Ok (cond_Zopp s (Z.shiftl (Zpos m) e))
  | S754_infinity _ => Raise OverflowError
  | S754_nan => Raise ValueError
  end.

(** [n / d] rounded to the nearest integer, ties to even; [0 < d]. *)
Definition div_half_even (n d : Z) : Z :=
  let q := n / d in
  let r := n mod d in
  match 2 * r ?= d with
  | Lt => q
  | Gt => q + 1
  | Eq => if Z.even q then q else q + 1
  end.

(** The magnitude [m * 2^e] in hundredths, rounded as above. *)
Definition hundredths (m : positive) (e : Z) : Z :=
  match e with
  | Zneg p => div_half_even (100 * Zpos m) (2 ^ Zpos p)
  | _ => 100 * Zpos m * 2 ^ e
  end.

Definition sign_text (s : bool) : str := if s then "-"%string else ""%string.

Definition fixed2 (s : bool) (h : Z) : str :=
  sign_text s ++ PyStr.str_of_int (h / 100)
    ++ "."%char :: PyStr.digit_char (h mod 100 / 10)
    :: PyStr.digit_char (h mod 10) :: [].

(** [f"{x:.2f}"]: the exact value of [x] rounded to two decimals. *)
Definition format_2f (x : float) : str :=
  match x with
  | S754_zero s => fixed2 s 0
  | S754_finite s m e => fixed2 s (hundredths m e)
  | S754_infinity s => sign_text s ++ "inf"%string
  | S754_nan => "nan"%string
  end.

(** The literals of the source. *)
Definition zero : float := S754_zero false.
Definition one : float := Eval vm_compute in of_decimal 1 0.
Definition half : float := Eval vm_compute in of_decimal 5 1.
Definition quarter : float := Eval vm_compute in of_decimal 25 2.
Definition three_quarters : float := Eval vm_compute in of_decimal 75 2.
Definition hundredth : float := Eval vm_compute in of_decimal 1 2.

End PyFloat.

(** ** Conversions from text *)

Module PyConv.
Import PyStr.

Definition all_decimal (s : str) : bool := forallb isdecimal s.

(** The whitespace that [int] and [float] skip at the ends of a text:
    TAB..CR and space, and NEL and NBSP, which they first turn into
    spaces.  FS..US are whitespace for [strip], [split] and [\s], but not
    here. *)
Definition isspace_number (c : ascii) : bool :=
  let n := code c in
  ((9 <=? n) && (n <=? 13) || (n =? 32) || (n =? 133) || (n =? 160))%N.

Definition strip_number (s : str) : str :=
  rev (drop_while isspace_number (rev (drop_while isspace_number s))).

(** [int(text)] on the texts the source passes to it, which hold digits
    and whitespace only: surrounding whitespace is dropped and what is
    left must be a non-empty run of digits.  The interpreter's limit on
    the number of digits of such a text is not modelled. *)
Definition int_of_str (s : str) : result Z :=
  let t := strip_number s in
  match t with
  | [] => Raise ValueError
  | _ => if all_decimal t then Ok (digits_val t) else Raise ValueError
  end.

(** [float(text)] on the texts the source passes to it: digits with at
    most one point and at least one digit. *)
Definition float_of_str (s : str) : result float :=
  let t := strip_number s in
  let ip := take_while isdecimal t in
  match drop_while isdecimal t with
  | [] =>
      match ip with
      | [] => Raise ValueError
      | _ => Ok (PyFloat.of_decimal (digits_val ip) 0)
      end
  | c :: fp =>
      if Ascii.eqb c "." && all_decimal fp
         && negb ((length ip + length fp =? 0)%nat)
      then Ok (PyFloat.of_decimal (digits_val (ip ++ fp)) (length fp))
      else Raise ValueError
  end.

(** [a, b = map(int, pieces)]: two pieces, each an integer; a wrong
    number of pieces and a piece that is no integer both raise
    [ValueError]. *)
Definition unpack_int_pair (pieces : list str) : result (Z * Z) :=
  match pieces with
  | [a; b] =>
      n <- int_of_str a ;;
      d <- int_of_str b ;;
      Ok (n, d)
  | _ => Raise ValueError
  end.

(** [l[i]] *)
Definition item (l : list str) (i : nat) : result str :=
  match nth_error l i with
  | Some x => Ok x
  | None => Raise IndexError
  end.

End PyConv.

(** ** Regular expressions: [re.match] with backtracking *)

Module Re.
Import PyStr.

Inductive cclass : Type :=
| Digit    (* \d *)
| Space.   (* \s *)

Definition in_class (k : cclass) : ascii -> bool :=
  match k with
  | Digit => isdecimal
  | Space => isspace
  end.

Inductive regex : Type :=
| Chr (c : ascii)          (* one literal character *)
| Star (k : cclass)        (* k*, greedy *)
| Plus (k : cclass)        (* k+, greedy *)
| Cat (r1 r2 : regex)      (* r1 r2 *)
| Alt (r1 r2 : regex).     (* r1|r2, the left one first *)

(** A continuation reads the rest of the text and returns what the rest
    of the pattern matched there. *)
Definition cont : Type := str -> option str.

(** Greedy repetition of a class: take a character when possible, give it
    back when the rest of the pattern then fails. *)
Fixpoint greedy (p : ascii -> bool) (s : str) (k : cont) : option str :=
  match s with
  | c :: t =>
      if p c
      then match greedy p t k with
           | Some m => Some (c :: m)
           | None => k s
           end
      else k s
  | [] => k []
  end.

Definition one (p : ascii -> bool) (s : str) (k : cont) : option str :=
  match s with
  | c :: t => if p c then option_map (cons c) (k t) else None
  | [] => None
  end.

Fixpoint run (r : regex) (s : str) (k : cont) : option str :=
  match r with
  | Chr c => one (Ascii.eqb c) s k
  | Star cl => greedy (in_class cl) s k
  | Plus cl => one (in_class cl) s (fun t => greedy (in_class cl) t k)
  | Cat r1 r2 => run r1 s (fun t => run r2 t k)
  | Alt r1 r2 =>
      match run r1 s k with
      | Some m => Some m
      | None => run r2 s k
      end
  end.

(** [re.match(r, s)]: the text matched at the start of [s], [group(0)]. *)
Definition re_match (r : regex) (s : str) : option str :=
  run r s (fun _ => Some []).

End Re.

(** ** The functions of [app.py] *)

Import PyStr PyConv.

Definition digits : Re.regex := Re.Plus Re.Digit.

(** The four alternatives of the pattern, in its order. *)
Definition slash_digits : Re.regex := Re.Cat (Re.Chr "/") digits.

(** [\d+\s*\d*/\d+] *)
Definition mixed_re : Re.regex :=
  Re.Cat digits (Re.Cat (Re.Star Re.Space) (Re.Cat (Re.Star Re.Digit) slash_digits)).

(** [\d*\.\d+] *)
Definition decimal_re : Re.regex :=
  Re.Cat (Re.Star Re.Digit) (Re.Cat (Re.Chr ".") digits).

(** [\d+/\d+] *)
Definition fraction_re : Re.regex := Re.Cat digits slash_digits.

(** [r'(\d+\s*\d*/\d+|\d*\.\d+|\d+/\d+|\d+)'] *)
Definition quantity_re : Re.regex :=
  Re.Alt mixed_re (Re.Alt decimal_re (Re.Alt fraction_re digits)).

(** [quantity_str.strip().lower()] *)
Definition normalize (quantity_str : str) : str := lower (strip quantity_str).

Definition parse_quantity (quantity_str : str) : result (option float * str) :=
  let quantity_str := normalize quantity_str in
  match Re.re_match quantity_re quantity_str with
  | Some m =>
      let number_str := strip m in
      let unit_str := strip (slice_from (length number_str) quantity_str) in
      if contains " " number_str && contains "/" number_str then
        let parts := split_ws number_str in
        p0 <- item parts 0 ;;
        whole <- float_of_str p0 ;;
        p1 <- item parts 1 ;;
        ' (numerator, denominator) <- unpack_int_pair (split_on "/" p1) ;;
        q <- PyFloat.truediv numerator denominator ;;
        Ok (Some (PyFloat.add whole q), unit_str)
      else if contains "/" number_str then
        ' (numerator, denominator) <-
            unpack_int_pair (split_on "/" number_str) ;;
        q <- PyFloat.truediv numerator denominator ;;
        Ok (Some q, unit_str)
      else
        match float_of_str number_str with
        | Ok quantity => Ok (Some quantity, unit_str)
        | Raise ValueError => Ok (None, quantity_str)
        | Raise e => Raise e
        end
  | None => Ok (None, quantity_str)
  end.

(** [f"{int(number) if int(number) > 0 else ''} <frac>".strip()] *)
Definition whole_and (i : Z) (frac : string) : str :=
  strip ((if 0 <? i then str_of_int i else []) ++ " "%char :: frac).

(** The text of the number alone, [formatted_num]. *)
Definition formatted_num (number : float) : result str :=
  i <- PyFloat.to_int number ;;
  fi <- PyFloat.of_int i ;;
  let decimal := PyFloat.sub number fi in
  if PyFloat.eqb decimal PyFloat.zero then
    Ok (str_of_int i)
  else if PyFloat.ltb (PyFloat.abs (PyFloat.sub decimal PyFloat.half))
            PyFloat.hundredth then
    Ok (whole_and i "1/2")
  else if PyFloat.ltb (PyFloat.abs (PyFloat.sub decimal PyFloat.quarter))
            PyFloat.hundredth then
    Ok (whole_and i "1/4")
  else if PyFloat.ltb (PyFloat.abs (PyFloat.sub decimal PyFloat.three_quarters))
            PyFloat.hundredth then
    Ok (whole_and i "3/4")
  else
    Ok (PyFloat.format_2f number).

Definition format_scaled_quantity (number : option float) (unit_str : str)
  : result str :=
  match number with
  | None => Ok unit_str
  | Some number =>
      num <- formatted_num number ;;
      Ok (strip (num ++ " "%char :: unit_str))
  end.

(** [scaling_factor = new_servings / original_servings] *)
Definition scaling_factor (new_servings original_servings : Z) : result float :=
  PyFloat.truediv new_servings original_servings.

(** The body of the ingredient loop: the quantity shown for one ingredient. *)
Definition display_quantity (original_quantity_str : str) (factor : float)
  : result str :=
  ' (quantity, unit_str) <- parse_quantity original_quantity_str ;;
  match quantity with
  | Some quantity =>
      if negb (PyFloat.eqb factor PyFloat.one) then
        let scaled_quantity := PyFloat.mul quantity factor in
        format_scaled_quantity (Some scaled_quantity) unit_str
      else Ok original_quantity_str
  | None => Ok original_quantity_str
  end.

(** The loop over [(item, quantity)] pairs: it stops at the first
    ingredient that raises. *)
Fixpoint display_ingredients (ingredients : list (str * str)) (factor : float)
  : result (list (str * str)) :=
  match ingredients with
  | [] => Ok []
  | (name, quantity_str) :: rest =>
      shown <- display_quantity quantity_str factor ;;
      others <- display_ingredients rest factor ;;
      Ok ((name, shown) :: others)
  end.

(** ** Descriptions of the numeric prefix *)

Definition nonempty (s : str) : bool :=
  match s with
  | [] => false
  | _ => true
  end.

(** The text [re.match] finds at the start of a normalized string. *)
Definition numeric_prefix (s : str) : option str :=
  Re.re_match quantity_re s.

Module Spec.

(** The four shapes as the specification words them, each read greedily
    from the start of the text:
    mixed number [<whole> <numerator>/<denominator>] with whitespace
    between whole and fraction, decimal [<digits>.<digits>], simple
    fraction [<numerator>/<denominator>], plain integer [<digits>]. *)

Definition mixed (s : str) : option str :=
  let whole := take_while isdecimal s in
  let r1 := drop_while isdecimal s in
  let ws := take_while isspace r1 in
  let r2 := drop_while isspace r1 in
  let num := take_while isdecimal r2 in
  match drop_while isdecimal r2 with
  | c :: r3 =>
      let den := take_while isdecimal r3 in
      if Ascii.eqb c "/" && nonempty whole && nonempty ws
         && nonempty num && nonempty den
      then Some (whole ++ ws ++ num ++ c :: den)
      else None
  | [] => None
  end.

Definition separated (sep : ascii) (s : str) : option str :=
  let a := take_while isdecimal s in
  match drop_while isdecimal s with
  | c :: r =>
      let b := take_while isdecimal r in
      if Ascii.eqb c sep && nonempty a && nonempty b
      then Some (a ++ c :: b)
      else None
  | [] => None
  end.

Definition decimal : str -> option str := separated ".".
Definition fraction : str -> option str := separated "/".

Definition integer (s : str) : option str :=
  match take_while isdecimal s with
  | [] => None
  | ds => Some ds
  end.

Definition or_else (a b : option str) : option str :=
  match a with
  | Some m => Some m
  | None => b
  end.

(** The prefix the specification recognizes, in its priority order. *)
Definition numeric_prefix (s : str) : option str :=
  or_else (mixed s) (or_else (decimal s) (or_else (fraction s) (integer s))).

End Spec.

Module Scan.

(** The shapes the pattern accepts, read greedily and without
    backtracking: digits, optional whitespace, optional digits, a slash
    and digits; optional digits, a point and digits; digits. *)

Definition fraction (s : str) : option str :=
  let whole := take_while isdecimal s in
  let r1 := drop_while isdecimal s in
  let ws := take_while isspace r1 in
  let r2 := drop_while isspace r1 in
  let num := take_while isdecimal r2 in
  match drop_while isdecimal r2 with
  | c :: r3 =>
      let den := take_while isdecimal r3 in
      if Ascii.eqb c "/" && nonempty whole && nonempty den
      then Some (whole ++ ws ++ num ++ c :: den)
      else None
  | [] => None
  end.

Definition decimal (s : str) : option str :=
  let a := take_while isdecimal s in
  match drop_while isdecimal s with
  | c :: r =>
      let b := take_while isdecimal r in
      if Ascii.eqb c "." && nonempty b
      then Some (a ++ c :: b)
      else None
  | [] => None
  end.

Definition numeric_prefix (s : str) : option str :=
  Spec.or_else (fraction s) (Spec.or_else (decimal s) (Spec.integer s)).

(** A normalized text has a numeric prefix exactly when it starts with a
    digit, or with a point and a digit. *)
Definition starts_numeric (s : str) : bool :=
  match s with
  | c :: t =>
      isdecimal c
      || Ascii.eqb c "." && match t with
                            | d :: _ => isdecimal d
                            | [] => false
                            end
  | [] => false
  end.

End Scan.

(** ** Continuations of the pattern *)

(** The end of the pattern: whatever is left, the match is complete. *)
Definition last_k : Re.cont := fun _ => Some [].

(** After the whole number: optional whitespace, optional digits, then the
    slash and the denominator. *)
Definition after_whole : Re.cont :=
  fun t => Re.greedy isspace t
             (fun t1 => Re.greedy isdecimal t1
                          (fun t2 => Re.run slash_digits t2 last_k)).

Definition is_some {A : Type} (o : option A) : bool :=
  match o with
  | Some _ => true
  | None => false
  end.

(** ** Scaling there and back *)





(** The integers from [a] on, [len] of them. *)
Definition Zrange (a : Z) (len : nat) : list Z :=
  map (fun i => a + Z.of_nat i) (seq 0 len).




(** ** Signs *)

(** [x] is a number, not a NaN, and its sign bit is [s]. *)
Definition has_sign (s : bool) (x : float) : Prop :=
  match x with
  | S754_zero s' | S754_infinity s' | S754_finite s' _ _ => s' = s
  | S754_nan => False
  end.

(** ** Whitespace at the ends of a text *)

Definition starts_with_space (s : str) : bool :=
  match s with
  | c :: _ => isspace c
  | [] => false
  end.

Definition ends_with_space (s : str) : bool := starts_with_space (rev s).

(** A text that is not empty and has no whitespace at either end. *)
Definition trimmed (s : str) : Prop :=
  s <> [] /\ starts_with_space s = false /\ ends_with_space s = false.

Definition no_space (s : str) : bool := forallb (fun c => negb (isspace c)) s.

(** ** The floats of the interpreter *)

(** A mantissa with no bit shifted out yet. *)
Definition exact_record (m : Z) : shr_record :=
  {| shr_m := m; shr_r := false; shr_s := false |}.

(** A finite binary64 value: a zero, or a mantissa and exponent in the
    format's range. *)
Definition valid_float (x : float) : bool :=
  PyFloat.is_finite x && valid_binary PyFloat.prec PyFloat.emax x.

(** ** The shapes of a numeric prefix *)

(** What the pattern finds: a fraction, with or without a whole number
    before it, a decimal, or an integer. *)
Inductive prefix_shape (pre : str) : Prop :=
| Fraction_shape whole mid den :
    pre = whole ++ mid ++ "/"%char :: den ->
    whole <> [] -> all_decimal whole = true ->
    den <> [] -> all_decimal den = true -> prefix_shape pre
| Decimal_shape a b :
    pre = a ++ "."%char :: b ->
    all_decimal a = true -> b <> [] -> all_decimal b = true -> prefix_shape pre
| Integer_shape :
    pre <> [] -> all_decimal pre = true -> prefix_shape pre.

(** The first character of [s] is there and satisfies [p]. *)
Definition starts_with (p : ascii -> bool) (s : str) : bool :=
  match s with
  | c :: _ => p c
  | [] => false
  end.

(** Some character of [s] is no whitespace. *)
Definition nonblank (s : str) : bool := existsb (fun c => negb (isspace c)) s.

(** ** Whole numbers as floats *)

(** The binary64 value of the whole number [p], of at most 53 bits: the
    mantissa is [p] shifted to 53 bits. *)
Definition whole_float (s : bool) (p : positive) : float :=
  let '(m, e) := shl_align p 0 (Zpos (digits2_pos p) - 53) in
  S754_finite s m e.

Definition float_of_whole (n : Z) : float :=
  match n with
  | Z0 => PyFloat.zero
  | Zpos p => whole_float false p
  | Zneg p => whole_float true p
  end.

(** The binary64 value of [p * 2^z], for [p] of at most 53 bits. *)
Definition dyadic_float (s : bool) (p : positive) (z : Z) : float :=
  let '(m, e) := shl_align p z (z + Zpos (digits2_pos p) - 53) in
  S754_finite s m e.

(** The text of [t] quarters: the whole part and, when there is one, the
    fraction. *)
Definition quarters_text (t : Z) : str :=
  match t mod 4 with
  | 0 => str_of_int (t / 4)
  | 1 => whole_and (t / 4) "1/4"
  | 2 => whole_and (t / 4) "1/2"
  | _ => whole_and (t / 4) "3/4"
  end.

(** ** The interface around the quantity engine *)


(** [options.index(value)]: the first position of [value], [ValueError]
    when it is absent. *)
Fixpoint index (value : str) (options : list str) : result nat :=
  match options with
  | [] => Raise ValueError
  | o :: rest =>
      if list_eq_dec ascii_dec o value then Ok O
      else i <- index value rest ;; Ok (S i)
  end.

(** [try: i = options.index(value)] / [except ValueError: i = 0], the
    default of the three selection widgets. *)
Definition default_index (options : list str) (value : str) : result nat :=
  match index value options with
  | Ok i => Ok i
  | Raise ValueError => Ok O
  | Raise e => Raise e
  end.

Definition diet_options : list str :=
  map str_of_string ["Any"; "Vegetarian"; "Non-Vegetarian"]%string.

Definition cuisine_options : list str :=
  map str_of_string
    ["Any"; "Italian"; "Mexican"; "Indian"; "Chinese"; "Japanese";
     "Thai"; "French"; "Spanish"; "Greek"; "American"; "German";
     "Vietnamese"; "Korean"; "Brazilian"; "Moroccan"; "Ethiopian"]%string.

Definition complexity_options : list str :=
  map str_of_string
    ["Easy (Quick & simple)"; "Medium (Some technique required)";
     "Hard (Chef-level challenge)"]%string.




(** [int(total_calories_kcal * (original_servings / new_servings))] for a
    whole number of calories, and ['N/A'], here [None], when the recipe has
    no calories. *)
Definition scaled_calories (total_calories_kcal : option Z)
    (original_servings new_servings : Z) : result (option Z) :=
  match total_calories_kcal with
  | None => Ok None
  | Some kcal =>
      ratio <- PyFloat.truediv original_servings new_servings ;;
      k <- PyFloat.of_int kcal ;;
      n <- PyFloat.to_int (PyFloat.mul k ratio) ;;
      Ok (Some n)
  end.

(** * Properties *)

(** ** Character classes *)

Arguments Ascii.eqb : simpl never.
Arguments isdecimal : simpl never.
Arguments isspace : simpl never.

Ltac by_cases_on_char c :=
  destruct c as [[] [] [] [] [] [] [] []]; vm_compute; congruence.

Lemma decimal_not_space c : isdecimal c = true -> isspace c = false.
Proof. by_cases_on_char c. Qed.

Lemma decimal_not_slash c : isdecimal c = true -> Ascii.eqb "/" c = false.
Proof. by_cases_on_char c. Qed.

Lemma decimal_not_point c : isdecimal c = true -> Ascii.eqb "." c = false.
Proof. by_cases_on_char c. Qed.

Lemma space_not_decimal c : isspace c = true -> isdecimal c = false.
Proof. by_cases_on_char c. Qed.

Lemma space_not_slash c : isspace c = true -> Ascii.eqb "/" c = false.
Proof. by_cases_on_char c. Qed.

Lemma slash_not_space c : Ascii.eqb "/" c = true -> isspace c = false.
Proof. by_cases_on_char c. Qed.

Lemma slash_not_decimal c : Ascii.eqb "/" c = true -> isdecimal c = false.
Proof. by_cases_on_char c. Qed.

(** ** Runs of a class *)

Lemma take_while_all p (s : str) : forallb p (take_while p s) = true.
Proof.
  induction s as [|c t IH]; simpl; [reflexivity|].
  destruct (p c) eqn:E; simpl; [now rewrite E | reflexivity].
Qed.

Lemma drop_while_head p (s : str) c t :
  drop_while p s = c :: t -> p c = false.
Proof.
  induction s as [|x r IH]; simpl; [discriminate|].
  destruct (p x) eqn:E; [exact IH|].
  intros H; injection H as -> _; exact E.
Qed.

(** ** The matcher commits to the longest run *)

Section Greedy.
Variable p : ascii -> bool.
Variable k : Re.cont.

(** Giving back a character of the run never helps [k]. *)
Hypothesis no_use :
  forall c t, p c = true -> k (drop_while p t) = None -> k (c :: t) = None.

Lemma greedy_commits s :
  Re.greedy p s k = option_map (app (take_while p s)) (k (drop_while p s)).
Proof.
  induction s as [|c t IH]; simpl.
  - now destruct (k []).
  - destruct (p c) eqn:E.
    + rewrite IH. destruct (k (drop_while p t)) eqn:K; simpl; [reflexivity|].
      now apply no_use.
    + now destruct (k (c :: t)).
Qed.

Lemma plus_commits s :
  Re.one p s (fun t => Re.greedy p t k) =
  match take_while p s with
  | [] => None
  | run => option_map (app run) (k (drop_while p s))
  end.
Proof.
  destruct s as [|c t]; simpl; [reflexivity|].
  destruct (p c); [|reflexivity].
  rewrite greedy_commits. now destruct (k (drop_while p t)).
Qed.
End Greedy.

Lemma plus_last p s :
  Re.one p s (fun t => Re.greedy p t (fun _ => Some [])) =
  match take_while p s with
  | [] => None
  | run => Some run
  end.
Proof.
  rewrite plus_commits by discriminate.
  destruct (take_while p s); simpl; [reflexivity|]. now rewrite app_nil_r.
Qed.

(** ** The pattern, alternative by alternative *)

Lemma run_slash_digits s :
  Re.run slash_digits s last_k =
  match s with
  | c :: t =>
      if Ascii.eqb "/" c
      then match take_while isdecimal t with
           | [] => None
           | den => Some (c :: den)
           end
      else None
  | [] => None
  end.
Proof.
  destruct s as [|c t]; simpl; [reflexivity|].
  destruct (Ascii.eqb "/" c); [|reflexivity].
  unfold last_k. rewrite plus_last. now destruct (take_while isdecimal t).
Qed.

Lemma slash_digits_needs_slash c t :
  Ascii.eqb "/" c = false -> Re.run slash_digits (c :: t) last_k = None.
Proof. intros H. rewrite run_slash_digits. now rewrite H. Qed.

Lemma after_whole_scans s :
  after_whole s =
  option_map (app (take_while isspace s))
    (option_map (app (take_while isdecimal (drop_while isspace s)))
       (Re.run slash_digits
          (drop_while isdecimal (drop_while isspace s)) last_k)).
Proof.
  unfold after_whole. rewrite greedy_commits.
  - f_equal. apply greedy_commits.
    intros c t H _. apply slash_digits_needs_slash.
    now apply decimal_not_slash.
  - intros c t H _. simpl.
    rewrite (space_not_decimal _ H).
    apply slash_digits_needs_slash. now apply space_not_slash.
Qed.

(** Where the slash stands first, whitespace and numerator are empty. *)
Lemma after_whole_at_slash s :
  after_whole s = None -> Re.run slash_digits s last_k = None.
Proof.
  rewrite after_whole_scans.
  destruct s as [|x r]; [reflexivity|].
  destruct (Ascii.eqb "/" x) eqn:Ex.
  - simpl. rewrite (slash_not_space _ Ex). simpl.
    rewrite (slash_not_decimal _ Ex). simpl.
    rewrite Ex. now destruct (Re.one isdecimal r _).
  - intros _. now apply slash_digits_needs_slash.
Qed.

(** A digit given back by the whole number is of no use to what follows:
    it would have to precede the slash directly. *)
Lemma after_whole_no_use c t :
  isdecimal c = true ->
  after_whole (drop_while isdecimal t) = None ->
  after_whole (c :: t) = None.
Proof.
  intros Hc Hnone. apply after_whole_at_slash in Hnone.
  rewrite after_whole_scans. cbn [take_while drop_while].
  rewrite (decimal_not_space _ Hc). cbn [take_while drop_while].
  rewrite Hc, Hnone. reflexivity.
Qed.

Lemma run_mixed_re s : Re.run mixed_re s last_k = Scan.fraction s.
Proof.
  change (Re.run mixed_re s last_k)
    with (Re.one isdecimal s (fun t => Re.greedy isdecimal t after_whole)).
  rewrite plus_commits by apply after_whole_no_use.
  rewrite after_whole_scans, run_slash_digits.
  unfold Scan.fraction.
  destruct (take_while isdecimal s) as [|w ws] eqn:Ew.
  - destruct (drop_while isdecimal (drop_while isspace (drop_while isdecimal s)))
      as [|c r]; [reflexivity|].
    now rewrite andb_false_r.
  - destruct (drop_while isdecimal (drop_while isspace (drop_while isdecimal s)))
      as [|c r]; [reflexivity|].
    rewrite (Ascii.eqb_sym c "/").
    destruct (Ascii.eqb "/" c); [|reflexivity].
    destruct (take_while isdecimal r); reflexivity.
Qed.

Lemma run_decimal_re s : Re.run decimal_re s last_k = Scan.decimal s.
Proof.
  change (Re.run decimal_re s last_k)
    with (Re.greedy isdecimal s
            (fun t => Re.one (Ascii.eqb ".") t
                        (fun t1 => Re.one isdecimal t1
                                     (fun t2 => Re.greedy isdecimal t2 last_k)))).
  rewrite greedy_commits.
  - unfold Scan.decimal.
    destruct (drop_while isdecimal s) as [|c r]; [reflexivity|].
    cbn [Re.one]. rewrite (Ascii.eqb_sym c ".").
    destruct (Ascii.eqb "." c); [|reflexivity].
    unfold last_k. rewrite plus_last.
    destruct (take_while isdecimal r); reflexivity.
  - intros c t H _. cbn [Re.one]. now rewrite (decimal_not_point _ H).
Qed.

Lemma run_fraction_re s : Re.run fraction_re s last_k = Spec.fraction s.
Proof.
  change (Re.run fraction_re s last_k)
    with (Re.one isdecimal s
            (fun t => Re.greedy isdecimal t
                        (fun t1 => Re.run slash_digits t1 last_k))).
  rewrite plus_commits.
  - rewrite run_slash_digits. unfold Spec.fraction, Spec.separated.
    destruct (take_while isdecimal s) as [|w ws].
    + destruct (drop_while isdecimal s) as [|c r]; [reflexivity|].
      now rewrite andb_false_r.
    + destruct (drop_while isdecimal s) as [|c r]; [reflexivity|].
      rewrite (Ascii.eqb_sym c "/").
      destruct (Ascii.eqb "/" c); [|reflexivity].
      destruct (take_while isdecimal r); reflexivity.
  - intros c t H _. apply slash_digits_needs_slash.
    now apply decimal_not_slash.
Qed.

Lemma run_digits s : Re.run digits s last_k = Spec.integer s.
Proof. apply plus_last. Qed.

(** The third alternative is never reached: a text it matches is matched
    by the first, with no whitespace and no numerator. *)
Lemma fraction_subsumed s : Scan.fraction s = None -> Spec.fraction s = None.
Proof.
  unfold Scan.fraction, Spec.fraction, Spec.separated.
  destruct (drop_while isdecimal s) as [|c r]; [reflexivity|].
  destruct (Ascii.eqb c "/") eqn:Ec; [|reflexivity].
  rewrite Ascii.eqb_sym in Ec.
  cbn [take_while drop_while].
  rewrite (slash_not_space _ Ec). cbn [take_while drop_while].
  rewrite (slash_not_decimal _ Ec). rewrite Ascii.eqb_sym, Ec.
  destruct (nonempty (take_while isdecimal s));
    destruct (nonempty (take_while isdecimal r)); simpl; congruence.
Qed.

Lemma numeric_prefix_scans s : numeric_prefix s = Scan.numeric_prefix s.
Proof.
  unfold numeric_prefix, Re.re_match, quantity_re.
  change (fun _ : str => Some []) with last_k.
  cbn [Re.run].
  change (Re.run (Re.Cat digits (Re.Cat (Re.Star Re.Space)
            (Re.Cat (Re.Star Re.Digit) slash_digits))) s last_k)
    with (Re.run mixed_re s last_k).
  fold (Re.run mixed_re s last_k) (Re.run decimal_re s last_k)
       (Re.run fraction_re s last_k) (Re.run digits s last_k).
  rewrite run_mixed_re, run_decimal_re, run_fraction_re, run_digits.
  unfold Scan.numeric_prefix, Spec.or_else.
  destruct (Scan.fraction s) eqn:F; [reflexivity|].
  destruct (Scan.decimal s); [reflexivity|].
  now rewrite (fraction_subsumed _ F).
Qed.

Lemma take_while_head p c (t : str) :
  p c = true -> take_while p (c :: t) = c :: take_while p t.
Proof. intros H. simpl. now rewrite H. Qed.

Lemma numeric_prefix_starts s :
  is_some (numeric_prefix s) = Scan.starts_numeric s.
Proof.
  rewrite numeric_prefix_scans.
  unfold Scan.numeric_prefix, Spec.or_else, Scan.starts_numeric.
  destruct s as [|c t].
  - reflexivity.
  - destruct (isdecimal c) eqn:Dc.
    + destruct (Scan.fraction (c :: t)); [reflexivity|].
      destruct (Scan.decimal (c :: t)); [reflexivity|].
      unfold Spec.integer. now rewrite take_while_head.
    + unfold Scan.fraction, Scan.decimal, Spec.integer.
      cbn [take_while drop_while]. rewrite Dc. cbn [nonempty].
      assert (F : match drop_while isdecimal
                          (drop_while isspace (c :: t)) with
                  | [] => None
                  | c0 :: r3 =>
                      if Ascii.eqb c0 "/" && false
                         && nonempty (take_while isdecimal r3)
                      then Some ([] ++ take_while isspace (c :: t)
                                  ++ take_while isdecimal
                                       (drop_while isspace (c :: t))
                                  ++ c0 :: take_while isdecimal r3)
                      else None
                  end = None).
      { destruct (drop_while isdecimal (drop_while isspace (c :: t)));
          [reflexivity|]. now rewrite andb_false_r. }
      rewrite F. simpl.
      destruct (Ascii.eqb c "."); [|reflexivity].
      destruct t as [|d r]; [reflexivity|]. simpl.
      now destruct (isdecimal d).
Qed.

(** ** Results *)

Lemma bind_ok {A B : Type} (r : result A) (f : A -> result B) b :
  bind r f = Ok b -> exists a, r = Ok a /\ f a = Ok b.
Proof. destruct r as [a|e]; simpl; [eauto | discriminate]. Qed.

Ltac bind_inv H :=
  let a := fresh "a" in
  let Ha := fresh "Ha" in
  cbv beta iota in H;
  apply bind_ok in H; destruct H as (a & Ha & H).

(** ** Rounding keeps the sign *)

Section Rounding.
Let prec := PyFloat.prec.
Let emax := PyFloat.emax.

Lemma iter_pos_invariant {A : Type} (P : A -> Prop) (f : A -> A) :
  (forall x, P x -> P (f x)) ->
  forall n x, P x -> P (iter_pos f n x).
Proof.
  intros step. induction n as [n IH|n IH|]; intros x Hx; simpl; auto.
Qed.

Lemma shr_1_nonneg mrs : 0 <= shr_m mrs -> 0 <= shr_m (shr_1 mrs).
Proof.
  destruct mrs as [m r s]. simpl.
  destruct m as [|[p|p|]|p]; simpl; lia.
Qed.

Lemma shr_nonneg mrs e n : 0 <= shr_m mrs -> 0 <= shr_m (fst (shr mrs e n)).
Proof.
  intros H. destruct n as [|p|p]; simpl; trivial.
  now apply iter_pos_invariant; [apply shr_1_nonneg|].
Qed.

Lemma shr_record_of_loc_m m l : shr_m (shr_record_of_loc m l) = m.
Proof. now destruct l as [|[]]. Qed.

Lemma shr_fexp_nonneg m e l :
  0 <= m -> 0 <= shr_m (fst (shr_fexp prec emax m e l)).
Proof.
  intros H. unfold shr_fexp. apply shr_nonneg.
  now rewrite shr_record_of_loc_m.
Qed.

Lemma round_nearest_even_nonneg m l : 0 <= m -> 0 <= round_nearest_even m l.
Proof.
  intros H. destruct l as [|[]]; simpl; try lia.
  destruct (Z.even m); lia.
Qed.

Lemma binary_round_aux_sign sx mx ex lx :
  0 <= mx -> has_sign sx (binary_round_aux prec emax sx mx ex lx).
Proof.
  intros H. unfold binary_round_aux.
  pose proof (shr_fexp_nonneg ex lx H) as H1.
  destruct (shr_fexp prec emax mx ex lx) as [mrs' e']. simpl in H1.
  pose proof (round_nearest_even_nonneg (loc_of_shr_record mrs') H1) as H2.
  pose proof (shr_fexp_nonneg e' loc_Exact H2) as H3.
  destruct (shr_fexp prec emax _ e' loc_Exact) as [mrs'' e'']. simpl in H3.
  destruct (shr_m mrs'') as [|m|m]; [reflexivity| |lia].
  now destruct (_ <=? _).
Qed.

Lemma binary_round_sign sx mx ex :
  has_sign sx (binary_round prec emax sx mx ex).
Proof.
  unfold binary_round.
  destruct (shl_align mx ex _) as [mz ez].
  apply binary_round_aux_sign. lia.
Qed.

Lemma div_finite_sign sx mx ex sy my ey :
  has_sign (xorb sx sy)
    (SFdiv prec emax (S754_finite sx mx ex) (S754_finite sy my ey)).
Proof.
  unfold SFdiv, SFdiv_core_binary.
  set (m' := match _ - _ - _ with
             | Z0 => Zpos mx
             | Zpos _ => Z.shiftl (Zpos mx) _
             | Zneg _ => 0
             end).
  assert (Hm : 0 <= m').
  { subst m'. destruct (_ - _ - _); try lia.
    apply Z.shiftl_nonneg. lia. }
  pose proof (Z.div_pos m' (Zpos my) Hm ltac:(lia)) as Hq.
  unfold Z.div in Hq.
  destruct (Z.div_eucl m' (Zpos my)) as [q r]. simpl in Hq.
  now apply binary_round_aux_sign.
Qed.

Lemma add_sign x y :
  has_sign false x -> has_sign false y -> has_sign false (PyFloat.add x y).
Proof.
  destruct x as [sx|sx| |sx mx ex], y as [sy|sy| |sy my ey];
    simpl; intros Hx Hy; subst; try easy.
  unfold cond_Zopp.
  destruct (shl_align mx ex _) as [m1 e1], (shl_align my ey _) as [m2 e2].
  simpl. apply binary_round_sign.
Qed.

Lemma nonneg_of_sign x : has_sign false x -> PyFloat.leb PyFloat.zero x = true.
Proof. destruct x as [s|s| |s m e]; simpl; intros H; subst; easy. Qed.
End Rounding.

Lemma quotient_sign n d :
  d <> 0 -> has_sign (xorb (n <? 0) (d <? 0)) (PyFloat.quotient n d).
Proof.
  intros Hd. unfold PyFloat.quotient.
  destruct n as [|n|n].
  - simpl. now destruct (d <? 0).
  - destruct d as [|d|d]; [easy| |]; apply div_finite_sign.
  - destruct d as [|d|d]; [easy| |]; apply div_finite_sign.
Qed.

Lemma truediv_sign n d x :
  PyFloat.truediv n d = Ok x -> has_sign (xorb (n <? 0) (d <? 0)) x.
Proof.
  unfold PyFloat.truediv.
  destruct (d =? 0) eqn:E; [discriminate|].
  destruct (PyFloat.is_finite _); [|discriminate].
  intros H; injection H as <-. apply quotient_sign. lia.
Qed.

Lemma of_decimal_sign n k : 0 <= n -> has_sign false (PyFloat.of_decimal n k).
Proof.
  intros H. unfold PyFloat.of_decimal.
  assert (P : 0 < 10 ^ Z.of_nat k) by (apply Z.pow_pos_nonneg; lia).
  pose proof (@quotient_sign n (10 ^ Z.of_nat k) ltac:(lia)) as Q.
  replace (n <? 0) with false in Q by (symmetry; apply Z.ltb_ge; lia).
  replace (10 ^ Z.of_nat k <? 0) with false in Q
    by (symmetry; apply Z.ltb_ge; lia).
  exact Q.
Qed.

(** ** What the conversions return *)

Lemma digit_val_nonneg c : isdecimal c = true -> 0 <= digit_val c.
Proof.
  unfold isdecimal, digit_val. intros H.
  apply andb_true_iff in H. destruct H as [H _].
  apply N.leb_le in H. lia.
Qed.

Lemma digits_val_nonneg s : all_decimal s = true -> 0 <= digits_val s.
Proof.
  unfold digits_val.
  assert (G : forall acc, 0 <= acc -> all_decimal s = true ->
              0 <= fold_left (fun a c => 10 * a + digit_val c) s acc).
  { unfold all_decimal.
    induction s as [|c t IH]; cbn [fold_left forallb]; intros acc Ha Hs;
      [exact Ha|].
    apply andb_true_iff in Hs. destruct Hs as [Hc Ht].
    apply IH; [|exact Ht]. pose proof (digit_val_nonneg _ Hc). lia. }
  apply G. lia.
Qed.

Lemma int_of_str_nonneg s n : int_of_str s = Ok n -> 0 <= n.
Proof.
  unfold int_of_str. destruct (strip_number s) as [|c t] eqn:E; [discriminate|].
  destruct (all_decimal (c :: t)) eqn:D; [|discriminate].
  intros H; injection H as <-. now apply digits_val_nonneg.
Qed.

Lemma unpack_int_pair_nonneg pieces n d :
  unpack_int_pair pieces = Ok (n, d) -> 0 <= n /\ 0 <= d.
Proof.
  unfold unpack_int_pair.
  destruct pieces as [|a [|b [|c r]]]; try discriminate.
  intros H. bind_inv H. bind_inv H. injection H as <- <-.
  split; eapply int_of_str_nonneg; eassumption.
Qed.

Lemma all_decimal_app a b :
  all_decimal a = true -> all_decimal b = true -> all_decimal (a ++ b) = true.
Proof. unfold all_decimal. intros Ha Hb. rewrite forallb_app. now rewrite Ha, Hb. Qed.

Lemma float_of_str_sign s x : float_of_str s = Ok x -> has_sign false x.
Proof.
  unfold float_of_str.
  pose proof (take_while_all isdecimal (strip_number s)) as Hip.
  destruct (drop_while isdecimal (strip_number s)) as [|c fp].
  - destruct (take_while isdecimal (strip_number s)) eqn:E; [discriminate|].
    intros H; injection H as <-.
    apply of_decimal_sign. now apply digits_val_nonneg.
  - destruct (Ascii.eqb c ".") ; [|discriminate].
    destruct (all_decimal fp) eqn:F; [|discriminate].
    destruct (negb _); [|discriminate].
    intros H; injection H as <-.
    apply of_decimal_sign. apply digits_val_nonneg.
    now apply all_decimal_app.
Qed.

Lemma truediv_nonneg n d q :
  0 <= n -> 0 <= d -> PyFloat.truediv n d = Ok q -> has_sign false q.
Proof.
  intros Hn Hd H. apply truediv_sign in H.
  replace (n <? 0) with false in H by (symmetry; apply Z.ltb_ge; lia).
  replace (d <? 0) with false in H by (symmetry; apply Z.ltb_ge; lia).
  exact H.
Qed.

Lemma parse_quantity_sign s m u :
  parse_quantity s = Ok (Some m, u) -> has_sign false m.
Proof.
  unfold parse_quantity.
  destruct (Re.re_match quantity_re (normalize s)) as [pre|]; [|discriminate].
  destruct (contains " " (strip pre) && contains "/" (strip pre)).
  - intros H. bind_inv H. bind_inv H. bind_inv H. bind_inv H.
    destruct a2 as [n d]. bind_inv H. injection H as <- _.
    apply unpack_int_pair_nonneg in Ha2. destruct Ha2 as [Hn Hd].
    apply add_sign.
    + eapply float_of_str_sign; eassumption.
    + exact (truediv_nonneg Hn Hd Ha3).
  - destruct (contains "/" (strip pre)).
    + intros H. bind_inv H. destruct a as [n d]. bind_inv H.
      injection H as <- _.
      apply unpack_int_pair_nonneg in Ha. destruct Ha as [Hn Hd].
      exact (truediv_nonneg Hn Hd Ha0).
    + destruct (float_of_str (strip pre)) as [q|[]] eqn:F; try discriminate.
      intros H; injection H as <- _.
      eapply float_of_str_sign; eassumption.
Qed.

(** ** The branch without a numeric prefix *)

Lemma parse_quantity_unmatched s :
  numeric_prefix (normalize s) = None ->
  parse_quantity s = Ok (None, normalize s).
Proof.
  unfold numeric_prefix, parse_quantity. intros H. now rewrite H.
Qed.

Lemma no_prefix_of_start s :
  Scan.starts_numeric s = false -> numeric_prefix s = None.
Proof.
  rewrite <- numeric_prefix_starts. now destruct (numeric_prefix s).
Qed.

(** ** The ingredient loop *)

(** Whenever [parse_quantity] returns, an absent magnitude or a factor
    equal to 1.0 leaves the original text as it is. *)
Lemma display_quantity_bypass s f m u :
  parse_quantity s = Ok (m, u) ->
  m = None \/ PyFloat.eqb f PyFloat.one = true ->
  display_quantity s f = Ok s.
Proof.
  intros P H. unfold display_quantity. rewrite P. simpl.
  destruct m as [q|]; [|reflexivity].
  destruct H as [H|H]; [discriminate|]. now rewrite H.
Qed.

(** ** Stripping *)

Lemma drop_while_keeps p (c : ascii) (t : str) :
  p c = false -> drop_while p (c :: t) = c :: t.
Proof. intros H. simpl. now rewrite H. Qed.

Lemma drop_while_all p (a b : str) :
  forallb p a = true -> drop_while p (a ++ b) = drop_while p b.
Proof.
  induction a as [|c t IH]; simpl; [reflexivity|].
  intros H. apply andb_true_iff in H. destruct H as [Hc Ht].
  rewrite Hc. now apply IH.
Qed.

Lemma drop_while_app_last p (l : str) c :
  p c = false -> drop_while p (l ++ [c]) = drop_while p l ++ [c].
Proof.
  intros H. induction l as [|x r IH]; simpl.
  - now rewrite H.
  - destruct (p x); [exact IH | reflexivity].
Qed.

Lemma forallb_rev (p : ascii -> bool) (l : str) :
  forallb p (rev l) = forallb p l.
Proof.
  induction l as [|c t IH]; simpl; [reflexivity|].
  rewrite forallb_app, IH. simpl. rewrite andb_true_r. apply andb_comm.
Qed.

Lemma lstrip_no_lead s : starts_with_space (lstrip s) = false.
Proof.
  unfold lstrip. destruct (drop_while isspace s) as [|c t] eqn:E;
    [reflexivity|]. simpl. eapply drop_while_head; eassumption.
Qed.

Lemma rstrip_no_trail s : ends_with_space (rstrip s) = false.
Proof.
  unfold ends_with_space, rstrip. rewrite rev_involutive.
  apply (lstrip_no_lead (rev s)).
Qed.

Lemma rstrip_keeps_head s :
  starts_with_space s = false -> starts_with_space (rstrip s) = false.
Proof.
  destruct s as [|c t]; [reflexivity|]. simpl. intros H.
  unfold rstrip. simpl rev.
  rewrite drop_while_app_last by exact H.
  rewrite rev_app_distr. simpl. exact H.
Qed.

Lemma strip_no_lead s : starts_with_space (strip s) = false.
Proof. apply rstrip_keeps_head, lstrip_no_lead. Qed.

Lemma strip_no_trail s : ends_with_space (strip s) = false.
Proof. apply rstrip_no_trail. Qed.

Lemma lstrip_id s : starts_with_space s = false -> lstrip s = s.
Proof.
  destruct s as [|c t]; [reflexivity|]. simpl. intros H.
  now apply drop_while_keeps.
Qed.

Lemma rstrip_id s : ends_with_space s = false -> rstrip s = s.
Proof.
  unfold ends_with_space, rstrip. intros H.
  change (drop_while isspace (rev s)) with (lstrip (rev s)).
  rewrite (lstrip_id (rev s) H). apply rev_involutive.
Qed.

Lemma strip_id s :
  starts_with_space s = false -> ends_with_space s = false -> strip s = s.
Proof.
  intros H1 H2. unfold strip. rewrite (lstrip_id s H1). now apply rstrip_id.
Qed.

Lemma rstrip_spaces s w : forallb isspace w = true -> rstrip (s ++ w) = rstrip s.
Proof.
  intros H. unfold rstrip. rewrite rev_app_distr.
  rewrite drop_while_all; [reflexivity|].
  now rewrite forallb_rev.
Qed.

Lemma starts_app a b :
  a <> [] -> starts_with_space (a ++ b) = starts_with_space a.
Proof. destruct a; [congruence | reflexivity]. Qed.

Lemma ends_app a b :
  b <> [] -> ends_with_space (a ++ b) = ends_with_space b.
Proof.
  intros H. unfold ends_with_space. rewrite rev_app_distr.
  apply starts_app. intros E. apply H.
  rewrite <- (rev_involutive b), E. reflexivity.
Qed.

(** A trimmed number, a space and nothing but whitespace: the number. *)
Lemma strip_number_alone num u :
  trimmed num -> forallb isspace u = true ->
  strip (num ++ " "%char :: u) = num.
Proof.
  intros (Hne & Hs & He) Hu. unfold strip.
  rewrite lstrip_id by (now rewrite starts_app).
  rewrite rstrip_spaces by (simpl; now rewrite Hu).
  now apply rstrip_id.
Qed.

(** A trimmed number, a space and a trimmed unit: nothing is stripped. *)
Lemma strip_number_unit num u :
  trimmed num -> trimmed u ->
  strip (num ++ " "%char :: u) = num ++ " "%char :: u.
Proof.
  intros (Hne & Hs & He) (Une & Us & Ue).
  apply strip_id.
  - now rewrite starts_app.
  - change (num ++ " "%char :: u) with (num ++ [" "%char] ++ u).
    rewrite app_assoc. now rewrite ends_app.
Qed.

Lemma no_space_trimmed s : s <> [] -> no_space s = true -> trimmed s.
Proof.
  intros Hne H. split; [exact Hne|]. split.
  - destruct s as [|c t]; [reflexivity|]. simpl in *.
    apply andb_true_iff in H. destruct H as [H _].
    now apply negb_true_iff in H.
  - unfold ends_with_space. unfold no_space in H.
    rewrite <- forallb_rev in H.
    destruct (rev s) as [|c t]; [reflexivity|]. simpl in *.
    apply andb_true_iff in H. destruct H as [H _].
    now apply negb_true_iff in H.
Qed.

(** ** The text of a number *)

Lemma digit_char_no_space d :
  0 <= d <= 9 -> isspace (digit_char d) = false.
Proof.
  intros H.
  assert (C : d = 0 \/ d = 1 \/ d = 2 \/ d = 3 \/ d = 4 \/ d = 5
              \/ d = 6 \/ d = 7 \/ d = 8 \/ d = 9) by lia.
  repeat (destruct C as [-> | C]; [reflexivity|]). now subst.
Qed.

Lemma mod_10_digit n : 0 <= n mod 10 <= 9.
Proof. pose proof (Z.mod_pos_bound n 10). lia. Qed.

Lemma digits_of_no_space fuel : forall n acc,
  no_space acc = true -> no_space (digits_of fuel n acc) = true.
Proof.
  induction fuel as [|f IH]; intros n acc H; simpl; [exact H|].
  assert (H' : no_space (digit_char (n mod 10) :: acc) = true).
  { simpl. rewrite H, digit_char_no_space by apply mod_10_digit. reflexivity. }
  destruct (n <? 10); [exact H' | now apply IH].
Qed.

Lemma digits_of_nonempty fuel : forall n acc,
  acc <> [] -> digits_of fuel n acc <> [].
Proof.
  induction fuel as [|f IH]; intros n acc H; simpl; [exact H|].
  destruct (n <? 10); [discriminate | apply IH; discriminate].
Qed.

Lemma str_of_int_no_space n : no_space (str_of_int n) = true.
Proof.
  unfold str_of_int.
  destruct (n <? 0); [|now apply digits_of_no_space].
  unfold no_space. cbn [forallb].
  change (isspace "-") with false. cbn [negb andb].
  now apply digits_of_no_space.
Qed.

Lemma str_of_int_nonempty n : str_of_int n <> [].
Proof.
  unfold str_of_int. destruct (n <? 0); [discriminate|].
  cbn [digits_of]. destruct (Z.abs n <? 10); [discriminate|].
  apply digits_of_nonempty. discriminate.
Qed.

Lemma str_of_int_trimmed n : trimmed (str_of_int n).
Proof.
  apply no_space_trimmed; [apply str_of_int_nonempty | apply str_of_int_no_space].
Qed.

Lemma whole_and_trimmed i (frac : string) :
  trimmed (str_of_string frac) -> trimmed (whole_and i frac).
Proof.
  intros F. unfold whole_and. destruct (0 <? i).
  - rewrite strip_number_unit by (trivial; apply str_of_int_trimmed).
    destruct (str_of_int_trimmed i) as (Ine & Is & Ie).
    destruct F as (Fne & Fs & Fe).
    split; [|split].
    + destruct (str_of_int i); [congruence | discriminate].
    + now rewrite starts_app.
    + change (str_of_int i ++ " "%char :: str_of_string frac)
        with (str_of_int i ++ [" "%char] ++ str_of_string frac).
      rewrite app_assoc. now rewrite ends_app.
  - destruct F as (Fne & Fs & Fe).
    assert (E : strip ([] ++ " "%char :: str_of_string frac)
                = str_of_string frac).
    { unfold strip. simpl app. unfold lstrip. simpl drop_while.
      change (drop_while isspace (str_of_string frac))
        with (lstrip (str_of_string frac)).
      rewrite lstrip_id by exact Fs. now apply rstrip_id. }
    rewrite E. now repeat split.
Qed.

Lemma fixed2_trimmed s h : trimmed (PyFloat.fixed2 s h).
Proof.
  apply no_space_trimmed.
  - unfold PyFloat.fixed2. destruct s; [discriminate|]. simpl.
    pose proof (str_of_int_nonempty (h / 100)).
    destruct (str_of_int (h / 100)); [congruence | discriminate].
  - unfold PyFloat.fixed2, no_space.
    rewrite !forallb_app. fold (no_space (str_of_int (h / 100))).
    rewrite str_of_int_no_space.
    assert (D1 : 0 <= h mod 100 / 10 <= 9).
    { pose proof (Z.mod_pos_bound h 100).
      assert (h mod 100 / 10 < 10) by (apply Z.div_lt_upper_bound; lia).
      split; [apply Z.div_pos; lia | lia]. }
    simpl forallb at 2.
    rewrite (digit_char_no_space D1), (digit_char_no_space (mod_10_digit h)).
    now destruct s.
Qed.

Lemma formatted_num_trimmed x num : formatted_num x = Ok num -> trimmed num.
Proof.
  unfold formatted_num. intros H. bind_inv H. bind_inv H.
  destruct (PyFloat.eqb _ _).
  { injection H as <-. apply str_of_int_trimmed. }
  destruct (PyFloat.ltb _ _).
  { injection H as <-. apply whole_and_trimmed. now vm_compute. }
  destruct (PyFloat.ltb _ _).
  { injection H as <-. apply whole_and_trimmed. now vm_compute. }
  destruct (PyFloat.ltb _ _).
  { injection H as <-. apply whole_and_trimmed. now vm_compute. }
  injection H as <-.
  destruct x as [s|s| |s m e]; try discriminate; apply fixed2_trimmed.
Qed.

(** ** The integer part of a float is a float *)

Lemma fexp_eq e :
  fexp PyFloat.prec PyFloat.emax e = Z.max (e - 53) (-1074).
Proof. reflexivity. Qed.

Lemma pow2_step d : 0 < d -> 2 ^ d = 2 * 2 ^ (d - 1).
Proof.
  intros H. replace d with (Z.succ (d - 1)) at 1 by lia.
  apply Z.pow_succ_r. lia.
Qed.

Lemma digits2_bounds p :
  2 ^ (Zpos (digits2_pos p) - 1) <= Zpos p < 2 ^ Zpos (digits2_pos p).
Proof.
  induction p as [p IH|p IH|]; cbn [digits2_pos].
  - rewrite Pos2Z.inj_succ, Pos2Z.inj_xI.
    replace (Z.succ (Zpos (digits2_pos p)) - 1) with (Zpos (digits2_pos p)) by lia.
    rewrite Z.pow_succ_r by lia.
    rewrite (pow2_step (d := Zpos (digits2_pos p))) in * by lia.
    generalize dependent (2 ^ (Zpos (digits2_pos p) - 1)). intros; lia.
  - rewrite Pos2Z.inj_succ. change (Zpos p~0) with (2 * Zpos p).
    replace (Z.succ (Zpos (digits2_pos p)) - 1) with (Zpos (digits2_pos p)) by lia.
    rewrite Z.pow_succ_r by lia.
    rewrite (pow2_step (d := Zpos (digits2_pos p))) in * by lia.
    generalize dependent (2 ^ (Zpos (digits2_pos p) - 1)). intros; lia.
  - simpl. lia.
Qed.

Lemma digits2_unique p d :
  2 ^ (d - 1) <= Zpos p < 2 ^ d -> Zpos (digits2_pos p) = d.
Proof.
  intros [L U]. pose proof (digits2_bounds p) as [L' U'].
  assert (0 < d).
  { destruct (Z_lt_le_dec 0 d) as [|N]; [assumption|].
    exfalso. destruct (Z.eq_dec d 0) as [->|]; [simpl in U; lia|].
    rewrite (Z.pow_neg_r 2 d) in U by lia. lia. }
  assert (Zpos (digits2_pos p) - 1 < d).
  { apply (Z.pow_lt_mono_r_iff 2); lia. }
  assert (d - 1 < Zpos (digits2_pos p)).
  { apply (Z.pow_lt_mono_r_iff 2); lia. }
  lia.
Qed.

Lemma digits2_shift p k q :
  0 <= k -> Zpos q = Zpos p * 2 ^ k ->
  Zpos (digits2_pos q) = Zpos (digits2_pos p) + k.
Proof.
  intros Hk E. apply digits2_unique. rewrite E.
  pose proof (digits2_bounds p) as [L U].
  replace (Zpos (digits2_pos p) + k - 1) with (Zpos (digits2_pos p) - 1 + k) by lia.
  rewrite !Z.pow_add_r by lia.
  assert (0 < 2 ^ k) by (apply Z.pow_pos_nonneg; lia).
  split; [apply Z.mul_le_mono_nonneg_r; lia | apply Z.mul_lt_mono_pos_r; lia].
Qed.

Lemma digits2_mono p q :
  Zpos p <= Zpos q -> Zpos (digits2_pos p) <= Zpos (digits2_pos q).
Proof.
  intros H. pose proof (digits2_bounds p) as [L _].
  pose proof (digits2_bounds q) as [_ U].
  assert (Zpos (digits2_pos p) - 1 < Zpos (digits2_pos q)).
  { apply (Z.pow_lt_mono_r_iff 2); lia. }
  lia.
Qed.

Lemma iter_pos_nat {A : Type} (f : A -> A) n : forall x,
  iter_pos f n x = Nat.iter (Pos.to_nat n) f x.
Proof.
  induction n as [n IH|n IH|]; intros x; cbn [iter_pos].
  - rewrite !IH, Pos2Nat.inj_xI.
    replace (S (2 * Pos.to_nat n))%nat
      with (Pos.to_nat n + (Pos.to_nat n + 1))%nat by lia.
    rewrite !Nat.iter_add. reflexivity.
  - rewrite !IH, Pos2Nat.inj_xO.
    replace (2 * Pos.to_nat n)%nat
      with (Pos.to_nat n + Pos.to_nat n)%nat by lia.
    rewrite Nat.iter_add. reflexivity.
  - reflexivity.
Qed.

Lemma shr_1_even m :
  0 <= m -> shr_1 (exact_record (2 * m)) = exact_record m.
Proof. destruct m as [|p|p]; [reflexivity | reflexivity | lia]. Qed.

(** Shifting out zeros loses nothing. *)
Lemma shr_exact n : forall m,
  0 <= m ->
  Nat.iter n shr_1 (exact_record (m * 2 ^ Z.of_nat n)) = exact_record m.
Proof.
  induction n as [|n IH]; intros m Hm.
  - simpl. now rewrite Z.mul_1_r.
  - rewrite Nat.iter_succ_r, Nat2Z.inj_succ, Z.pow_succ_r by lia.
    replace (m * (2 * 2 ^ Z.of_nat n)) with (2 * (m * 2 ^ Z.of_nat n)) by lia.
    rewrite shr_1_even; [now apply IH|].
    apply Z.mul_nonneg_nonneg; [lia|]. apply Z.pow_nonneg. lia.
Qed.

Lemma shl_pos p k : Zpos (Pos.iter xO p k) = Zpos p * 2 ^ Zpos k.
Proof.
  rewrite <- Z.shiftl_mul_pow2 by lia.
  change (Z.shiftl (Zpos p) (Zpos k)) with (Pos.iter (Z.mul 2) (Zpos p) k).
  apply Pos.iter_swap_gen. reflexivity.
Qed.

Lemma round_aux_canonical s mz ez :
  canonical_mantissa PyFloat.prec PyFloat.emax mz ez = true ->
  binary_round_aux PyFloat.prec PyFloat.emax s (Zpos mz) ez loc_Exact
  = if ez <=? 971 then S754_finite s mz ez else S754_infinity s.
Proof.
  unfold canonical_mantissa. intros C. apply Z.eqb_eq in C.
  unfold binary_round_aux, shr_fexp. cbn [Zdigits2].
  rewrite C, Z.sub_diag. cbn [shr shr_record_of_loc shr_m loc_of_shr_record
                             round_nearest_even Zdigits2].
  rewrite C, Z.sub_diag. reflexivity.
Qed.

Lemma binary_round_small s p :
  Zpos (digits2_pos p) <= 53 ->
  PyFloat.is_finite (binary_round PyFloat.prec PyFloat.emax s p 0) = true.
Proof.
  intros D. unfold binary_round.
  rewrite fexp_eq, Z.add_0_r.
  rewrite Z.max_l by lia.
  unfold shl_align.
  destruct (Zpos (digits2_pos p) - 53 - 0) as [|k|k] eqn:E; try lia.
  - rewrite round_aux_canonical.
    + reflexivity.
    + unfold canonical_mantissa. rewrite fexp_eq. apply Z.eqb_eq. lia.
  - pose proof (shl_pos p k) as S.
    pose proof (@digits2_shift p (Zpos k) (Pos.iter xO p k) ltac:(lia) S) as DS.
    rewrite round_aux_canonical.
    + destruct (_ <=? 971) eqn:L; [reflexivity|]. apply Z.leb_gt in L. lia.
    + unfold canonical_mantissa. rewrite fexp_eq. apply Z.eqb_eq. lia.
Qed.

Lemma binary_round_big s p q n :
  0 < n <= 971 -> Zpos p = Zpos q * 2 ^ n -> Zpos (digits2_pos q) = 53 ->
  PyFloat.is_finite (binary_round PyFloat.prec PyFloat.emax s p 0) = true.
Proof.
  intros Hn E Dq.
  pose proof (@digits2_shift q n p ltac:(lia) E) as Dp.
  unfold binary_round. rewrite fexp_eq, Z.add_0_r, Z.max_l by lia.
  unfold shl_align.
  destruct (Zpos (digits2_pos p) - 53 - 0) as [|k|k] eqn:K; try lia.
  unfold binary_round_aux, shr_fexp. cbn [Zdigits2].
  rewrite fexp_eq, Z.add_0_r, Z.max_l, Z.sub_0_r by lia.
  replace (Zpos (digits2_pos p) - 53) with (Zpos k) by lia.
  cbn [shr shr_record_of_loc].
  rewrite iter_pos_nat.
  change {| shr_m := Zpos p; shr_r := false; shr_s := false |}
    with (exact_record (Zpos p)).
  assert (Nk : n = Z.of_nat (Pos.to_nat k)) by (rewrite positive_nat_Z; lia).
  rewrite E, Nk, shr_exact by lia.
  cbn [exact_record shr_m loc_of_shr_record round_nearest_even Zdigits2
       shr_record_of_loc].
  rewrite fexp_eq, Dq.
  replace (Z.max (53 + (0 + Zpos k) - 53) (-1074) - (0 + Zpos k)) with 0 by lia.
  cbn [shr shr_m].
  destruct (_ <=? _) eqn:L; [reflexivity|]. apply Z.leb_gt in L.
  change (PyFloat.emax - PyFloat.prec) with 971 in L. lia.
Qed.

Lemma canonical_digits m e :
  canonical_mantissa PyFloat.prec PyFloat.emax m e = true ->
  Zpos (digits2_pos m) <= 53.
Proof.
  unfold canonical_mantissa. rewrite fexp_eq. intros C.
  apply Z.eqb_eq in C. lia.
Qed.

Lemma of_int_integer_part s m e :
  bounded PyFloat.prec PyFloat.emax m e = true ->
  exists fi, PyFloat.of_int (cond_Zopp s (Z.shiftl (Zpos m) e)) = Ok fi.
Proof.
  unfold bounded. intros B. apply andb_true_iff in B. destruct B as [C B].
  apply Z.leb_le in B. change (PyFloat.emax - PyFloat.prec) with 971 in B.
  pose proof (@canonical_digits _ _ C) as Dm.
  unfold canonical_mantissa in C. rewrite fexp_eq in C. apply Z.eqb_eq in C.
  assert (F : forall sg p, Zpos p = Z.shiftl (Zpos m) e ->
              PyFloat.is_finite
                (binary_round PyFloat.prec PyFloat.emax sg p 0) = true).
  { intros sg p P. destruct (Z_lt_le_dec e 0) as [Neg|Pos].
    - apply binary_round_small.
      rewrite Z.shiftl_div_pow2 in P by lia.
      assert (Zpos p <= Zpos m).
      { rewrite P. apply Z.div_le_upper_bound.
        - apply Z.pow_pos_nonneg; lia.
        - assert (0 < 2 ^ (- e)) by (apply Z.pow_pos_nonneg; lia). nia. }
      pose proof (@digits2_mono _ _ H). lia.
    - rewrite Z.shiftl_mul_pow2 in P by lia.
      pose proof (@digits2_shift m e p Pos P) as Dp.
      destruct (Z_le_gt_dec (Zpos (digits2_pos p)) 53) as [Small|Big].
      + now apply binary_round_small.
      + set (n := Zpos (digits2_pos p) - 53).
        assert (Q : 0 < Zpos m * 2 ^ (e - n)).
        { apply Z.mul_pos_pos; [lia|]. apply Z.pow_pos_nonneg; lia. }
        destruct (Zpos m * 2 ^ (e - n)) as [|q|q] eqn:Eq; try lia.
        apply (@binary_round_big sg p q n).
        * lia.
        * rewrite P, <- Eq, <- Z.mul_assoc, <- Z.pow_add_r by lia.
          f_equal. f_equal. lia.
        * rewrite (@digits2_shift m (e - n) q); lia. }
  unfold PyFloat.of_int, binary_normalize.
  destruct (Z.shiftl (Zpos m) e) as [|p|p] eqn:P.
  - destruct s; simpl; eauto.
  - destruct s; simpl; rewrite F by reflexivity; eauto.
  - pose proof (Z.shiftl_nonneg (Zpos m) e). lia.
Qed.

Lemma formatted_num_total x :
  valid_float x = true -> exists num, formatted_num x = Ok num.
Proof.
  unfold valid_float. intros V. apply andb_true_iff in V. destruct V as [F V].
  assert (I : exists i fi, PyFloat.to_int x = Ok i /\ PyFloat.of_int i = Ok fi).
  { destruct x as [s|s| |s m e]; try discriminate.
    - exists 0, (S754_zero false). now split.
    - destruct (of_int_integer_part s m e V) as [fi Hfi].
      eexists _, fi. split; [reflexivity | exact Hfi]. }
  destruct I as (i & fi & Hi & Hfi).
  unfold formatted_num. rewrite Hi. cbn [bind]. rewrite Hfi. cbn [bind].
  destruct (PyFloat.eqb _ _); [eauto|].
  repeat (destruct (PyFloat.ltb _ _); [eauto|]). eauto.
Qed.

(** ** Ranges *)

Lemma In_Zrange a len n :
  a <= n < a + Z.of_nat len -> In n (Zrange a len).
Proof.
  intros H. unfold Zrange. apply in_map_iff.
  exists (Z.to_nat (n - a)). split; [lia|].
  apply in_seq. lia.
Qed.

(** * The claims *)

(** C1 (defect of the code): the claim is that [parse_quantity] never
    raises and that a zero denominator gives magnitude [None].  The code
    divides without a guard: ["1/0"] and the mixed ["1 1/0 cups"] raise
    [ZeroDivisionError], and a fraction without numerator after
    whitespace, ["1 /2 cup"], raises [ValueError] in [int('')]. *)
Theorem parse_quantity_raises :
  parse_quantity "1/0"%string = Raise ZeroDivisionError
  /\ parse_quantity "1 1/0 cups"%string = Raise ZeroDivisionError
  /\ parse_quantity "1 /2 cup"%string = Raise ValueError.
Proof. repeat split; vm_compute; reflexivity. Qed.

(** C2 (defect of the code): the claim is that a fractional part within
    0.01 of 0 is shown as the integer part alone.  The code compares the
    fractional part with 0.0 exactly, while its three sibling branches use
    the 0.01 band.  ["2.1 cups"] scaled from 3 to 10 servings is
    7.000000000000001: its integer part is 7, its fractional part is
    within 0.01 of 0, and it is shown as ["7.00 cups"]; 1.0078125 is shown
    as ["1.01 cup"].  A fractional part of exactly 0 is shown as the
    integer part, 0.0 as ["0 cup"]. *)
Theorem format_near_whole_keeps_decimals :
  exists f q x,
    scaling_factor 10 3 = Ok f
    /\ parse_quantity "2.1 cups"%string = Ok (Some q, str_of_string "cups")
    /\ x = PyFloat.mul q f
    /\ PyFloat.to_int x = Ok 7
    /\ PyFloat.ltb (PyFloat.abs (PyFloat.sub x (PyFloat.of_decimal 7 0)))
         PyFloat.hundredth = true
    /\ format_scaled_quantity (Some x) "cups"%string
       = Ok (str_of_string "7.00 cups")
    /\ display_quantity "2.1 cups"%string f = Ok (str_of_string "7.00 cups")
    /\ format_scaled_quantity (Some (PyFloat.of_decimal 10078125 7))
         "cup"%string
       = Ok (str_of_string "1.01 cup")
    /\ format_scaled_quantity (Some PyFloat.zero) "cup"%string
       = Ok (str_of_string "0 cup").
Proof.
  eexists _, _, _.
  split; [vm_compute; reflexivity|].
  split; [vm_compute; reflexivity|].
  split; [reflexivity|].
  repeat split; vm_compute; reflexivity.
Qed.

(** C3, the claim as stated, fails: [".5 cup"] has none of the four
    shapes of the specification (its decimal has no digits before the
    point), yet the pattern accepts [".5"] and the magnitude is 0.5. *)
Lemma numeric_prefix_beyond_spec :
  Spec.numeric_prefix ".5 cup"%string = None
  /\ numeric_prefix ".5 cup"%string = Some (str_of_string ".5")
  /\ parse_quantity ".5 cup"%string
     = Ok (Some PyFloat.half, str_of_string "cup").
Proof. repeat split; vm_compute; reflexivity. Qed.

(** C3, amended: at the start of the normalized string the pattern
    accepts, in this order, digits followed by optional whitespace,
    optional digits, a slash and digits (mixed numbers and simple
    fractions alike); optional digits, a point and digits; digits.  Each
    is read greedily, the backtracking of [re.match] never changes the
    outcome, and the third alternative of the pattern, the simple
    fraction, is never the one that matches. *)
Theorem quantity_pattern_shapes (s : str) :
  numeric_prefix s = Scan.numeric_prefix s
  /\ Re.run mixed_re s last_k = Scan.fraction s
  /\ Re.run decimal_re s last_k = Scan.decimal s
  /\ Re.run digits s last_k = Spec.integer s
  /\ (Re.run mixed_re s last_k = None -> Re.run fraction_re s last_k = None).
Proof.
  repeat split.
  - apply numeric_prefix_scans.
  - apply run_mixed_re.
  - apply run_decimal_re.
  - apply run_digits.
  - rewrite run_mixed_re, run_fraction_re. apply fraction_subsumed.
Qed.

(** C5, the claim as stated, fails: with 4 new and -2 original servings
    the factor is -2.0, with 0 new servings it is 0.0, and 0 original
    servings raise [ZeroDivisionError], which is not of the
    InvalidArgument kind. *)
Lemma servings_not_validated :
  scaling_factor 4 (-2) = Ok (SFopp (PyFloat.of_decimal 2 0))
  /\ scaling_factor 0 4 = Ok PyFloat.zero
  /\ scaling_factor 4 0 = Raise ZeroDivisionError
  /\ is_invalid_argument ZeroDivisionError = false.
Proof. repeat split; vm_compute; reflexivity. Qed.

(** C5, amended: the servings are not validated.  The factor is the
    quotient [new_servings / original_servings]: 0 original servings
    raise [ZeroDivisionError], no servings raise an error of the
    InvalidArgument kind, a factor that is returned has the sign of the
    quotient (negative exactly when the servings have opposite signs), and
    servings between 1 and 12 give a finite factor above zero. *)
Theorem scaling_factor_unvalidated :
  (forall n, scaling_factor n 0 = Raise ZeroDivisionError)
  /\ (forall n o e, scaling_factor n o = Raise e ->
                    is_invalid_argument e = false)
  /\ (forall n o f, scaling_factor n o = Ok f ->
                    has_sign (xorb (n <? 0) (o <? 0)) f)
  /\ (forall n o, 1 <= n <= 12 -> 1 <= o <= 12 ->
                  exists f, scaling_factor n o = Ok f
                            /\ PyFloat.is_finite f = true
                            /\ PyFloat.ltb PyFloat.zero f = true).
Proof.
  split; [|split; [|split]].
  - reflexivity.
  - intros n o e. unfold scaling_factor, PyFloat.truediv.
    destruct (o =? 0); [intros H; injection H as <-; reflexivity|].
    destruct (PyFloat.is_finite _); [discriminate|].
    intros H; injection H as <-; reflexivity.
  - intros n o f. apply truediv_sign.
  - intros n o Hn Ho.
    assert (G : forallb (fun n => forallb (fun o =>
                  match scaling_factor n o with
                  | Ok f => PyFloat.is_finite f && PyFloat.ltb PyFloat.zero f
                  | Raise _ => false
                  end) (Zrange 1 12)) (Zrange 1 12) = true)
      by (vm_compute; reflexivity).
    rewrite forallb_forall in G.
    specialize (G n (@In_Zrange 1 12 n ltac:(simpl; lia))).
    rewrite forallb_forall in G.
    specialize (G o (@In_Zrange 1 12 o ltac:(simpl; lia))).
    destruct (scaling_factor n o) as [f|]; [|discriminate].
    apply andb_true_iff in G. exists f. tauto.
Qed.

Lemma scaling_factor_unvalidated_witness :
  exists f, scaling_factor 8 4 = Ok f
            /\ PyFloat.is_finite f = true
            /\ PyFloat.ltb PyFloat.zero f = true.
Proof.
  apply (proj2 (proj2 (proj2 scaling_factor_unvalidated))); lia.
Defined.

(** C6 (defect of the code, the one of C1): the claim is that with a
    factor of 1.0 every ingredient shows its original text.  The loop
    parses before it tests the factor, so the quantity ["1/0"] raises
    [ZeroDivisionError] at factor 1.0 and the list after it is not shown.
    Whenever [parse_quantity] returns, the original text is shown
    unchanged, casing included, if the magnitude is [None] or the factor is
    1.0. *)
Theorem display_quantity_raises_at_factor_one :
  display_quantity "1/0"%string PyFloat.one = Raise ZeroDivisionError
  /\ display_ingredients
       [(str_of_string "flour", str_of_string "2 Cups");
        (str_of_string "salt", str_of_string "1/0");
        (str_of_string "water", str_of_string "a splash")] PyFloat.one
     = Raise ZeroDivisionError
  /\ display_quantity "2 Cups"%string PyFloat.one = Ok (str_of_string "2 Cups")
  /\ (forall s f m u,
        parse_quantity s = Ok (m, u) ->
        m = None \/ PyFloat.eqb f PyFloat.one = true ->
        display_quantity s f = Ok s).
Proof.
  split; [vm_compute; reflexivity|].
  split; [vm_compute; reflexivity|].
  split; [vm_compute; reflexivity|].
  intros s f m u. apply display_quantity_bypass.
Qed.

(** C7: [parse_quantity] on the three vectors: ["1 1/2 cups"] is 1.5 and
    ["cups"]; ["500g"] is 500.0 and ["g"]; ["2/3 cup"] is the float nearest
    to 2/3, within 0.00005 of 0.6667, and ["cup"]. *)
Theorem parse_quantity_vectors :
  parse_quantity "1 1/2 cups"%string
  = Ok (Some (PyFloat.of_decimal 15 1), str_of_string "cups")
  /\ parse_quantity "500g"%string
     = Ok (Some (PyFloat.of_decimal 5000 1), str_of_string "g")
  /\ parse_quantity "2/3 cup"%string
     = Ok (Some (PyFloat.quotient 2 3), str_of_string "cup")
  /\ PyFloat.ltb
       (PyFloat.abs (PyFloat.sub (PyFloat.quotient 2 3)
                       (PyFloat.of_decimal 6667 4)))
       (PyFloat.of_decimal 5 5) = true.
Proof. repeat split; vm_compute; reflexivity. Qed.

(** C8: a string whose normalized form has no numeric prefix (it starts
    neither with a digit nor with a point and a digit, which is when the
    pattern does not match) parses to magnitude [None] and, as unit, the
    whole normalized string. *)
Theorem parse_quantity_no_prefix (s : str) :
  Scan.starts_numeric (normalize s) = false ->
  numeric_prefix (normalize s) = None
  /\ parse_quantity s = Ok (None, normalize s).
Proof.
  intros H. apply no_prefix_of_start in H.
  split; [exact H | now apply parse_quantity_unmatched].
Qed.

Lemma parse_quantity_no_prefix_witness :
  numeric_prefix (normalize "a pinch"%string) = None
  /\ parse_quantity "a pinch"%string = Ok (None, str_of_string "a pinch").
Proof.
  apply (@parse_quantity_no_prefix (str_of_string "a pinch")).
  vm_compute; reflexivity.
Defined.

(** C10: a magnitude that [parse_quantity] returns is never negative:
    [m >= 0.0] holds, [m] is no NaN and its sign bit is clear. *)
Theorem parse_quantity_magnitude_nonneg (s : str) (m : float) (u : str) :
  parse_quantity s = Ok (Some m, u) ->
  PyFloat.leb PyFloat.zero m = true /\ has_sign false m.
Proof.
  intros H. apply parse_quantity_sign in H.
  split; [now apply nonneg_of_sign | exact H].
Qed.

Lemma parse_quantity_magnitude_nonneg_witness :
  PyFloat.leb PyFloat.zero (PyFloat.of_decimal 15 1) = true
  /\ has_sign false (PyFloat.of_decimal 15 1).
Proof.
  apply (@parse_quantity_magnitude_nonneg
           (str_of_string "1 1/2 cups") _ (str_of_string "cups")).
  vm_compute; reflexivity.
Defined.

(** C9: [format_scaled_quantity] on the four vectors, and its final
    output for every finite float and every unit: the text of the number,
    which is never empty and has no whitespace at its ends, a single space
    and the unit, stripped.  The output has no whitespace at either end;
    it is the number alone when the unit is empty or blank, and the
    number, one space and the unit when the unit is trimmed.  Without a
    magnitude the unit is returned as it is. *)
Theorem format_scaled_quantity_joins :
  (format_scaled_quantity (Some (PyFloat.of_decimal 10 1)) "cup"%string
   = Ok (str_of_string "1 cup")
   /\ format_scaled_quantity (Some (PyFloat.of_decimal 5 1)) "cup"%string
      = Ok (str_of_string "1/2 cup")
   /\ format_scaled_quantity (Some (PyFloat.of_decimal 15 1)) "cup"%string
      = Ok (str_of_string "1 1/2 cup")
   /\ format_scaled_quantity (Some (PyFloat.of_decimal 33 2)) "cup"%string
      = Ok (str_of_string "0.33 cup"))
  /\ (forall u : str, format_scaled_quantity None u = Ok u)
  /\ forall (x : float) (u : str),
       valid_float x = true ->
       exists num out,
         formatted_num x = Ok num
         /\ trimmed num
         /\ format_scaled_quantity (Some x) u = Ok out
         /\ out = strip (num ++ " "%char :: u)
         /\ starts_with_space out = false
         /\ ends_with_space out = false
         /\ (forallb isspace u = true -> out = num)
         /\ (trimmed u -> out = num ++ " "%char :: u).
Proof.
  split; [repeat split; vm_compute; reflexivity|].
  split; [reflexivity|].
  intros x u V.
  destruct (formatted_num_total x V) as [num Hnum].
  pose proof (formatted_num_trimmed _ Hnum) as T.
  exists num, (strip (num ++ " "%char :: u)).
  split; [exact Hnum|]. split; [exact T|].
  split; [unfold format_scaled_quantity; now rewrite Hnum|].
  split; [reflexivity|].
  split; [apply strip_no_lead|].
  split; [apply strip_no_trail|].
  split; [now apply strip_number_alone | now apply strip_number_unit].
Qed.

Lemma format_scaled_quantity_joins_witness :
  exists num out,
    formatted_num (PyFloat.of_decimal 25 1) = Ok num
    /\ trimmed num
    /\ format_scaled_quantity (Some (PyFloat.of_decimal 25 1)) [] = Ok out
    /\ out = strip (num ++ " "%char :: [])
    /\ starts_with_space out = false
    /\ ends_with_space out = false
    /\ (forallb isspace [] = true -> out = num)
    /\ (trimmed [] -> out = num ++ " "%char :: []).
Proof.
  apply (proj2 (proj2 format_scaled_quantity_joins)
           (PyFloat.of_decimal 25 1) []).
  vm_compute; reflexivity.
Defined.




(** * Further properties of the quantity engine *)

(** ** Normal forms *)

Lemma lower_char_space c : isspace (lower_char c) = isspace c.
Proof. destruct c as [[] [] [] [] [] [] [] []]; vm_compute; reflexivity. Qed.

Lemma lower_char_decimal c : isdecimal (lower_char c) = isdecimal c.
Proof. destruct c as [[] [] [] [] [] [] [] []]; vm_compute; reflexivity. Qed.

Lemma lower_char_idem c : lower_char (lower_char c) = lower_char c.
Proof. destruct c as [[] [] [] [] [] [] [] []]; vm_compute; reflexivity. Qed.

Lemma lower_idem s : lower (lower s) = lower s.
Proof.
  unfold lower. rewrite map_map. apply map_ext. apply lower_char_idem.
Qed.

Lemma drop_while_lower s :
  drop_while isspace (lower s) = lower (drop_while isspace s).
Proof.
  induction s as [|c t IH]; [reflexivity|].
  cbn [lower map drop_while]. rewrite lower_char_space.
  destruct (isspace c); [exact IH | reflexivity].
Qed.

Lemma strip_lower s : strip (lower s) = lower (strip s).
Proof.
  unfold strip, rstrip, lstrip.
  rewrite drop_while_lower.
  unfold lower at 1. rewrite <- map_rev. fold (lower (rev (drop_while isspace s))).
  rewrite drop_while_lower. unfold lower. now rewrite map_rev.
Qed.

Lemma strip_idem s : strip (strip s) = strip s.
Proof. apply strip_id; [apply strip_no_lead | apply strip_no_trail]. Qed.

Lemma normalize_idem s : normalize (normalize s) = normalize s.
Proof.
  unfold normalize. now rewrite strip_lower, strip_idem, lower_idem.
Qed.

Lemma skipn_lower n s : skipn n (lower s) = lower (skipn n s).
Proof. unfold lower. apply skipn_map. Qed.

Lemma normalize_strip_lower s : normalize (strip (lower s)) = strip (lower s).
Proof.
  unfold normalize. rewrite strip_idem, strip_lower. now rewrite lower_idem.
Qed.

(** The unit of a parsed quantity is in normal form. *)
Lemma parse_quantity_unit_normal s m u :
  parse_quantity s = Ok (m, u) -> normalize u = u.
Proof.
  unfold parse_quantity.
  assert (N : forall n, normalize (strip (slice_from n (normalize s)))
                        = strip (slice_from n (normalize s))).
  { intros n. unfold slice_from.
    change (normalize s) with (lower (strip s)).
    rewrite skipn_lower. apply normalize_strip_lower. }
  destruct (Re.re_match quantity_re (normalize s)) as [pre|].
  - destruct (contains " " (strip pre) && contains "/" (strip pre)).
    + intros H. bind_inv H. bind_inv H. bind_inv H. bind_inv H.
      destruct a2 as [n d]. bind_inv H. injection H as _ <-. apply N.
    + destruct (contains "/" (strip pre)).
      * intros H. bind_inv H. destruct a as [n d]. bind_inv H.
        injection H as _ <-. apply N.
      * destruct (float_of_str (strip pre)) as [q|[]]; try discriminate.
        -- intros H; injection H as _ <-. apply N.
        -- intros H; injection H as _ <-. apply normalize_idem.
  - intros H; injection H as _ <-. apply normalize_idem.
Qed.

(** ** The number found is the start of the text *)

Lemma take_drop_while p (s : str) : take_while p s ++ drop_while p s = s.
Proof.
  induction s as [|c t IH]; simpl; [reflexivity|].
  destruct (p c); simpl; [now rewrite IH | reflexivity].
Qed.

Lemma take_while_first p (s : str) c t : take_while p s = c :: t -> p c = true.
Proof.
  destruct s as [|x r]; simpl; [discriminate|].
  destruct (p x) eqn:E; [|discriminate].
  intros H; injection H as -> _; exact E.
Qed.

Lemma decimal_no_space_all (l : str) : all_decimal l = true -> no_space l = true.
Proof.
  unfold all_decimal, no_space. induction l as [|c t IH]; simpl; [reflexivity|].
  intros H. apply andb_true_iff in H. destruct H as [Hc Ht].
  rewrite (decimal_not_space _ Hc). simpl. now apply IH.
Qed.

Lemma digits_end (l : str) :
  l <> [] -> all_decimal l = true -> ends_with_space l = false.
Proof.
  intros Hne H. now apply (no_space_trimmed Hne (decimal_no_space_all _ H)).
Qed.

(** What [Scan.fraction] returns: the parts and what follows them. *)
Lemma scan_fraction_parts s pre :
  Scan.fraction s = Some pre ->
  exists whole mid den rest,
    pre = whole ++ mid ++ "/"%char :: den /\ s = pre ++ rest
    /\ whole <> [] /\ all_decimal whole = true
    /\ den <> [] /\ all_decimal den = true.
Proof.
  unfold Scan.fraction.
  pose proof (take_drop_while isdecimal s) as E1.
  pose proof (take_drop_while isspace (drop_while isdecimal s)) as E2.
  pose proof (take_drop_while isdecimal
                (drop_while isspace (drop_while isdecimal s))) as E3.
  destruct (drop_while isdecimal (drop_while isspace (drop_while isdecimal s)))
    as [|c r3] eqn:D3; [discriminate|].
  pose proof (take_drop_while isdecimal r3) as E4.
  destruct (Ascii.eqb c "/") eqn:Ec; [|discriminate].
  apply Ascii.eqb_eq in Ec. subst c.
  destruct (take_while isdecimal s) as [|w ws] eqn:W; [discriminate|].
  destruct (take_while isdecimal r3) as [|d ds] eqn:Dn;
    [rewrite andb_false_r; discriminate|].
  simpl. intros H; injection H as <-.
  exists (w :: ws),
         (take_while isspace (drop_while isdecimal s)
          ++ take_while isdecimal (drop_while isspace (drop_while isdecimal s))),
         (d :: ds), (drop_while isdecimal r3).
  split; [now rewrite <- app_assoc|].
  split.
  { assert (S : s = (w :: ws)
                    ++ take_while isspace (drop_while isdecimal s)
                    ++ take_while isdecimal
                         (drop_while isspace (drop_while isdecimal s))
                    ++ "/"%char :: (d :: ds) ++ drop_while isdecimal r3)
      by (now rewrite E4, E3, E2, E1).
    rewrite S at 1. simpl. rewrite <- ?app_assoc. simpl.
    rewrite <- ?app_assoc. reflexivity. }
  split; [discriminate|].
  split; [rewrite <- W; apply take_while_all|].
  split; [discriminate|].
  rewrite <- Dn. apply take_while_all.
Qed.

Lemma scan_decimal_parts s pre :
  Scan.decimal s = Some pre ->
  exists a b rest,
    pre = a ++ "."%char :: b /\ s = pre ++ rest
    /\ all_decimal a = true /\ b <> [] /\ all_decimal b = true.
Proof.
  unfold Scan.decimal.
  pose proof (take_drop_while isdecimal s) as E1.
  destruct (drop_while isdecimal s) as [|c r] eqn:D; [discriminate|].
  pose proof (take_drop_while isdecimal r) as E2.
  destruct (Ascii.eqb c ".") eqn:Ec; [|discriminate].
  apply Ascii.eqb_eq in Ec. subst c.
  destruct (take_while isdecimal r) as [|d ds] eqn:B; [discriminate|].
  simpl. intros H; injection H as <-.
  exists (take_while isdecimal s), (d :: ds), (drop_while isdecimal r).
  split; [reflexivity|].
  split.
  { assert (S : s = take_while isdecimal s
                    ++ "."%char :: (d :: ds) ++ drop_while isdecimal r)
      by (now rewrite E2, E1).
    rewrite S at 1. rewrite <- app_assoc. reflexivity. }
  split; [apply take_while_all|].
  split; [discriminate|].
  rewrite <- B. apply take_while_all.
Qed.

Lemma scan_integer_parts s pre :
  Spec.integer s = Some pre ->
  exists rest, s = pre ++ rest /\ pre <> [] /\ all_decimal pre = true.
Proof.
  unfold Spec.integer.
  pose proof (take_drop_while isdecimal s) as E1.
  destruct (take_while isdecimal s) as [|d ds] eqn:B; [discriminate|].
  intros H; injection H as <-.
  exists (drop_while isdecimal s). split; [now symmetry|].
  split; [discriminate|]. rewrite <- B. apply take_while_all.
Qed.

(** The three shapes of a numeric prefix. *)
Lemma numeric_prefix_parts s pre :
  numeric_prefix s = Some pre ->
  prefix_shape pre /\ exists rest, s = pre ++ rest.
Proof.
  rewrite numeric_prefix_scans. unfold Scan.numeric_prefix, Spec.or_else.
  destruct (Scan.fraction s) as [x|] eqn:F.
  - intros H; injection H as <-.
    destruct (scan_fraction_parts _ F) as (w & mid & d & rest & E & S & ? & ? & ? & ?).
    split; [eapply Fraction_shape; eassumption | eauto].
  - destruct (Scan.decimal s) as [x|] eqn:D.
    + intros H; injection H as <-.
      destruct (scan_decimal_parts _ D) as (a & b & rest & E & S & ? & ? & ?).
      split; [eapply Decimal_shape; eassumption | eauto].
    + intros H.
      destruct (scan_integer_parts _ H) as (rest & S & ? & ?).
      split; [now apply Integer_shape | eauto].
Qed.

Lemma point_not_space : isspace "." = false.
Proof. reflexivity. Qed.

Lemma starts_digits (l : str) t :
  l <> [] -> all_decimal l = true -> starts_with_space (l ++ t) = false.
Proof.
  intros Hne H. rewrite starts_app by exact Hne.
  now apply (no_space_trimmed Hne (decimal_no_space_all _ H)).
Qed.

Lemma ends_digits (l : str) t :
  l <> [] -> all_decimal l = true -> ends_with_space (t ++ l) = false.
Proof.
  intros Hne H. rewrite ends_app by exact Hne. now apply digits_end.
Qed.

Lemma prefix_shape_trimmed pre : prefix_shape pre -> trimmed pre.
Proof.
  intros [whole mid den -> Wne W Dne D | a b -> A Bne B | Pne P].
  - split; [destruct whole; [congruence | discriminate]|].
    split; [now apply starts_digits|].
    change (whole ++ mid ++ "/"%char :: den)
      with (whole ++ mid ++ ["/"%char] ++ den).
    rewrite !app_assoc. now apply ends_digits.
  - split; [destruct a; discriminate|].
    split.
    + destruct a as [|x r]; [reflexivity|]. now apply starts_digits.
    + change (a ++ "."%char :: b) with (a ++ ["."%char] ++ b).
      rewrite app_assoc. now apply ends_digits.
  - now apply no_space_trimmed; [|apply decimal_no_space_all].
Qed.

Lemma prefix_strip pre : prefix_shape pre -> strip pre = pre.
Proof. intros H. destruct (prefix_shape_trimmed H) as (_ & S & E). now apply strip_id. Qed.

Lemma skipn_prefix (pre rest : str) : skipn (length pre) (pre ++ rest) = rest.
Proof. induction pre; simpl; auto. Qed.

Lemma lower_starts s : starts_with_space (lower s) = starts_with_space s.
Proof. destruct s; [reflexivity|]. simpl. apply lower_char_space. Qed.

Lemma lower_ends s : ends_with_space (lower s) = ends_with_space s.
Proof.
  unfold ends_with_space, lower. rewrite <- map_rev. apply (lower_starts (rev s)).
Qed.

Lemma normalize_no_trail s : ends_with_space (normalize s) = false.
Proof. unfold normalize. rewrite lower_ends. apply strip_no_trail. Qed.

(** Of a text without whitespace at its end, stripping drops the leading
    whitespace only. *)
Lemma strip_leading rest :
  ends_with_space rest = false ->
  rest = take_while isspace rest ++ strip rest
  /\ forallb isspace (take_while isspace rest) = true.
Proof.
  intros E. split; [|apply take_while_all].
  unfold strip, lstrip.
  pose proof (take_drop_while isspace rest) as TD.
  destruct (drop_while isspace rest) as [|c t] eqn:D.
  - now rewrite app_nil_r in *.
  - rewrite rstrip_id; [now symmetry|].
    rewrite <- TD in E. rewrite ends_app in E by discriminate. exact E.
Qed.

(** The number text, whitespace and the unit make up the normalized
    input. *)
Lemma parse_quantity_parts s m u :
  parse_quantity s = Ok (Some m, u) ->
  exists pre gap,
    numeric_prefix (normalize s) = Some pre
    /\ normalize s = pre ++ gap ++ u
    /\ forallb isspace gap = true.
Proof.
  unfold parse_quantity. fold (numeric_prefix (normalize s)).
  destruct (numeric_prefix (normalize s)) as [pre|] eqn:P; [|discriminate].
  destruct (numeric_prefix_parts _ P) as (Sh & rest & R).
  rewrite (prefix_strip Sh).
  assert (U : strip (slice_from (length pre) (normalize s)) = strip rest).
  { unfold slice_from. rewrite R. now rewrite skipn_prefix. }
  rewrite U.
  assert (G : forall x, Ok (Some x, strip rest) = Ok (Some m, u) ->
              exists pre0 gap, Some pre = Some pre0
                /\ normalize s = pre0 ++ gap ++ u
                /\ forallb isspace gap = true).
  { intros x H. injection H as _ <-.
    assert (E : ends_with_space rest = false).
    { destruct rest as [|c t]; [reflexivity|].
      pose proof (normalize_no_trail s) as N. rewrite R in N.
      now rewrite ends_app in N by discriminate. }
    destruct (strip_leading _ E) as [D A].
    exists pre, (take_while isspace rest).
    split; [reflexivity|]. split; [|exact A].
    rewrite R at 1. now rewrite <- D. }
  destruct (contains " " pre && contains "/" pre).
  - intros H. bind_inv H. bind_inv H. bind_inv H. bind_inv H.
    destruct a2 as [n d]. bind_inv H. eapply G; eassumption.
  - destruct (contains "/" pre).
    + intros H. bind_inv H. destruct a as [n d]. bind_inv H.
      eapply G; eassumption.
    + destruct (float_of_str pre) as [q|[]]; try discriminate.
      apply G.
Qed.

(** X1: when a magnitude is returned, the normalized text is the numeric
    prefix, then whitespace only, then the returned unit; and the unit is in
    normal form, lower case with no whitespace at its ends. *)
Theorem parse_quantity_splits_the_text (s : str) (m : float) (u : str) :
  parse_quantity s = Ok (Some m, u) ->
  normalize u = u
  /\ exists pre gap,
       numeric_prefix (normalize s) = Some pre
       /\ normalize s = pre ++ gap ++ u
       /\ forallb isspace gap = true.
Proof.
  intros H. split; [now apply parse_quantity_unit_normal in H|].
  now apply parse_quantity_parts in H.
Qed.

Lemma parse_quantity_splits_the_text_witness :
  normalize "cups"%string = str_of_string "cups"
  /\ exists pre gap,
       numeric_prefix (normalize " 1 1/2  Cups "%string) = Some pre
       /\ normalize " 1 1/2  Cups "%string = pre ++ gap ++ str_of_string "cups"
       /\ forallb isspace gap = true.
Proof.
  apply (@parse_quantity_splits_the_text
           (str_of_string " 1 1/2  Cups ") (PyFloat.of_decimal 15 1)).
  vm_compute; reflexivity.
Defined.

(** ** Numbers without a slash always parse *)

Lemma isspace_number_space c : isspace_number c = true -> isspace c = true.
Proof. destruct c as [[] [] [] [] [] [] [] []]; vm_compute; congruence. Qed.

Lemma drop_number_space_keeps (s : str) :
  starts_with_space s = false -> drop_while isspace_number s = s.
Proof.
  destruct s as [|c t]; [reflexivity|]. simpl. intros H.
  destruct (isspace_number c) eqn:E; [|reflexivity].
  apply isspace_number_space in E. congruence.
Qed.

Lemma strip_number_id s : trimmed s -> strip_number s = s.
Proof.
  intros (_ & S & E). unfold strip_number.
  rewrite (drop_number_space_keeps _ S).
  rewrite (drop_number_space_keeps (rev s) E). apply rev_involutive.
Qed.

Lemma take_while_run p (a : str) c r :
  forallb p a = true -> p c = false -> take_while p (a ++ c :: r) = a.
Proof.
  intros A C. induction a as [|x t IH]; simpl.
  - now rewrite C.
  - simpl in A. apply andb_true_iff in A. destruct A as [X T].
    rewrite X. now rewrite IH.
Qed.

Lemma drop_while_run p (a : str) c r :
  forallb p a = true -> p c = false -> drop_while p (a ++ c :: r) = c :: r.
Proof.
  intros A C. rewrite drop_while_all by exact A. now apply drop_while_keeps.
Qed.

Lemma take_while_whole p (a : str) : forallb p a = true -> take_while p a = a.
Proof.
  induction a as [|x t IH]; simpl; [reflexivity|].
  intros A. apply andb_true_iff in A. destruct A as [X T].
  rewrite X. now rewrite IH.
Qed.

Lemma drop_while_whole p (a : str) : forallb p a = true -> drop_while p a = [].
Proof.
  intros A. rewrite <- (app_nil_r a). now rewrite drop_while_all.
Qed.

Lemma contains_app c (a b : str) :
  contains c (a ++ b) = contains c a || contains c b.
Proof. apply existsb_app. Qed.

Lemma digits_contain_no c (l : str) :
  isdecimal c = false -> all_decimal l = true -> contains c l = false.
Proof.
  intros C. unfold all_decimal, contains.
  induction l as [|x t IH]; simpl; [reflexivity|].
  intros H. apply andb_true_iff in H. destruct H as [X T].
  rewrite (IH T), orb_false_r.
  destruct (Ascii.eqb c x) eqn:E; [|reflexivity].
  apply Ascii.eqb_eq in E. congruence.
Qed.

Lemma float_of_str_decimal a b :
  all_decimal a = true -> b <> [] -> all_decimal b = true ->
  float_of_str (a ++ "."%char :: b)
  = Ok (PyFloat.of_decimal (digits_val (a ++ b)) (length b)).
Proof.
  intros A Bne B. unfold float_of_str.
  rewrite strip_number_id
    by (apply prefix_shape_trimmed; now eapply Decimal_shape).
  rewrite take_while_run, drop_while_run by (trivial; reflexivity).
  rewrite B. change (Ascii.eqb "." ".") with true. cbn [andb].
  destruct b as [|x t]; [congruence|].
  replace (length a + length (x :: t) =? 0)%nat with false
    by (symmetry; apply Nat.eqb_neq; simpl; lia).
  reflexivity.
Qed.

Lemma float_of_str_integer a :
  a <> [] -> all_decimal a = true ->
  float_of_str a = Ok (PyFloat.of_decimal (digits_val a) 0).
Proof.
  intros Ane A. unfold float_of_str.
  rewrite strip_number_id by (apply prefix_shape_trimmed; now apply Integer_shape).
  rewrite take_while_whole, drop_while_whole by exact A.
  destruct a; [congruence | reflexivity].
Qed.

(** A prefix without a slash is a decimal or an integer, and [float]
    reads it. *)
Lemma float_of_plain_prefix pre :
  prefix_shape pre -> contains "/" pre = false ->
  contains " " pre = false /\ exists q, float_of_str pre = Ok q.
Proof.
  intros [whole mid den -> Wne W Dne D | a b -> A Bne B | Pne P] N.
  - rewrite !contains_app in N. simpl in N.
    rewrite orb_true_r in N. rewrite (orb_true_r (contains "/" whole)) in N.
    discriminate.
  - split.
    + rewrite contains_app. simpl.
      now rewrite !digits_contain_no by (trivial; reflexivity).
    + rewrite float_of_str_decimal by assumption. eauto.
  - split.
    + now rewrite digits_contain_no by (trivial; reflexivity).
    + rewrite float_of_str_integer by assumption. eauto.
Qed.

Lemma parse_quantity_plain s pre :
  numeric_prefix (normalize s) = Some pre ->
  contains "/" pre = false ->
  exists q,
    float_of_str pre = Ok q
    /\ parse_quantity s
       = Ok (Some q, strip (slice_from (length pre) (normalize s))).
Proof.
  intros P N.
  destruct (numeric_prefix_parts _ P) as [Sh _].
  destruct (float_of_plain_prefix Sh N) as [Sp [q Q]].
  exists q. split; [exact Q|].
  unfold parse_quantity. fold (numeric_prefix (normalize s)).
  rewrite P, (prefix_strip Sh), Sp, N, Q. reflexivity.
Qed.

(** X2: a prefix without a slash, a decimal or an integer, always parses:
    the magnitude is [float] of the prefix, which does not fail on it, and
    the unit is what follows the prefix, stripped. *)
Theorem plain_number_always_parses (s pre : str) :
  numeric_prefix (normalize s) = Some pre ->
  contains "/" pre = false ->
  exists q,
    float_of_str pre = Ok q
    /\ parse_quantity s
       = Ok (Some q, strip (slice_from (length pre) (normalize s))).
Proof. apply parse_quantity_plain. Qed.

Lemma plain_number_always_parses_witness :
  exists q,
    float_of_str "2.5"%string = Ok q
    /\ parse_quantity " 2.5 Cups"%string
       = Ok (Some q,
             strip (slice_from (length (str_of_string "2.5"))
                      (normalize " 2.5 Cups"%string))).
Proof.
  apply (@plain_number_always_parses
           (str_of_string " 2.5 Cups") (str_of_string "2.5"));
    vm_compute; reflexivity.
Defined.

(** ** When the parser gives up, and when it raises *)

Lemma split_ws_some s : forall cur,
  cur <> [] \/ nonblank s = true ->
  exists h t, split_ws_from cur s = h :: t.
Proof.
  induction s as [|c r IH]; intros cur H; cbn [split_ws_from].
  - destruct H as [H|H]; [|discriminate].
    destruct cur; [congruence | eauto].
  - destruct (isspace c) eqn:C.
    + destruct cur as [|x cur'].
      * apply IH. right. destruct H as [H|H]; [congruence|].
        cbn [nonblank existsb] in H. now rewrite C in H.
      * eauto.
    + apply IH. left. discriminate.
Qed.

Lemma split_ws_two a : forall cur sp b,
  cur <> [] \/ nonblank a = true ->
  isspace sp = true -> nonblank b = true ->
  exists h1 h2 t, split_ws_from cur (a ++ sp :: b) = h1 :: h2 :: t.
Proof.
  induction a as [|c r IH]; intros cur sp b H Sp B.
  - cbn [app split_ws_from]. rewrite Sp.
    destruct H as [H|H]; [|discriminate].
    destruct (@split_ws_some b [] (or_intror B)) as (h & t & ->).
    destruct cur; [congruence | eauto].
  - cbn [app split_ws_from]. destruct (isspace c) eqn:C.
    + assert (B' : nonblank (r ++ sp :: b) = true).
      { unfold nonblank. rewrite existsb_app. cbn [existsb].
        unfold nonblank in B. rewrite B. now rewrite !orb_true_r. }
      destruct cur as [|x cur'].
      * apply IH; trivial. right. destruct H as [H|H]; [congruence|].
        cbn [nonblank existsb] in H. now rewrite C in H.
      * destruct (@split_ws_some (r ++ sp :: b) [] (or_intror B'))
          as (h & t & ->). eauto.
    + apply IH; trivial. left. discriminate.
Qed.

Lemma nonblank_start (s : str) :
  s <> [] -> starts_with_space s = false -> nonblank s = true.
Proof.
  destruct s as [|c t]; [congruence|]. cbn. intros _ ->. reflexivity.
Qed.

Lemma nonblank_rev s : nonblank (rev s) = nonblank s.
Proof.
  unfold nonblank. induction s as [|c t IH]; [reflexivity|].
  cbn [rev existsb]. rewrite existsb_app, IH. cbn [existsb].
  rewrite orb_false_r. apply orb_comm.
Qed.

Lemma space_is_space c : Ascii.eqb " " c = true -> isspace c = true.
Proof. intros E. apply Ascii.eqb_eq in E. now subst. Qed.

(** A text with a space inside and none at its ends has two words. *)
Lemma split_ws_trimmed s :
  trimmed s -> contains " " s = true ->
  exists h1 h2 t, split_ws s = h1 :: h2 :: t.
Proof.
  intros (Ne & L & E) C. unfold contains in C.
  apply existsb_exists in C. destruct C as (sp & I & Sp).
  apply space_is_space in Sp.
  apply in_split in I. destruct I as (a & b & ->).
  unfold split_ws. apply split_ws_two; trivial.
  - right. destruct a as [|c t]; [cbn in L; congruence|].
    cbn in L. cbn. now rewrite L.
  - unfold ends_with_space in E. rewrite rev_app_distr in E.
    cbn [rev] in E. rewrite <- nonblank_rev.
    destruct (rev b) as [|c t] eqn:R.
    + cbn in E. congruence.
    + rewrite <- !app_assoc in E. cbn in E. cbn. now rewrite E.
Qed.

Lemma float_of_str_raises s e : float_of_str s = Raise e -> e = ValueError.
Proof.
  unfold float_of_str.
  destruct (drop_while isdecimal (strip_number s)).
  - destruct (take_while isdecimal (strip_number s)); congruence.
  - destruct (_ && _); congruence.
Qed.

Lemma int_of_str_raises s e : int_of_str s = Raise e -> e = ValueError.
Proof.
  unfold int_of_str. destruct (strip_number s); [congruence|].
  destruct (all_decimal _); congruence.
Qed.

Lemma unpack_int_pair_raises l e : unpack_int_pair l = Raise e -> e = ValueError.
Proof.
  unfold unpack_int_pair.
  destruct l as [|a [|b [|c r]]]; try congruence.
  destruct (int_of_str a) eqn:A; cbn [bind].
  - destruct (int_of_str b) eqn:B; cbn [bind]; [discriminate|].
    intros H; injection H as <-. now apply int_of_str_raises in B.
  - intros H; injection H as <-. now apply int_of_str_raises in A.
Qed.

Lemma truediv_raises n d e :
  PyFloat.truediv n d = Raise e -> e = ZeroDivisionError \/ e = OverflowError.
Proof.
  unfold PyFloat.truediv. destruct (d =? 0); [intros H; left; congruence|].
  destruct (PyFloat.is_finite _); [discriminate | intros H; right; congruence].
Qed.

Lemma ratio_then_raises {A : Type} pieces (k : float -> A) e :
  (' (numerator, denominator) <- unpack_int_pair pieces ;;
   q <- PyFloat.truediv numerator denominator ;;
   Ok (k q)) = Raise e ->
  e = ValueError \/ e = ZeroDivisionError \/ e = OverflowError.
Proof.
  destruct (unpack_int_pair pieces) as [[n d]|e'] eqn:U; cbn [bind].
  - destruct (PyFloat.truediv n d) eqn:T; cbn [bind]; [discriminate|].
    intros H; injection H as <-. apply truediv_raises in T. tauto.
  - intros H; injection H as <-. apply unpack_int_pair_raises in U. tauto.
Qed.

(** X3: [parse_quantity] raises only on a prefix that holds a slash, and
    then only [ValueError], [ZeroDivisionError] or [OverflowError]: the two
    subscripts [parts[0]] and [parts[1]] never raise [IndexError]. *)
Theorem parse_quantity_raises_only_on_fractions s e :
  parse_quantity s = Raise e ->
  (e = ValueError \/ e = ZeroDivisionError \/ e = OverflowError)
  /\ exists pre,
       numeric_prefix (normalize s) = Some pre /\ contains "/" pre = true.
Proof.
  intros R.
  destruct (numeric_prefix (normalize s)) as [pre|] eqn:P.
  2:{ unfold parse_quantity in R. fold (numeric_prefix (normalize s)) in R.
      rewrite P in R. discriminate. }
  destruct (contains "/" pre) eqn:Sl.
  2:{ destruct (@parse_quantity_plain s pre P Sl) as (q & _ & Q). congruence. }
  split; [|eauto].
  destruct (numeric_prefix_parts _ P) as [Sh _].
  unfold parse_quantity in R. fold (numeric_prefix (normalize s)) in R.
  rewrite P, (prefix_strip Sh), Sl in R.
  destruct (contains " " pre) eqn:Sp; cbn [andb] in R.
  - destruct (@split_ws_trimmed pre (prefix_shape_trimmed Sh) Sp)
      as (h1 & h2 & t & E).
    rewrite E in R. cbn [item nth_error bind] in R.
    destruct (float_of_str h1) as [whole|e'] eqn:F; cbn [bind] in R.
    + now apply ratio_then_raises in R.
    + injection R as <-. apply float_of_str_raises in F. tauto.
  - now apply ratio_then_raises in R.
Qed.

Lemma parse_quantity_raises_only_on_fractions_witness :
  (ZeroDivisionError = ValueError \/ ZeroDivisionError = ZeroDivisionError
   \/ ZeroDivisionError = OverflowError)
  /\ exists pre,
       numeric_prefix (normalize "1 1/0 cups"%string) = Some pre
       /\ contains "/" pre = true.
Proof.
  apply (@parse_quantity_raises_only_on_fractions
           (str_of_string "1 1/0 cups") ZeroDivisionError).
  vm_compute; reflexivity.
Defined.

(** X4: [parse_quantity] returns no magnitude exactly when the normalized
    text has no numeric prefix, and the unit is then the whole normalized
    text.  Once the pattern has matched, the function returns a magnitude or
    raises: the [except ValueError] fallback around [float] never runs. *)
Theorem magnitude_absent_iff_no_prefix s u :
  parse_quantity s = Ok (None, u) <->
  numeric_prefix (normalize s) = None /\ u = normalize s.
Proof.
  split.
  - intros R.
    destruct (numeric_prefix (normalize s)) as [pre|] eqn:P.
    + exfalso. destruct (contains "/" pre) eqn:Sl.
      * destruct (numeric_prefix_parts _ P) as [Sh _].
        unfold parse_quantity in R. fold (numeric_prefix (normalize s)) in R.
        rewrite P, (prefix_strip Sh), Sl in R.
        destruct (contains " " pre); cbn [andb] in R.
        -- bind_inv R. bind_inv R. bind_inv R. bind_inv R.
           destruct a2 as [n d]. bind_inv R. discriminate.
        -- bind_inv R. destruct a as [n d]. bind_inv R. discriminate.
      * destruct (@parse_quantity_plain s pre P Sl) as (q & _ & Q). congruence.
    + unfold parse_quantity in R. fold (numeric_prefix (normalize s)) in R.
      rewrite P in R. injection R as <-. now split.
  - intros [P ->]. unfold parse_quantity. fold (numeric_prefix (normalize s)).
    now rewrite P.
Qed.

(** ** The value of a fraction *)

Lemma split_ws_word (w : str) : forall cur r,
  no_space w = true ->
  split_ws_from cur (w ++ r) = split_ws_from (rev w ++ cur) r.
Proof.
  unfold no_space. induction w as [|c t IH]; intros cur r H; [reflexivity|].
  cbn [forallb] in H. apply andb_true_iff in H. destruct H as [C T].
  apply negb_true_iff in C.
  cbn [app split_ws_from rev]. rewrite C, IH by exact T.
  now rewrite <- app_assoc.
Qed.

Lemma split_ws_skip (ws : str) r :
  forallb isspace ws = true -> split_ws_from [] (ws ++ r) = split_ws_from [] r.
Proof.
  induction ws as [|c t IH]; intros H; [reflexivity|].
  cbn [forallb] in H. apply andb_true_iff in H. destruct H as [C T].
  cbn [app split_ws_from]. rewrite C. now apply IH.
Qed.

Lemma split_ws_gap (ws : str) cur r :
  ws <> [] -> cur <> [] -> forallb isspace ws = true ->
  split_ws_from cur (ws ++ r) = rev cur :: split_ws_from [] r.
Proof.
  destruct ws as [|c t]; [congruence|]. intros _ Hc H.
  cbn [forallb] in H. apply andb_true_iff in H. destruct H as [C T].
  cbn [app split_ws_from]. rewrite C.
  destruct cur; [congruence|]. now rewrite split_ws_skip.
Qed.

Lemma split_ws_last (b : str) :
  b <> [] -> no_space b = true -> split_ws_from [] b = [b].
Proof.
  intros Hb Nb.
  pose proof (@split_ws_word b [] [] Nb) as E.
  rewrite !app_nil_r in E. rewrite E. cbn [split_ws_from].
  destruct (rev b) eqn:R.
  - apply (f_equal (@rev ascii)) in R. rewrite rev_involutive in R.
    now destruct Hb.
  - now rewrite <- R, rev_involutive.
Qed.

Lemma split_ws_two_words (a ws b : str) :
  a <> [] -> no_space a = true ->
  ws <> [] -> forallb isspace ws = true ->
  b <> [] -> no_space b = true ->
  split_ws (a ++ ws ++ b) = [a; b].
Proof.
  intros Ha Na Hw W Hb Nb. unfold split_ws.
  rewrite split_ws_word, app_nil_r by exact Na.
  rewrite split_ws_gap; trivial.
  2:{ intros E. apply (f_equal (@rev ascii)) in E.
      rewrite rev_involutive in E. now apply Ha. }
  rewrite rev_involutive. f_equal. now apply split_ws_last.
Qed.

Lemma split_on_none sep (b : str) :
  contains sep b = false -> split_on sep b = [b].
Proof.
  unfold contains. induction b as [|c t IH]; [reflexivity|].
  cbn [existsb split_on]. intros H. apply orb_false_iff in H.
  destruct H as [C T]. rewrite (Ascii.eqb_sym c sep), C, IH by exact T.
  reflexivity.
Qed.

Lemma split_on_once sep (a b : str) :
  contains sep a = false -> contains sep b = false ->
  split_on sep (a ++ sep :: b) = [a; b].
Proof.
  unfold contains. intros A B. induction a as [|c t IH].
  - cbn [app split_on]. rewrite Ascii.eqb_refl.
    now rewrite split_on_none.
  - cbn [existsb] in A. apply orb_false_iff in A. destruct A as [C T].
    cbn [app split_on]. rewrite (Ascii.eqb_sym c sep), C, IH by exact T.
    reflexivity.
Qed.

Lemma int_of_str_digits (d : str) :
  d <> [] -> all_decimal d = true -> int_of_str d = Ok (digits_val d).
Proof.
  intros Ne D. unfold int_of_str.
  rewrite strip_number_id
    by (apply no_space_trimmed; [exact Ne | now apply decimal_no_space_all]).
  rewrite D. destruct d; [congruence | reflexivity].
Qed.

Lemma unpack_fraction (num den : str) :
  num <> [] -> all_decimal num = true ->
  den <> [] -> all_decimal den = true ->
  unpack_int_pair (split_on "/" (num ++ "/"%char :: den))
  = Ok (digits_val num, digits_val den).
Proof.
  intros Hn N Hd D.
  rewrite split_on_once by (apply digits_contain_no; trivial; reflexivity).
  unfold unpack_int_pair. now rewrite !int_of_str_digits by assumption.
Qed.

Lemma space_among_spaces (whole ws num den : str) :
  all_decimal whole = true -> all_decimal num = true ->
  all_decimal den = true ->
  contains " " (whole ++ ws ++ num ++ "/"%char :: den) = contains " " ws.
Proof.
  intros W N D. rewrite !contains_app. cbn [contains existsb].
  fold (contains " " den).
  rewrite (@digits_contain_no " " whole eq_refl W),
    (@digits_contain_no " " num eq_refl N),
    (@digits_contain_no " " den eq_refl D).
  change (Ascii.eqb " " "/") with false.
  cbn [orb]. now rewrite orb_false_r.
Qed.

Lemma slash_in_fraction (whole ws num den : str) :
  contains "/" (whole ++ ws ++ num ++ "/"%char :: den) = true.
Proof.
  rewrite !contains_app. cbn [contains existsb].
  rewrite Ascii.eqb_refl. now rewrite !orb_true_r.
Qed.

Lemma fraction_trimmed (whole ws num den : str) :
  whole <> [] -> all_decimal whole = true ->
  den <> [] -> all_decimal den = true ->
  strip (whole ++ ws ++ num ++ "/"%char :: den)
  = whole ++ ws ++ num ++ "/"%char :: den.
Proof.
  intros Hw W Hd D. apply prefix_strip.
  apply (@Fraction_shape _ whole (ws ++ num) den); trivial.
  now rewrite <- app_assoc.
Qed.

(** A whole number, whitespace with a space in it, and a fraction. *)
Lemma parse_mixed s (whole ws num den : str) :
  numeric_prefix (normalize s) = Some (whole ++ ws ++ num ++ "/"%char :: den) ->
  whole <> [] -> all_decimal whole = true ->
  forallb isspace ws = true -> contains " " ws = true ->
  num <> [] -> all_decimal num = true ->
  den <> [] -> all_decimal den = true ->
  parse_quantity s
  = (q <- PyFloat.truediv (digits_val num) (digits_val den) ;;
     Ok (Some (PyFloat.add (PyFloat.of_decimal (digits_val whole) 0) q),
         strip (slice_from
                  (length (whole ++ ws ++ num ++ "/"%char :: den))
                  (normalize s)))).
Proof.
  intros P Hw W Ws Sp Hn N Hd D.
  unfold parse_quantity. fold (numeric_prefix (normalize s)).
  rewrite P, fraction_trimmed by assumption.
  rewrite space_among_spaces, Sp, slash_in_fraction by assumption.
  cbn [andb].
  assert (Nf : no_space (num ++ "/"%char :: den) = true).
  { unfold no_space. rewrite forallb_app. cbn [forallb].
    apply decimal_no_space_all in N, D. unfold no_space in N, D.
    now rewrite N, D. }
  rewrite (@split_ws_two_words whole ws (num ++ "/"%char :: den));
    trivial.
  - cbn [item nth_error bind].
    rewrite float_of_str_integer by assumption. cbn [bind].
    rewrite unpack_fraction by assumption. reflexivity.
  - now apply decimal_no_space_all.
  - destruct ws; [discriminate | discriminate].
  - destruct num; discriminate.
Qed.

(** A numerator, a slash and a denominator. *)
Lemma parse_simple_fraction s (num den : str) :
  numeric_prefix (normalize s) = Some (num ++ "/"%char :: den) ->
  num <> [] -> all_decimal num = true ->
  den <> [] -> all_decimal den = true ->
  parse_quantity s
  = (q <- PyFloat.truediv (digits_val num) (digits_val den) ;;
     Ok (Some q,
         strip (slice_from (length (num ++ "/"%char :: den)) (normalize s)))).
Proof.
  intros P Hn N Hd D.
  unfold parse_quantity. fold (numeric_prefix (normalize s)).
  rewrite P.
  pose proof (@fraction_trimmed num [] [] den Hn N Hd D) as T.
  cbn [app] in T. rewrite T.
  pose proof (@space_among_spaces num [] [] den N eq_refl D) as S.
  cbn [app] in S. rewrite S.
  pose proof (slash_in_fraction num [] [] den) as L.
  cbn [app] in L. rewrite L. cbn [contains existsb andb].
  rewrite unpack_fraction by assumption. reflexivity.
Qed.





(** ** Case and padding *)

Lemma strip_pad_right s : forall w,
  forallb isspace w = true -> strip (s ++ w) = strip s.
Proof.
  unfold strip, lstrip.
  induction s as [|c t IH]; intros w W.
  - cbn [app]. rewrite (@drop_while_whole isspace w W). reflexivity.
  - cbn [app drop_while]. destruct (isspace c); [now apply IH|].
    change (c :: t ++ w) with ((c :: t) ++ w). now apply rstrip_spaces.
Qed.

Lemma normalize_pad w1 s w2 :
  forallb isspace w1 = true -> forallb isspace w2 = true ->
  normalize (w1 ++ s ++ w2) = normalize s.
Proof.
  intros W1 W2. unfold normalize. f_equal.
  rewrite app_assoc, strip_pad_right by exact W2.
  unfold strip, lstrip. now rewrite drop_while_all.
Qed.

Lemma normalize_lower s : normalize (lower s) = normalize s.
Proof. unfold normalize. now rewrite strip_lower, lower_idem. Qed.

Lemma parse_quantity_normalize s s' :
  normalize s = normalize s' -> parse_quantity s = parse_quantity s'.
Proof. unfold parse_quantity. now intros ->. Qed.

(** X7: [parse_quantity] does not see the case of the letters or the
    whitespace around the text. *)
Theorem parse_quantity_ignores_case_and_padding (s s' w1 w2 : str) :
  lower s = lower s' ->
  forallb isspace w1 = true -> forallb isspace w2 = true ->
  parse_quantity (w1 ++ s ++ w2) = parse_quantity s'.
Proof.
  intros L W1 W2. apply parse_quantity_normalize.
  rewrite normalize_pad by assumption.
  now rewrite <- normalize_lower, L, normalize_lower.
Qed.

Lemma parse_quantity_ignores_case_and_padding_witness :
  parse_quantity (str_of_string "  " ++ str_of_string "2 CUPS"
                  ++ str_of_string " ")
  = parse_quantity "2 cups"%string.
Proof.
  apply (@parse_quantity_ignores_case_and_padding
           (str_of_string "2 CUPS") (str_of_string "2 cups")
           (str_of_string "  ") (str_of_string " "));
    vm_compute; reflexivity.
Defined.

(** ** Whole numbers are floats *)

Lemma canonical_eq m e :
  canonical_mantissa PyFloat.prec PyFloat.emax m e = true
  <-> Z.max (Zpos (digits2_pos m) + e - 53) (-1074) = e.
Proof. unfold canonical_mantissa. rewrite fexp_eq. apply Z.eqb_eq. Qed.

Lemma Zdigits2_shift q n :
  0 <= n -> Zdigits2 (Zpos q * 2 ^ n) = Zpos (digits2_pos q) + n.
Proof.
  intros Hn.
  assert (P : 0 < Zpos q * 2 ^ n).
  { apply Z.mul_pos_pos; [lia|]. apply Z.pow_pos_nonneg; lia. }
  destruct (Zpos q * 2 ^ n) as [|r|r] eqn:E; try lia.
  cbn [Zdigits2]. now apply (@digits2_shift q n r).
Qed.

(** Rounding a mantissa that ends in enough zeros drops the zeros and
    nothing else. *)
Lemma round_aux_shift s q n e :
  0 <= n ->
  canonical_mantissa PyFloat.prec PyFloat.emax q (e + n) = true ->
  binary_round_aux PyFloat.prec PyFloat.emax s (Zpos q * 2 ^ n) e loc_Exact
  = if e + n <=? 971 then S754_finite s q (e + n) else S754_infinity s.
Proof.
  intros Hn C. destruct n as [|k|k]; try lia.
  - rewrite Z.mul_1_r. rewrite Z.add_0_r in *. now apply round_aux_canonical.
  - pose proof C as C'. apply canonical_eq in C'.
    unfold binary_round_aux, shr_fexp.
    rewrite Zdigits2_shift, fexp_eq by lia.
    replace (Z.max (Zpos (digits2_pos q) + Zpos k + e - 53) (-1074) - e)
      with (Zpos k) by lia.
    cbn [shr shr_record_of_loc]. rewrite iter_pos_nat.
    change {| shr_m := Zpos q * 2 ^ Zpos k; shr_r := false; shr_s := false |}
      with (exact_record (Zpos q * 2 ^ Zpos k)).
    replace (Zpos q * 2 ^ Zpos k)
      with (Zpos q * 2 ^ Z.of_nat (Pos.to_nat k))
      by (now rewrite positive_nat_Z).
    rewrite shr_exact by lia.
    cbn [exact_record shr_m loc_of_shr_record round_nearest_even Zdigits2
         shr_record_of_loc].
    rewrite fexp_eq.
    replace (Z.max (Zpos (digits2_pos q) + (e + Zpos k) - 53) (-1074)
             - (e + Zpos k)) with 0 by lia.
    cbn [shr shr_m]. reflexivity.
Qed.

Lemma shl_align_whole p :
  Zpos (digits2_pos p) <= 53 ->
  exists m,
    shl_align p 0 (Zpos (digits2_pos p) - 53)
    = (m, Zpos (digits2_pos p) - 53)
    /\ Zpos m = Zpos p * 2 ^ (53 - Zpos (digits2_pos p))
    /\ Zpos (digits2_pos m) = 53.
Proof.
  intros D. unfold shl_align.
  destruct (Zpos (digits2_pos p) - 53 - 0) as [|k|k] eqn:E; try lia.
  - exists p. replace (Zpos (digits2_pos p) - 53) with 0 by lia.
    replace (53 - Zpos (digits2_pos p)) with 0 by lia.
    split; [reflexivity|]. split; lia.
  - exists (Pos.iter xO p k). split; [reflexivity|].
    pose proof (shl_pos p k) as S.
    replace (53 - Zpos (digits2_pos p)) with (Zpos k) by lia.
    split; [exact S|].
    rewrite (@digits2_shift p (Zpos k) _ ltac:(lia) S). lia.
Qed.

Lemma whole_float_eq s p :
  Zpos (digits2_pos p) <= 53 ->
  exists m,
    whole_float s p = S754_finite s m (Zpos (digits2_pos p) - 53)
    /\ Zpos m = Zpos p * 2 ^ (53 - Zpos (digits2_pos p))
    /\ Zpos (digits2_pos m) = 53.
Proof.
  intros D. destruct (shl_align_whole p D) as (m & S & M & Dm).
  exists m. unfold whole_float. rewrite S. now split.
Qed.

(** [float(n)] for a whole number that fits the mantissa. *)
Lemma binary_round_whole s p :
  Zpos (digits2_pos p) <= 53 ->
  binary_round PyFloat.prec PyFloat.emax s p 0 = whole_float s p.
Proof.
  intros D. unfold binary_round, whole_float.
  rewrite fexp_eq, Z.add_0_r, Z.max_l by lia.
  destruct (shl_align_whole p D) as (m & -> & M & Dm).
  rewrite round_aux_canonical by (apply canonical_eq; lia).
  destruct (_ <=? 971) eqn:L; [reflexivity|]. apply Z.leb_gt in L. lia.
Qed.

Lemma digits_small p : Zpos p < 2 ^ 53 -> Zpos (digits2_pos p) <= 53.
Proof.
  intros U.
  pose proof (digits2_bounds p) as [L _].
  destruct (Z_le_gt_dec (Zpos (digits2_pos p)) 53) as [|G]; [assumption|].
  assert (2 ^ 53 <= 2 ^ (Zpos (digits2_pos p) - 1))
    by (apply Z.pow_le_mono_r; lia).
  lia.
Qed.

Lemma is_finite_whole s p : PyFloat.is_finite (whole_float s p) = true.
Proof.
  unfold whole_float. now destruct (shl_align _ _ _).
Qed.

Lemma of_int_whole n :
  Z.abs n < 2 ^ 53 -> PyFloat.of_int n = Ok (float_of_whole n).
Proof.
  intros B. unfold PyFloat.of_int, binary_normalize, float_of_whole.
  destruct n as [|p|p]; [reflexivity| |];
    rewrite binary_round_whole by (apply digits_small; lia);
    now rewrite is_finite_whole.
Qed.

Lemma shiftl_back p k : 0 <= k -> Z.shiftl (Zpos p * 2 ^ k) (- k) = Zpos p.
Proof.
  intros Hk. rewrite Z.shiftl_div_pow2 by lia. rewrite Z.opp_involutive.
  apply Z.div_mul. apply Z.pow_nonzero; lia.
Qed.

Lemma to_int_whole_float s p :
  Zpos p < 2 ^ 53 ->
  PyFloat.to_int (whole_float s p) = Ok (cond_Zopp s (Zpos p)).
Proof.
  intros B. destruct (whole_float_eq s p (@digits_small p B)) as (m & -> & M & _).
  cbn [PyFloat.to_int]. rewrite M.
  replace (Zpos (digits2_pos p) - 53) with (- (53 - Zpos (digits2_pos p))) by lia.
  rewrite shiftl_back by (pose proof (@digits_small p B); lia). reflexivity.
Qed.

Lemma to_int_whole n :
  Z.abs n < 2 ^ 53 -> PyFloat.to_int (float_of_whole n) = Ok n.
Proof.
  intros B. destruct n as [|p|p]; [reflexivity| |]; cbn [float_of_whole];
    rewrite to_int_whole_float by lia; reflexivity.
Qed.

(** ** Exact arithmetic on whole numbers *)

Lemma sub_self s m e :
  PyFloat.sub (S754_finite s m e) (S754_finite s m e) = PyFloat.zero.
Proof.
  unfold PyFloat.sub, SFsub. rewrite Z.min_id.
  unfold shl_align. rewrite Z.sub_diag. reflexivity.
Qed.

Lemma sub_whole_self n :
  PyFloat.sub (float_of_whole n) (float_of_whole n) = PyFloat.zero.
Proof.
  destruct n as [|p|p]; [reflexivity| |]; cbn [float_of_whole];
    unfold whole_float; destruct (shl_align _ _ _); apply sub_self.
Qed.

Lemma formatted_num_whole n :
  Z.abs n < 2 ^ 53 -> formatted_num (float_of_whole n) = Ok (str_of_int n).
Proof.
  intros B. unfold formatted_num.
  rewrite to_int_whole by exact B. cbn [bind].
  rewrite of_int_whole by exact B. cbn [bind].
  rewrite sub_whole_self. reflexivity.
Qed.

(** The product of two whole numbers, when it fits the mantissa. *)
Lemma mul_whole_float sa a sb b :
  Zpos a * Zpos b < 2 ^ 53 ->
  PyFloat.mul (whole_float sa a) (whole_float sb b)
  = whole_float (xorb sa sb) (a * b).
Proof.
  intros B.
  assert (Ba : Zpos a < 2 ^ 53) by nia.
  assert (Bb : Zpos b < 2 ^ 53) by nia.
  pose proof (@digits_small a Ba) as Da.
  pose proof (@digits_small b Bb) as Db.
  pose proof (@digits_small (a * b) B) as Dab.
  destruct (whole_float_eq sa a Da) as (ma & -> & Ma & Dma).
  destruct (whole_float_eq sb b Db) as (mb & -> & Mb & Dmb).
  destruct (whole_float_eq (xorb sa sb) (a * b) Dab) as (mab & -> & Mab & Dmab).
  set (da := Zpos (digits2_pos a)) in *.
  set (db := Zpos (digits2_pos b)) in *.
  set (dab := Zpos (digits2_pos (a * b))) in *.
  assert (Lo : da + db - 1 <= dab).
  { pose proof (digits2_bounds a) as [La _].
    pose proof (digits2_bounds b) as [Lb _].
    pose proof (digits2_bounds (a * b)) as [_ Uab].
    fold da in La. fold db in Lb. fold dab in Uab.
    assert (da + db - 2 < dab); [|lia].
    apply (Z.pow_lt_mono_r_iff 2); [lia | lia |].
    assert (0 < da) by (unfold da; lia).
    assert (0 < db) by (unfold db; lia).
    replace (da + db - 2) with ((da - 1) + (db - 1)) by lia.
    rewrite Z.pow_add_r by lia.
    rewrite Pos2Z.inj_mul in Uab.
    assert (0 < 2 ^ (da - 1)) by (apply Z.pow_pos_nonneg; lia).
    assert (0 < 2 ^ (db - 1)) by (apply Z.pow_pos_nonneg; lia).
    nia. }
  unfold PyFloat.mul, SFmul.
  set (n := 53 - da - db + dab).
  assert (E : Zpos (ma * mb) = Zpos mab * 2 ^ n).
  { rewrite Pos2Z.inj_mul, Ma, Mb, Mab, Pos2Z.inj_mul.
    replace (Zpos a * Zpos b * 2 ^ (53 - dab) * 2 ^ n)
      with (Zpos a * Zpos b * (2 ^ (53 - dab) * 2 ^ n)) by ring.
    rewrite <- Z.pow_add_r by lia.
    replace (Zpos a * 2 ^ (53 - da) * (Zpos b * 2 ^ (53 - db)))
      with (Zpos a * Zpos b * (2 ^ (53 - da) * 2 ^ (53 - db))) by ring.
    rewrite <- Z.pow_add_r by lia.
    f_equal. f_equal. lia. }
  rewrite E.
  rewrite round_aux_shift.
  - replace (da - 53 + (db - 53) + n) with (dab - 53) by lia.
    destruct (_ <=? 971) eqn:L; [reflexivity|]. apply Z.leb_gt in L. lia.
  - lia.
  - apply canonical_eq. lia.
Qed.

(** ** Exact quotients *)

Lemma digits2_mul a b :
  Zpos (digits2_pos a) + Zpos (digits2_pos b) - 1
  <= Zpos (digits2_pos (a * b))
  <= Zpos (digits2_pos a) + Zpos (digits2_pos b).
Proof.
  pose proof (digits2_bounds a) as [La Ua].
  pose proof (digits2_bounds b) as [Lb Ub].
  pose proof (digits2_bounds (a * b)) as [Lab Uab].
  set (da := Zpos (digits2_pos a)) in *.
  set (db := Zpos (digits2_pos b)) in *.
  set (dab := Zpos (digits2_pos (a * b))) in *.
  assert (0 < da) by (unfold da; lia).
  assert (0 < db) by (unfold db; lia).
  assert (0 < dab) by (unfold dab; lia).
  rewrite Pos2Z.inj_mul in *.
  assert (0 < 2 ^ (da - 1)) by (apply Z.pow_pos_nonneg; lia).
  assert (0 < 2 ^ (db - 1)) by (apply Z.pow_pos_nonneg; lia).
  split.
  - assert (da + db - 2 < dab); [|lia].
    apply (Z.pow_lt_mono_r_iff 2); [lia | lia |].
    replace (da + db - 2) with ((da - 1) + (db - 1)) by lia.
    rewrite Z.pow_add_r by lia. nia.
  - assert (dab - 1 < da + db); [|lia].
    apply (Z.pow_lt_mono_r_iff 2); [lia | lia |].
    rewrite Z.pow_add_r by lia. nia.
Qed.

Lemma div_eucl_mul q d : 0 < d -> Z.div_eucl (q * d) d = (q, 0).
Proof.
  intros Hd.
  pose proof (Z.div_mul q d ltac:(lia)) as Q.
  pose proof (Z.mod_mul q d ltac:(lia)) as R.
  unfold Z.div, Z.modulo in Q, R.
  destruct (Z.div_eucl (q * d) d) as [q' r']. simpl in Q, R. congruence.
Qed.

Lemma new_location_exact d : new_location d 0 = loc_Exact.
Proof. unfold new_location. now destruct (Z.even d). Qed.

(** A whole quotient is computed exactly. *)
Lemma div_whole s1 s2 k o :
  Zpos k < 2 ^ 53 ->
  SFdiv PyFloat.prec PyFloat.emax
    (S754_finite s1 (k * o) 0) (S754_finite s2 o 0)
  = whole_float (xorb s1 s2) k.
Proof.
  intros B. pose proof (@digits_small k B) as Dk.
  destruct (whole_float_eq (xorb s1 s2) k Dk) as (m & -> & M & Dm).
  pose proof (digits2_mul k o) as [Lo Hi].
  unfold SFdiv, SFdiv_core_binary. cbn [Zdigits2].
  rewrite fexp_eq, !Z.add_0_r, Z.sub_diag.
  set (dk := Zpos (digits2_pos k)) in *.
  set (d1 := Zpos (digits2_pos (k * o))) in *.
  set (d2 := Zpos (digits2_pos o)) in *.
  rewrite Z.max_l by lia. rewrite Z.min_l by lia.
  replace (0 - (d1 - d2 - 53)) with (53 - (d1 - d2)) by lia.
  assert (Q : forall sh, 0 <= sh -> sh = 53 - (d1 - d2) ->
              binary_round_aux PyFloat.prec PyFloat.emax (xorb s1 s2)
                (Zpos k * 2 ^ sh) (d1 - d2 - 53) loc_Exact
              = S754_finite (xorb s1 s2) m (dk - 53)).
  { intros sh Hsh Esh.
    replace (Zpos k * 2 ^ sh) with (Zpos m * 2 ^ (dk - (d1 - d2))).
    - rewrite round_aux_shift.
      + replace (d1 - d2 - 53 + (dk - (d1 - d2))) with (dk - 53) by lia.
        destruct (_ <=? 971) eqn:L; [reflexivity|]. apply Z.leb_gt in L. lia.
      + lia.
      + apply canonical_eq. lia.
    - rewrite M, <- Z.mul_assoc, <- Z.pow_add_r by lia.
      f_equal. f_equal. lia. }
  destruct (53 - (d1 - d2)) as [|sh|sh] eqn:S; try lia.
  - rewrite Pos2Z.inj_mul, div_eucl_mul, new_location_exact by lia.
    rewrite <- (Z.mul_1_r (Zpos k)). change 1 with (2 ^ 0) at 1.
    apply Q; lia.
  - rewrite Z.shiftl_mul_pow2, Pos2Z.inj_mul by lia.
    replace (Zpos k * Zpos o * 2 ^ Zpos sh)
      with (Zpos k * 2 ^ Zpos sh * Zpos o) by ring.
    rewrite div_eucl_mul, new_location_exact by lia.
    apply Q; lia.
Qed.

Lemma quotient_whole k o :
  0 < o -> Z.abs k < 2 ^ 53 ->
  PyFloat.quotient (k * o) o = float_of_whole k.
Proof.
  intros Ho B. unfold PyFloat.quotient.
  destruct o as [|o|o]; try lia.
  destruct k as [|k|k]; cbn [Z.mul float_of_whole];
    [reflexivity | apply div_whole; lia | apply div_whole; lia].
Qed.

Lemma quotient_self n : n <> 0 -> PyFloat.quotient n n = PyFloat.one.
Proof.
  intros N. unfold PyFloat.quotient.
  destruct n as [|p|p]; [congruence| |];
    cbn [Z.ltb Z.compare Z.abs Z.to_pos];
    rewrite <- (Pos.mul_1_l p) at 1;
    rewrite div_whole by (vm_compute; reflexivity); reflexivity.
Qed.

Lemma truediv_self n : n <> 0 -> PyFloat.truediv n n = Ok PyFloat.one.
Proof.
  intros N. unfold PyFloat.truediv.
  rewrite (proj2 (Z.eqb_neq n 0) N), quotient_self by exact N. reflexivity.
Qed.

Lemma of_decimal_whole n :
  0 <= n < 2 ^ 53 -> PyFloat.of_decimal n 0 = float_of_whole n.
Proof.
  intros B. unfold PyFloat.of_decimal. change (10 ^ Z.of_nat 0) with 1.
  rewrite <- (Z.mul_1_r n) at 1. apply quotient_whole; lia.
Qed.

Lemma is_finite_whole_Z n : PyFloat.is_finite (float_of_whole n) = true.
Proof. destruct n; [reflexivity | apply is_finite_whole | apply is_finite_whole]. Qed.

Lemma truediv_whole k o :
  0 < o -> Z.abs k < 2 ^ 53 ->
  PyFloat.truediv (k * o) o = Ok (float_of_whole k).
Proof.
  intros Ho B. unfold PyFloat.truediv.
  rewrite (proj2 (Z.eqb_neq o 0)) by lia.
  rewrite quotient_whole by assumption.
  now rewrite is_finite_whole_Z.
Qed.

(** ** The digits of a whole number *)

Lemma digit_char_decimal d :
  0 <= d <= 9 -> isdecimal (digit_char d) = true /\ digit_val (digit_char d) = d.
Proof.
  intros H.
  assert (C : d = 0 \/ d = 1 \/ d = 2 \/ d = 3 \/ d = 4 \/ d = 5
              \/ d = 6 \/ d = 7 \/ d = 8 \/ d = 9) by lia.
  repeat (destruct C as [-> | C]; [now split|]). now subst.
Qed.

Lemma digits_of_app fuel : forall n acc,
  digits_of fuel n acc = digits_of fuel n [] ++ acc.
Proof.
  induction fuel as [|f IH]; intros n acc; cbn [digits_of]; [reflexivity|].
  destruct (n <? 10); [reflexivity|].
  rewrite (IH _ (_ :: acc)), (IH _ [_]), <- app_assoc. reflexivity.
Qed.

Lemma digits_val_snoc s c : digits_val (s ++ [c]) = 10 * digits_val s + digit_val c.
Proof. unfold digits_val. now rewrite fold_left_app. Qed.

Lemma digits_of_value fuel : forall n,
  0 <= n < 2 ^ Z.of_nat fuel ->
  all_decimal (digits_of fuel n []) = true
  /\ digits_val (digits_of fuel n []) = n.
Proof.
  induction fuel as [|f IH]; intros n B.
  - simpl in B. assert (n = 0) by lia. subst. now split.
  - cbn [digits_of].
    destruct (digit_char_decimal (mod_10_digit n)) as [D V].
    destruct (n <? 10) eqn:L.
    + apply Z.ltb_lt in L. rewrite Z.mod_small in * by lia.
      split; [cbn; now rewrite D|].
      unfold digits_val. cbn [fold_left]. lia.
    + apply Z.ltb_ge in L. rewrite digits_of_app.
      rewrite Nat2Z.inj_succ, Z.pow_succ_r in B by lia.
      destruct (IH (n / 10)) as [A E].
      { split; [apply Z.div_pos; lia|].
        apply Z.div_lt_upper_bound; lia. }
      split.
      * apply all_decimal_app; [exact A | cbn; now rewrite D].
      * rewrite digits_val_snoc, E, V.
        pose proof (Z.div_mod n 10). lia.
Qed.

Lemma str_of_int_digits n :
  0 <= n ->
  all_decimal (str_of_int n) = true /\ digits_val (str_of_int n) = n.
Proof.
  intros P. unfold str_of_int.
  rewrite (proj2 (Z.ltb_ge n 0) P), Z.abs_eq by exact P.
  apply digits_of_value. split; [exact P|].
  destruct (Z.eq_dec n 0) as [->|N]; [reflexivity|].
  rewrite Nat2Z.inj_succ, Z2Nat.id by apply Z.log2_nonneg.
  apply Z.log2_spec. lia.
Qed.

(** ** A whole number and its unit, shown and read back *)

Lemma normal_unit u :
  normalize u = u ->
  lower u = u /\ strip u = u
  /\ starts_with_space u = false /\ ends_with_space u = false.
Proof.
  intros N.
  assert (L : lower u = u).
  { rewrite <- N at 1. unfold normalize. now rewrite lower_idem. }
  assert (S : strip u = u).
  { rewrite <- N at 1. unfold normalize.
    now rewrite strip_lower, strip_idem. }
  split; [exact L|]. split; [exact S|].
  rewrite <- S. split; [apply strip_no_lead | apply strip_no_trail].
Qed.

Lemma lower_digits (d : str) : all_decimal d = true -> lower d = d.
Proof.
  unfold all_decimal, lower. induction d as [|c t IH]; [reflexivity|].
  cbn [forallb map]. intros H. apply andb_true_iff in H. destruct H as [C T].
  rewrite IH by exact T. f_equal.
  revert C. destruct c as [[] [] [] [] [] [] [] []]; vm_compute; congruence.
Qed.

(** The text [strip (d ++ " " ++ u)] of a number [d] and a unit [u]. *)
Lemma number_and_unit (d u : str) :
  trimmed d -> strip u = u ->
  strip (d ++ " "%char :: u) = d ++ (if nonempty u then " "%char :: u else []).
Proof.
  intros T S. destruct u as [|c t]; cbn [nonempty].
  - rewrite app_nil_r.
    destruct T as (Ne & L & E).
    unfold strip. rewrite lstrip_id by (rewrite starts_app by exact Ne; exact L).
    rewrite (@rstrip_spaces d [" "%char] eq_refl).
    now apply rstrip_id.
  - destruct T as (Ne & L & E).
    apply strip_id.
    + rewrite starts_app by exact Ne. exact L.
    + change (d ++ " "%char :: c :: t) with (d ++ [" "%char] ++ (c :: t)).
      rewrite app_assoc, ends_app by discriminate.
      rewrite <- S. apply strip_no_trail.
Qed.

Lemma scan_whole (d u : str) :
  d <> [] -> all_decimal d = true ->
  starts_with_space u = false ->
  starts_with isdecimal u = false ->
  starts_with (Ascii.eqb "/") u = false ->
  numeric_prefix (d ++ (if nonempty u then " "%char :: u else [])) = Some d.
Proof.
  intros Ne D Sp Dg Sl.
  rewrite numeric_prefix_scans.
  unfold Scan.numeric_prefix, Scan.fraction, Scan.decimal, Spec.integer,
    Spec.or_else.
  destruct u as [|c t]; cbn [nonempty].
  - rewrite app_nil_r, (@take_while_whole isdecimal d D),
      (@drop_while_whole isdecimal d D).
    cbn [take_while drop_while]. destruct d; [congruence | reflexivity].
  - rewrite (@take_while_run isdecimal d " " (c :: t) D eq_refl),
      (@drop_while_run isdecimal d " " (c :: t) D eq_refl).
    cbn [starts_with_space starts_with] in Sp, Dg, Sl.
    cbn [take_while drop_while].
    change (isspace " ") with true. cbn [take_while drop_while].
    rewrite Sp. cbn [take_while drop_while]. rewrite Dg.
    rewrite (Ascii.eqb_sym c "/"), Sl. cbn [andb].
    change (Ascii.eqb " " ".") with false. cbn [andb].
    destruct d; [congruence | reflexivity].
Qed.

Lemma parse_whole n u :
  0 <= n < 2 ^ 53 ->
  normalize u = u ->
  starts_with isdecimal u = false ->
  starts_with (Ascii.eqb "/") u = false ->
  parse_quantity (strip (str_of_int n ++ " "%char :: u))
  = Ok (Some (float_of_whole n), u).
Proof.
  intros B N Dg Sl.
  destruct (normal_unit N) as (Lu & Su & Sp & Eu).
  destruct (str_of_int_digits (proj1 B)) as [D V].
  pose proof (str_of_int_nonempty n) as Ne.
  rewrite number_and_unit by (trivial; apply str_of_int_trimmed).
  set (t := str_of_int n ++ (if nonempty u then " "%char :: u else [])).
  assert (Nt : normalize t = t).
  { assert (St : strip t = t).
    { unfold t.
      rewrite <- (@number_and_unit (str_of_int n) u (str_of_int_trimmed n) Su).
      apply strip_idem. }
    unfold normalize. rewrite St.
    unfold t, lower. rewrite map_app. fold (lower (str_of_int n)).
    rewrite lower_digits by exact D. f_equal.
    destruct u as [|c r]; [reflexivity|]. cbn [nonempty map].
    change (lower_char " ") with " "%char. f_equal. exact Lu. }
  pose proof (@scan_whole (str_of_int n) u Ne D Sp Dg Sl) as P. fold t in P.
  rewrite <- Nt in P.
  destruct (@parse_quantity_plain t (str_of_int n) P) as (q & Q & ->).
  { now apply digits_contain_no. }
  rewrite float_of_str_integer in Q by assumption.
  rewrite V, of_decimal_whole in Q by exact B. injection Q as <-.
  rewrite Nt. unfold t, slice_from. rewrite skipn_prefix.
  f_equal. f_equal.
  destruct u as [|c r]; [reflexivity|]. cbn [nonempty].
  unfold strip. 
  change (lstrip (" "%char :: c :: r)) with (lstrip (c :: r)).
  exact Su.
Qed.

Lemma format_whole n u :
  Z.abs n < 2 ^ 53 ->
  format_scaled_quantity (Some (float_of_whole n)) u
  = Ok (strip (str_of_int n ++ " "%char :: u)).
Proof.
  intros B. unfold format_scaled_quantity.
  rewrite formatted_num_whole by exact B. reflexivity.
Qed.

(** X8: a whole number that fits the mantissa is shown without decimals:
    for [|n| < 2^53], [format_scaled_quantity (float n) unit] is [str n], a
    space and the unit, stripped. *)
Theorem whole_number_shown_without_decimals (n : Z) (x : float) (u : str) :
  Z.abs n < 2 ^ 53 ->
  PyFloat.of_int n = Ok x ->
  format_scaled_quantity (Some x) u
  = Ok (strip (str_of_int n ++ " "%char :: u)).
Proof.
  intros B X. rewrite of_int_whole in X by exact B. injection X as <-.
  now apply format_whole.
Qed.

Lemma whole_number_shown_without_decimals_witness :
  format_scaled_quantity (Some (PyFloat.of_decimal 12 0)) "eggs"%string
  = Ok (strip (str_of_int 12 ++ " "%char :: str_of_string "eggs")).
Proof.
  apply (@whole_number_shown_without_decimals 12 (PyFloat.of_decimal 12 0));
    vm_compute; reflexivity.
Defined.

(** X9: a whole number with its unit, shown and read again, comes back as
    it was: for [0 <= n < 2^53] and a unit in normal form that starts
    neither with a digit nor with a slash, [parse_quantity] of the text
    [format_scaled_quantity] makes gives the same magnitude and unit. *)
Theorem whole_quantity_round_trip (n : Z) (x : float) (u : str) :
  0 <= n < 2 ^ 53 ->
  PyFloat.of_int n = Ok x ->
  normalize u = u ->
  starts_with isdecimal u = false ->
  starts_with (Ascii.eqb "/") u = false ->
  exists shown,
    format_scaled_quantity (Some x) u = Ok shown
    /\ parse_quantity shown = Ok (Some x, u).
Proof.
  intros B X N Dg Sl. rewrite of_int_whole in X by lia. injection X as <-.
  exists (strip (str_of_int n ++ " "%char :: u)). split.
  - apply format_whole. lia.
  - now apply parse_whole.
Qed.

Lemma whole_quantity_round_trip_witness :
  exists shown,
    format_scaled_quantity (Some (PyFloat.of_decimal 3 0)) "large eggs"%string
    = Ok shown
    /\ parse_quantity shown
       = Ok (Some (PyFloat.of_decimal 3 0), str_of_string "large eggs").
Proof.
  apply (@whole_quantity_round_trip 3 (PyFloat.of_decimal 3 0)
           (str_of_string "large eggs"));
    solve [vm_compute; reflexivity | lia].
Defined.

(** ** Dyadic numbers are floats *)

Lemma shl_align_dyadic p z :
  Zpos (digits2_pos p) <= 53 ->
  exists m,
    shl_align p z (z + Zpos (digits2_pos p) - 53)
    = (m, z + Zpos (digits2_pos p) - 53)
    /\ Zpos m = Zpos p * 2 ^ (53 - Zpos (digits2_pos p))
    /\ Zpos (digits2_pos m) = 53.
Proof.
  intros D. unfold shl_align.
  destruct (z + Zpos (digits2_pos p) - 53 - z) as [|k|k] eqn:E; try lia.
  - exists p. replace (z + Zpos (digits2_pos p) - 53) with z by lia.
    replace (53 - Zpos (digits2_pos p)) with 0 by lia.
    split; [reflexivity|]. split; lia.
  - exists (Pos.iter xO p k). split; [reflexivity|].
    pose proof (shl_pos p k) as S.
    replace (53 - Zpos (digits2_pos p)) with (Zpos k) by lia.
    split; [exact S|].
    rewrite (@digits2_shift p (Zpos k) _ ltac:(lia) S). lia.
Qed.

Lemma dyadic_float_eq s p z :
  Zpos (digits2_pos p) <= 53 ->
  exists m,
    dyadic_float s p z = S754_finite s m (z + Zpos (digits2_pos p) - 53)
    /\ Zpos m = Zpos p * 2 ^ (53 - Zpos (digits2_pos p))
    /\ Zpos (digits2_pos m) = 53.
Proof.
  intros D. destruct (shl_align_dyadic p z D) as (m & S & M & Dm).
  exists m. unfold dyadic_float. rewrite S. now split.
Qed.

Lemma dyadic_whole s p : dyadic_float s p 0 = whole_float s p.
Proof. reflexivity. Qed.

(** Two floats with 53-bit mantissas of the same value and the same
    exponent are the same float. *)
Lemma finite_eq s m e m' e' :
  Zpos m = Zpos m' -> e = e' -> S754_finite s m e = S754_finite s m' e'.
Proof. intros M ->. injection M as ->. reflexivity. Qed.

(** A factor of two moves from the number to the exponent. *)
Lemma dyadic_double s p z :
  Zpos p < 2 ^ 52 ->
  dyadic_float s (p~0) z = dyadic_float s p (z + 1).
Proof.
  intros B.
  assert (D2 : Zpos (digits2_pos p~0) = Zpos (digits2_pos p) + 1).
  { cbn [digits2_pos]. lia. }
  assert (Dp : Zpos (digits2_pos p) <= 52).
  { pose proof (digits2_bounds p) as [L _].
    destruct (Z_le_gt_dec (Zpos (digits2_pos p)) 52) as [|G]; [assumption|].
    assert (2 ^ 52 <= 2 ^ (Zpos (digits2_pos p) - 1))
      by (apply Z.pow_le_mono_r; lia).
    lia. }
  destruct (dyadic_float_eq s p~0 z ltac:(lia)) as (m & -> & M & _).
  destruct (dyadic_float_eq s p (z + 1) ltac:(lia)) as (m' & -> & M' & _).
  apply finite_eq; [|lia].
  rewrite M, M', D2.
  change (Zpos p~0) with (2 * Zpos p).
  replace (53 - Zpos (digits2_pos p)) with (Z.succ (53 - (Zpos (digits2_pos p) + 1))) by lia.
  rewrite Z.pow_succ_r by lia. ring.
Qed.

Lemma dyadic_shift s p k :
  0 <= k -> Zpos p * 2 ^ k < 2 ^ 53 ->
  forall z q, Zpos q = Zpos p * 2 ^ k ->
  dyadic_float s q z = dyadic_float s p (z + k).
Proof.
  intros Hk. pattern k. apply natlike_ind; [| |exact Hk].
  - intros _ z q Q. rewrite Z.mul_1_r in Q. injection Q as ->.
    now rewrite Z.add_0_r.
  - intros x Hx IH B z q Q.
    rewrite Z.pow_succ_r in B, Q by lia.
    assert (P2 : 0 < 2 ^ x) by (apply Z.pow_pos_nonneg; lia).
    destruct q as [q|q|]; try lia.
    rewrite dyadic_double by lia.
    replace (z + Z.succ x) with (z + 1 + x) by lia.
    apply IH; lia.
Qed.

(** Rounding a number of at most 53 bits, with zeros after it. *)
Lemma binary_round_dyadic s m p t e :
  Zpos m = Zpos p * 2 ^ t -> 0 <= t ->
  Zpos (digits2_pos p) <= 53 -> -1000 <= e + t <= 900 ->
  binary_round PyFloat.prec PyFloat.emax s m e = dyadic_float s p (e + t).
Proof.
  intros M Ht Dp R.
  destruct (dyadic_float_eq s p (e + t) Dp) as (q & -> & Q & Dq).
  pose proof (@digits2_shift p t m Ht M) as Dm.
  unfold binary_round. rewrite fexp_eq, Dm.
  rewrite Z.max_l by lia.
  unfold shl_align.
  destruct (Zpos (digits2_pos p) + t + e - 53 - e) as [|k|k] eqn:K.
  - assert (Zpos m = Zpos q) by (rewrite M, Q; f_equal; f_equal; lia).
    rewrite round_aux_canonical by (apply canonical_eq; lia).
    destruct (e <=? 971) eqn:L; [|apply Z.leb_gt in L; lia].
    apply finite_eq; lia.
  - replace (Zpos m) with (Zpos q * 2 ^ Zpos k).
    + rewrite round_aux_shift; [|lia|apply canonical_eq; lia].
      destruct (_ <=? 971) eqn:L; [|apply Z.leb_gt in L; lia].
      apply finite_eq; lia.
    + rewrite M, Q, <- Z.mul_assoc, <- Z.pow_add_r by lia.
      f_equal. f_equal. lia.
  - pose proof (shl_pos m k) as S.
    rewrite round_aux_canonical.
    + destruct (_ <=? 971) eqn:L; [|apply Z.leb_gt in L; lia].
      apply finite_eq; [|lia].
      rewrite S, M, Q, <- Z.mul_assoc, <- Z.pow_add_r by lia.
      f_equal. f_equal. lia.
    + apply canonical_eq.
      rewrite (@digits2_shift m (Zpos k) _ ltac:(lia) S). lia.
Qed.

(** The product of two dyadic numbers, when it fits the mantissa. *)
Lemma mul_dyadic sa a z sb b w :
  Zpos a * Zpos b < 2 ^ 53 -> -1000 <= z + w <= 900 ->
  PyFloat.mul (dyadic_float sa a z) (dyadic_float sb b w)
  = dyadic_float (xorb sa sb) (a * b) (z + w).
Proof.
  intros B R.
  assert (Ba : Zpos a < 2 ^ 53) by nia.
  assert (Bb : Zpos b < 2 ^ 53) by nia.
  pose proof (@digits_small a Ba) as Da.
  pose proof (@digits_small b Bb) as Db.
  pose proof (@digits_small (a * b) B) as Dab.
  destruct (dyadic_float_eq sa a z Da) as (ma & -> & Ma & Dma).
  destruct (dyadic_float_eq sb b w Db) as (mb & -> & Mb & Dmb).
  destruct (dyadic_float_eq (xorb sa sb) (a * b) (z + w) Dab)
    as (mab & -> & Mab & Dmab).
  pose proof (digits2_mul a b) as [Lo _].
  set (da := Zpos (digits2_pos a)) in *.
  set (db := Zpos (digits2_pos b)) in *.
  set (dab := Zpos (digits2_pos (a * b))) in *.
  unfold PyFloat.mul, SFmul.
  set (n := 53 - da - db + dab).
  assert (E : Zpos (ma * mb) = Zpos mab * 2 ^ n).
  { rewrite Pos2Z.inj_mul, Ma, Mb, Mab, Pos2Z.inj_mul.
    replace (Zpos a * Zpos b * 2 ^ (53 - dab) * 2 ^ n)
      with (Zpos a * Zpos b * (2 ^ (53 - dab) * 2 ^ n)) by ring.
    rewrite <- Z.pow_add_r by lia.
    replace (Zpos a * 2 ^ (53 - da) * (Zpos b * 2 ^ (53 - db)))
      with (Zpos a * Zpos b * (2 ^ (53 - da) * 2 ^ (53 - db))) by ring.
    rewrite <- Z.pow_add_r by lia.
    f_equal. f_equal. lia. }
  rewrite E.
  rewrite round_aux_shift.
  - destruct (_ <=? 971) eqn:L; [|apply Z.leb_gt in L; lia].
    apply finite_eq; lia.
  - lia.
  - apply canonical_eq. lia.
Qed.

(** A quotient by a power of two times the divisor of a whole quotient. *)
Lemma div_dyadic s1 s2 k o d i :
  Zpos k < 2 ^ 53 -> 0 <= i <= 900 -> Zpos d = Zpos o * 2 ^ i ->
  SFdiv PyFloat.prec PyFloat.emax
    (S754_finite s1 (k * o) 0) (S754_finite s2 d 0)
  = dyadic_float (xorb s1 s2) k (- i).
Proof.
  intros B Hi Ed. pose proof (@digits_small k B) as Dk.
  destruct (dyadic_float_eq (xorb s1 s2) k (- i) Dk) as (m & -> & M & Dm).
  pose proof (digits2_mul k o) as [Lo Hi'].
  pose proof (@digits2_shift o i d ltac:(lia) Ed) as Dd.
  unfold SFdiv, SFdiv_core_binary. cbn [Zdigits2].
  rewrite fexp_eq, !Z.add_0_r, Z.sub_diag.
  set (dk := Zpos (digits2_pos k)) in *.
  set (d1 := Zpos (digits2_pos (k * o))) in *.
  set (d2 := Zpos (digits2_pos d)) in *.
  set (do := Zpos (digits2_pos o)) in *.
  rewrite Z.max_l by lia. rewrite Z.min_l by lia.
  replace (0 - (d1 - d2 - 53)) with (53 - (d1 - d2)) by lia.
  assert (P2 : 0 < 2 ^ i) by (apply Z.pow_pos_nonneg; lia).
  assert (Q : forall sh, i <= sh -> sh = 53 - (d1 - d2) ->
              binary_round_aux PyFloat.prec PyFloat.emax (xorb s1 s2)
                (Zpos k * 2 ^ (sh - i)) (d1 - d2 - 53) loc_Exact
              = S754_finite (xorb s1 s2) m (- i + dk - 53)).
  { intros sh Hsh Esh.
    replace (Zpos k * 2 ^ (sh - i)) with (Zpos m * 2 ^ (dk - (d1 - do))).
    - rewrite round_aux_shift.
      + destruct (_ <=? 971) eqn:L; [|apply Z.leb_gt in L; lia].
        apply finite_eq; lia.
      + lia.
      + apply canonical_eq. lia.
    - rewrite M, <- Z.mul_assoc, <- Z.pow_add_r by lia.
      f_equal. f_equal. lia. }
  assert (Split : forall sh, i <= sh ->
            Zpos k * Zpos o * 2 ^ sh = Zpos k * 2 ^ (sh - i) * Zpos d).
  { intros sh Hsh. rewrite Ed.
    replace sh with ((sh - i) + i) at 1 by lia.
    rewrite Z.pow_add_r by lia. ring. }
  destruct (53 - (d1 - d2)) as [|sh|sh] eqn:S; try lia.
  - assert (i = 0) by lia. subst i.
    rewrite Pos2Z.inj_mul.
    rewrite <- (Z.mul_1_r (Zpos k * Zpos o)). change 1 with (2 ^ 0) at 1.
    rewrite Split, div_eucl_mul, new_location_exact by lia.
    apply Q; lia.
  - rewrite Z.shiftl_mul_pow2, Pos2Z.inj_mul by lia.
    rewrite Split, div_eucl_mul, new_location_exact by lia.
    apply Q; lia.
Qed.

Lemma is_finite_dyadic s p z : PyFloat.is_finite (dyadic_float s p z) = true.
Proof. unfold dyadic_float. now destruct (shl_align _ _ _). Qed.

Lemma truediv_dyadic k o i :
  0 < k < 2 ^ 53 -> 0 < o -> 0 <= i <= 900 ->
  PyFloat.truediv (k * o) (2 ^ i * o)
  = Ok (dyadic_float false (Z.to_pos k) (- i)).
Proof.
  intros Hk Ho Hi. unfold PyFloat.truediv.
  assert (P2 : 0 < 2 ^ i) by (apply Z.pow_pos_nonneg; lia).
  rewrite (proj2 (Z.eqb_neq (2 ^ i * o) 0)) by nia.
  unfold PyFloat.quotient.
  destruct k as [|k|k]; try lia. destruct o as [|o|o]; try lia.
  cbn [Z.mul Z.to_pos].
  destruct (2 ^ i * Zpos o) as [|d|d] eqn:D; try nia.
  cbn [Z.ltb Z.compare Z.abs Z.to_pos].
  rewrite (@div_dyadic false false k o d i); [|lia|lia|lia].
  now rewrite is_finite_dyadic.
Qed.

(** The integer part of a dyadic number. *)
Lemma to_int_dyadic s p i :
  Zpos p < 2 ^ 53 -> 0 <= i ->
  PyFloat.to_int (dyadic_float s p (- i)) = Ok (cond_Zopp s (Zpos p / 2 ^ i)).
Proof.
  intros B Hi. pose proof (@digits_small p B) as D.
  destruct (dyadic_float_eq s p (- i) D) as (m & -> & M & _).
  cbn [PyFloat.to_int]. f_equal. f_equal.
  replace (- i + Zpos (digits2_pos p) - 53)
    with (- (i + (53 - Zpos (digits2_pos p)))) by lia.
  rewrite Z.shiftl_div_pow2, Z.opp_involutive by lia.
  rewrite M, Z.pow_add_r by lia.
  apply Z.div_mul_cancel_r; apply Z.pow_nonzero; lia.
Qed.

(** ** The fraction of a dyadic number *)

Lemma digits2_div r i a :
  0 <= i -> Zpos a = Zpos r / 2 ^ i ->
  Zpos (digits2_pos a) = Zpos (digits2_pos r) - i.
Proof.
  intros Hi A. pose proof (digits2_bounds r) as [L U].
  assert (P2 : 0 < 2 ^ i) by (apply Z.pow_pos_nonneg; lia).
  assert (Ge : 2 ^ i <= Zpos r).
  { destruct (Z_le_gt_dec (2 ^ i) (Zpos r)) as [|G]; [assumption|].
    rewrite Z.div_small in A by lia. lia. }
  assert (Di : i < Zpos (digits2_pos r)).
  { apply (Z.pow_lt_mono_r_iff 2); lia. }
  apply digits2_unique. rewrite A. split.
  - apply Z.div_le_lower_bound; [lia|].
    rewrite <- Z.pow_add_r by lia.
    replace (i + (Zpos (digits2_pos r) - i - 1))
      with (Zpos (digits2_pos r) - 1) by lia.
    exact L.
  - apply Z.div_lt_upper_bound; [lia|].
    rewrite <- Z.pow_add_r by lia.
    replace (i + (Zpos (digits2_pos r) - i)) with (Zpos (digits2_pos r)) by lia.
    exact U.
Qed.

Lemma frac_dyadic r i :
  Zpos r < 2 ^ 53 -> 0 <= i <= 900 ->
  PyFloat.sub (dyadic_float false r (- i)) (float_of_whole (Zpos r / 2 ^ i))
  = match Zpos r mod 2 ^ i with
    | Zpos j => dyadic_float false j (- i)
    | _ => PyFloat.zero
    end.
Proof.
  intros B Hi.
  assert (P2 : 0 < 2 ^ i) by (apply Z.pow_pos_nonneg; lia).
  pose proof (Z.div_mod (Zpos r) (2 ^ i) ltac:(lia)) as DM.
  pose proof (Z.mod_pos_bound (Zpos r) (2 ^ i) P2) as MB.
  pose proof (Z.div_pos (Zpos r) (2 ^ i) ltac:(lia) P2) as DP.
  pose proof (@digits_small r B) as Dr.
  destruct (Zpos r / 2 ^ i) as [|a|a] eqn:A; try lia.
  - cbn [float_of_whole].
    replace (Zpos r mod 2 ^ i) with (Zpos r) by lia.
    unfold dyadic_float. destruct (shl_align _ _ _). reflexivity.
  - cbn [float_of_whole]. rewrite <- dyadic_whole.
    pose proof (@digits2_div r i a (proj1 Hi) (eq_sym A)) as Da.
    assert (Ba : Zpos a < 2 ^ 53) by nia.
    destruct (dyadic_float_eq false r (- i) Dr) as (mr & -> & Mr & _).
    destruct (dyadic_float_eq false a 0 (@digits_small a Ba))
      as (ma & -> & Ma & _).
    rewrite Da in *.
    replace (0 + (Zpos (digits2_pos r) - i) - 53)
      with (- i + Zpos (digits2_pos r) - 53) by lia.
    unfold PyFloat.sub, SFsub. rewrite Z.min_id.
    unfold shl_align. rewrite Z.sub_diag. cbn [fst cond_Zopp].
    assert (E : Zpos mr - Zpos ma
                = (Zpos r mod 2 ^ i) * 2 ^ (53 - Zpos (digits2_pos r))).
    { rewrite Mr, Ma.
      replace (53 - (Zpos (digits2_pos r) - i))
        with (i + (53 - Zpos (digits2_pos r))) by lia.
      rewrite Z.pow_add_r by lia. 
      replace (Zpos r mod 2 ^ i) with (Zpos r - 2 ^ i * Zpos a) by lia.
      ring. }
    rewrite E.
    destruct (Zpos r mod 2 ^ i) as [|j|j] eqn:J; try lia; [reflexivity|].
    assert (P3 : 0 < 2 ^ (53 - Zpos (digits2_pos r)))
      by (apply Z.pow_pos_nonneg; lia).
    destruct (Zpos j * 2 ^ (53 - Zpos (digits2_pos r))) as [|m|m] eqn:M;
      try nia.
    cbn [binary_normalize].
    rewrite (@binary_round_dyadic false m j (53 - Zpos (digits2_pos r)));
      [f_equal; lia | lia | lia | apply digits_small; lia | lia].
Qed.

Lemma formatted_num_quarters t :
  0 < t < 2 ^ 53 ->
  formatted_num (dyadic_float false (Z.to_pos t) (- 2)) = Ok (quarters_text t).
Proof.
  intros B. destruct t as [|r|r]; try lia. cbn [Z.to_pos].
  change (-2) with (Z.opp 2).
  unfold formatted_num.
  rewrite (@to_int_dyadic false r 2) by lia. cbn [bind cond_Zopp].
  assert (Q : 0 <= Zpos r / 2 ^ 2 < 2 ^ 53).
  { split; [apply Z.div_pos; lia|].
    apply Z.div_lt_upper_bound; lia. }
  rewrite of_int_whole by lia. cbn [bind].
  rewrite (@frac_dyadic r 2) by lia.
  unfold quarters_text. change (2 ^ 2) with 4.
  pose proof (Z.mod_pos_bound (Zpos r) 4 ltac:(lia)) as MB.
  destruct (Zpos r mod 4) as [|j|j]; try lia; [reflexivity|].
  assert (C : (j = 1 \/ j = 2 \/ j = 3)%positive) by lia.
  destruct C as [->|[->| ->]]; reflexivity.
Qed.

(** ** Quantities and factors in quarters *)

Lemma eqb_finite_same s m e m' e' :
  PyFloat.eqb (S754_finite s m e) (S754_finite s m' e') = true ->
  e = e' /\ m = m'.
Proof.
  unfold PyFloat.eqb, SFeqb, SFcompare.
  destruct s; destruct (e ?= e') eqn:C; try discriminate;
    destruct (Pos.compare_cont Eq m m') eqn:M; try discriminate; intros _;
    (split; [now apply Z.compare_eq | now apply Pos.compare_eq]).
Qed.

Lemma quarters_not_one k :
  Zpos k < 2 ^ 53 -> Zpos k <> 4 ->
  PyFloat.eqb (dyadic_float false k (-2)) PyFloat.one = false.
Proof.
  intros B N.
  destruct (dyadic_float_eq false k (-2) (@digits_small k B))
    as (m & -> & M & _).
  destruct (PyFloat.eqb _ _) eqn:E; [|reflexivity].
  apply eqb_finite_same in E. destruct E as [E ->].
  assert (D : Zpos (digits2_pos k) = 3) by lia.
  rewrite D in M. simpl in M. lia.
Qed.

Lemma truediv_quarters k o :
  0 < k < 2 ^ 53 -> 0 < o ->
  PyFloat.truediv (k * o) (4 * o) = Ok (dyadic_float false (Z.to_pos k) (-2)).
Proof.
  intros B Ho. exact (@truediv_dyadic k o 2 B Ho ltac:(lia)).
Qed.

Lemma mul_quarters r k t :
  0 < r -> 0 < k -> r * k = 4 * t -> r * k < 2 ^ 53 ->
  PyFloat.mul (dyadic_float false (Z.to_pos r) (-2))
              (dyadic_float false (Z.to_pos k) (-2))
  = dyadic_float false (Z.to_pos t) (-2).
Proof.
  intros Hr Hk E B.
  destruct r as [|r|r]; try lia. destruct k as [|k|k]; try lia.
  destruct t as [|t|t]; try lia. cbn [Z.to_pos].
  rewrite mul_dyadic by (try rewrite <- Pos2Z.inj_mul; lia).
  cbn [xorb].
  apply (@dyadic_shift false t 2 ltac:(lia) ltac:(lia) (-2 + -2) (r * k)%positive).
  rewrite Pos2Z.inj_mul. lia.
Qed.

Lemma formatted_quarters t u :
  0 < t < 2 ^ 53 ->
  format_scaled_quantity (Some (dyadic_float false (Z.to_pos t) (-2))) u
  = Ok (strip (quarters_text t ++ " "%char :: u)).
Proof.
  intros B. unfold format_scaled_quantity.
  now rewrite formatted_num_quarters by exact B.
Qed.

(** X10: a magnitude of [t] quarters, [0 < t < 2^53], is shown as its
    whole part and the fraction 1/4, 1/2 or 3/4, or as the whole part
    alone when [t] is a multiple of four; a value below one is shown as
    the fraction alone. *)
Theorem quarters_shown_as_fractions (t : Z) (x : float) (u : str) :
  0 < t < 2 ^ 53 ->
  PyFloat.truediv t 4 = Ok x ->
  format_scaled_quantity (Some x) u
  = Ok (strip (quarters_text t ++ " "%char :: u)).
Proof.
  intros B X.
  pose proof (@truediv_quarters t 1 B ltac:(lia)) as X'.
  rewrite Z.mul_1_r in X'. change (4 * 1) with 4 in X'.
  rewrite X' in X. injection X as <-. now apply formatted_quarters.
Qed.

Lemma quarters_shown_as_fractions_witness :
  format_scaled_quantity (Some (PyFloat.of_decimal 175 2)) "cups"%string
  = Ok (strip (quarters_text 7 ++ " "%char :: str_of_string "cups")).
Proof.
  apply (@quarters_shown_as_fractions 7 (PyFloat.of_decimal 175 2));
    solve [lia | vm_compute; reflexivity].
Defined.

(** ** Sums of dyadic numbers *)

Lemma shl_align_fst m e ez :
  ez <= e -> Zpos (fst (shl_align m e ez)) = Zpos m * 2 ^ (e - ez).
Proof.
  intros H. unfold shl_align.
  destruct (ez - e) as [|k|k] eqn:K; try lia; cbn [fst].
  - replace (e - ez) with 0 by lia. lia.
  - rewrite shl_pos. f_equal. f_equal. lia.
Qed.

(** The sum of two dyadic numbers, when it fits the mantissa. *)
Lemma add_dyadic a z b w c :
  w <= z -> Zpos c = Zpos a * 2 ^ (z - w) + Zpos b -> Zpos c < 2 ^ 53 ->
  -900 <= w -> z <= 900 ->
  PyFloat.add (dyadic_float false a z) (dyadic_float false b w)
  = dyadic_float false c w.
Proof.
  intros Hw C Bc Lw Uz.
  assert (P2 : 0 < 2 ^ (z - w)) by (apply Z.pow_pos_nonneg; lia).
  assert (Ba : Zpos a < 2 ^ 53) by nia.
  assert (Bb : Zpos b < 2 ^ 53) by nia.
  pose proof (@digits_small a Ba) as Da.
  pose proof (@digits_small b Bb) as Db.
  pose proof (@digits_small c Bc) as Dc.
  destruct (dyadic_float_eq false a z Da) as (ma & -> & Ma & _).
  destruct (dyadic_float_eq false b w Db) as (mb & -> & Mb & _).
  set (ea := z + Zpos (digits2_pos a) - 53).
  set (eb := w + Zpos (digits2_pos b) - 53).
  unfold PyFloat.add, SFadd. cbn [cond_Zopp].
  set (ez := Z.min ea eb).
  rewrite !shl_align_fst by (unfold ez; lia).
  assert (E : Zpos ma * 2 ^ (ea - ez) + Zpos mb * 2 ^ (eb - ez)
              = Zpos c * 2 ^ (w - ez)).
  { rewrite Ma, Mb, C, <- !Z.mul_assoc, <- !Z.pow_add_r by (unfold ea, eb, ez; lia).
    rewrite Z.mul_add_distr_r, <- Z.mul_assoc, <- Z.pow_add_r by (unfold ez, eb; lia).
    f_equal; f_equal; f_equal; unfold ea, eb; lia. }
  rewrite E.
  assert (P3 : 0 < 2 ^ (w - ez)) by (apply Z.pow_pos_nonneg; unfold ez, eb; lia).
  destruct (Zpos c * 2 ^ (w - ez)) as [|m|m] eqn:M; try nia.
  cbn [binary_normalize].
  rewrite (@binary_round_dyadic false m c (w - ez));
    [f_equal; lia | lia | unfold ez, eb; lia | exact Dc | lia].
Qed.

Lemma of_decimal_dyadic n :
  0 < n < 2 ^ 53 ->
  PyFloat.of_decimal n 0 = dyadic_float false (Z.to_pos n) 0.
Proof.
  intros B. rewrite of_decimal_whole by lia.
  destruct n as [|p|p]; try lia. reflexivity.
Qed.

(** A whole number and a half or some quarters are read exactly. *)
Lemma add_quarters n a b q :
  0 <= n -> (b = 2 \/ b = 4) -> 0 < a < b ->
  4 * n + a * (4 / b) < 2 ^ 53 ->
  PyFloat.truediv a b = Ok q ->
  PyFloat.truediv (4 * n + a * (4 / b)) 4
  = Ok (PyFloat.add (PyFloat.of_decimal n 0) q).
Proof.
  intros Hn Hb Ha B Q.
  set (j := a * (4 / b)) in *.
  assert (J : 0 < j < 4 /\ a * 4 = j * b).
  { unfold j. destruct Hb as [-> | ->].
    - change (4 / 2) with 2. lia.
    - change (4 / 4) with 1. lia. }
  destruct J as [J Jb].
  assert (Qj : q = dyadic_float false (Z.to_pos j) (-2)).
  { assert (T : PyFloat.truediv a b = PyFloat.truediv j 4).
    { destruct Hb as [-> | ->].
      - assert (a = 1) by lia. subst a. assert (j = 2) by lia.
        subst j. replace (1 * (4 / 2)) with 2 by reflexivity.
        vm_compute. reflexivity.
      - f_equal. lia. }
    rewrite T in Q.
    pose proof (@truediv_quarters j 1 ltac:(lia) ltac:(lia)) as X.
    rewrite Z.mul_1_r in X. change (4 * 1) with 4 in X.
    rewrite X in Q. now injection Q. }
  subst q.
  pose proof (@truediv_quarters (4 * n + j) 1 ltac:(lia) ltac:(lia)) as X.
  rewrite Z.mul_1_r in X. change (4 * 1) with 4 in X. rewrite X. f_equal.
  destruct (Z.eq_dec n 0) as [->|Nz].
  - change (PyFloat.of_decimal 0 0) with (S754_zero false).
    replace (4 * 0 + j) with j by lia.
    unfold dyadic_float. now destruct (shl_align _ _ _).
  - rewrite of_decimal_dyadic by lia. symmetry.
    destruct n as [|p|p]; try lia. destruct j as [|i|i]; try lia.
    destruct (4 * Zpos p + Zpos i) as [|c|c] eqn:C; try lia.
    cbn [Z.to_pos].
    apply add_dyadic; lia.
Qed.

(** ** Halves and quarters, shown and read back *)

Lemma take_while_stop p (a b : str) :
  forallb p a = true -> starts_with p b = false -> take_while p (a ++ b) = a.
Proof.
  intros A B. induction a as [|x t IH]; cbn [app].
  - destruct b as [|c r]; [reflexivity|]. cbn in B. cbn. now rewrite B.
  - cbn [forallb] in A. apply andb_true_iff in A. destruct A as [X T].
    cbn [take_while]. now rewrite X, IH.
Qed.

Lemma drop_while_stop p (a b : str) :
  forallb p a = true -> starts_with p b = false -> drop_while p (a ++ b) = b.
Proof.
  intros A B. rewrite drop_while_all by exact A.
  destruct b as [|c r]; [reflexivity|]. cbn in B. cbn. now rewrite B.
Qed.

Lemma starts_with_app p (a b : str) :
  a <> [] -> starts_with p (a ++ b) = starts_with p a.
Proof. destruct a; [congruence | reflexivity]. Qed.

Lemma starts_digit_not_space (d : str) :
  all_decimal d = true -> starts_with isspace d = false.
Proof.
  destruct d as [|c t]; [reflexivity|]. cbn [all_decimal forallb starts_with].
  intros H. apply andb_true_iff in H. now apply decimal_not_space.
Qed.

(** The pattern finds a fraction that is followed by no digit. *)
Lemma scan_fraction_text (whole ws num den r : str) :
  whole <> [] -> all_decimal whole = true ->
  forallb isspace ws = true ->
  all_decimal num = true -> (ws = [] -> num = []) ->
  den <> [] -> all_decimal den = true ->
  starts_with isdecimal r = false ->
  numeric_prefix (whole ++ ws ++ num ++ "/"%char :: den ++ r)
  = Some (whole ++ ws ++ num ++ "/"%char :: den).
Proof.
  intros Hw W Ws N Wn Hd D R.
  rewrite numeric_prefix_scans. unfold Scan.numeric_prefix, Scan.fraction.
  assert (S1 : starts_with isdecimal (ws ++ num ++ "/"%char :: den ++ r) = false).
  { destruct ws as [|c t].
    - rewrite (Wn eq_refl). reflexivity.
    - cbn [app starts_with]. cbn [forallb] in Ws.
      apply andb_true_iff in Ws. now apply space_not_decimal. }
  assert (S2 : starts_with isspace (num ++ "/"%char :: den ++ r) = false).
  { destruct num as [|c t]; [reflexivity|].
    cbn [app starts_with]. cbn [all_decimal forallb] in N.
    apply andb_true_iff in N. now apply decimal_not_space. }
  rewrite (@take_while_stop isdecimal whole _ W S1).
  rewrite (@drop_while_stop isdecimal whole _ W S1).
  rewrite (@take_while_stop isspace ws _ Ws S2).
  rewrite (@drop_while_stop isspace ws _ Ws S2).
  rewrite (@take_while_stop isdecimal num ("/"%char :: den ++ r) N eq_refl).
  rewrite (@drop_while_stop isdecimal num ("/"%char :: den ++ r) N eq_refl).
  rewrite (@take_while_stop isdecimal den r D R).
  rewrite Ascii.eqb_refl.
  destruct whole; [congruence|]. destruct den; [congruence|].
  reflexivity.
Qed.

Lemma strip_rest (u : str) :
  strip u = u -> strip (if nonempty u then " "%char :: u else []) = u.
Proof.
  intros S. destruct u as [|c t]; [reflexivity|]. cbn [nonempty].
  unfold strip. change (lstrip (" "%char :: c :: t)) with (lstrip (c :: t)).
  exact S.
Qed.

Lemma lower_rest (u : str) :
  lower u = u ->
  lower (if nonempty u then " "%char :: u else []) 
  = if nonempty u then " "%char :: u else [].
Proof.
  intros L. destruct u as [|c t]; [reflexivity|]. cbn [nonempty].
  unfold lower in *. cbn [map] in *.
  change (lower_char " ") with " "%char. now rewrite L.
Qed.

Lemma lower_app (a b : str) : lower (a ++ b) = lower a ++ lower b.
Proof. apply map_app. Qed.

Lemma lower_fraction (num den : str) :
  all_decimal num = true -> all_decimal den = true ->
  lower (num ++ "/"%char :: den) = num ++ "/"%char :: den.
Proof.
  intros N D. rewrite lower_app, lower_digits by exact N. f_equal.
  change (lower ("/"%char :: den)) with ("/"%char :: lower den).
  now rewrite lower_digits.
Qed.

Lemma fraction_text_trimmed (num den : str) :
  num <> [] -> all_decimal num = true ->
  den <> [] -> all_decimal den = true ->
  trimmed (num ++ "/"%char :: den).
Proof.
  intros Hn N Hd D.
  pose proof (@Fraction_shape (num ++ [] ++ "/"%char :: den) num [] den
                eq_refl Hn N Hd D) as Sh.
  exact (prefix_shape_trimmed Sh).
Qed.

(** The text that [format_scaled_quantity] makes of a whole part [a], a
    fraction and a unit, read by [parse_quantity]. *)
Lemma parse_shown_fraction a (frac : string) (num den u : str) :
  0 <= a ->
  str_of_string frac = num ++ "/"%char :: den ->
  num <> [] -> all_decimal num = true ->
  den <> [] -> all_decimal den = true ->
  normalize u = u ->
  parse_quantity (strip (whole_and a frac ++ " "%char :: u))
  = (q <- PyFloat.truediv (digits_val num) (digits_val den) ;;
     Ok (Some (if 0 <? a
               then PyFloat.add (PyFloat.of_decimal a 0) q
               else q), u)).
Proof.
  intros Ha F Hn N Hd D Nu.
  destruct (normal_unit Nu) as (Lu & Su & Sp & Eu).
  pose proof (fraction_text_trimmed Hn N Hd D) as Tf. rewrite <- F in Tf.
  pose proof (@whole_and_trimmed a frac Tf) as Tw.
  rewrite number_and_unit by assumption.
  set (R := if nonempty u then " "%char :: u else []).
  assert (SR : starts_with isdecimal R = false).
  { unfold R. now destruct u. }
  destruct (str_of_int_digits Ha) as [Da Va].
  pose proof (str_of_int_nonempty a) as Na.
  destruct (0 <? a) eqn:Pa.
  - assert (W : whole_and a frac
                = str_of_int a ++ [" "%char] ++ num ++ "/"%char :: den).
    { unfold whole_and. rewrite Pa, F.
      rewrite strip_number_unit;
        [reflexivity | apply str_of_int_trimmed | now rewrite <- F]. }
    rewrite W in *. clear W.
    set (pre := str_of_int a ++ [" "%char] ++ num ++ "/"%char :: den) in *.
    assert (Nt : normalize (pre ++ R) = pre ++ R).
    { unfold normalize.
      assert (St : strip (pre ++ R) = pre ++ R).
      { unfold R. rewrite <- number_and_unit by assumption. apply strip_idem. }
      rewrite St, lower_app. unfold R. rewrite lower_rest by exact Lu.
      f_equal. unfold pre. rewrite lower_app, lower_digits by exact Da.
      f_equal. rewrite lower_app, lower_fraction by assumption.
      reflexivity. }
    assert (P : numeric_prefix (normalize (pre ++ R)) = Some pre).
    { rewrite Nt. unfold pre. rewrite <- !app_assoc. cbn [app].
      rewrite <- (app_nil_l (" "%char :: num ++ "/"%char :: den ++ R)).
      change (str_of_int a ++ [] ++ " "%char :: num ++ "/"%char :: den ++ R)
        with (str_of_int a ++ [" "%char] ++ num ++ "/"%char :: den ++ R).
      now rewrite scan_fraction_text. }
    rewrite (@parse_mixed (pre ++ R) (str_of_int a) [" "%char] num den P);
      trivial.
    rewrite Va, Nt. unfold slice_from. fold pre. rewrite skipn_prefix.
    unfold R. now rewrite strip_rest.
  - assert (W : whole_and a frac = num ++ "/"%char :: den).
    { unfold whole_and. rewrite Pa, F. cbn [app].
      unfold strip.
      change (lstrip (" "%char :: num ++ "/"%char :: den))
        with (lstrip (num ++ "/"%char :: den)).
      rewrite <- F. apply strip_id; apply Tf. }
    rewrite W in *. clear W.
    set (pre := num ++ "/"%char :: den) in *.
    assert (Nt : normalize (pre ++ R) = pre ++ R).
    { unfold normalize.
      assert (St : strip (pre ++ R) = pre ++ R).
      { unfold R. rewrite <- number_and_unit by assumption. apply strip_idem. }
      rewrite St, lower_app. unfold R. rewrite lower_rest by exact Lu.
      f_equal. now apply lower_fraction. }
    assert (P : numeric_prefix (normalize (pre ++ R)) = Some pre).
    { rewrite Nt. unfold pre. rewrite <- !app_assoc. cbn [app].
      pose proof (@scan_fraction_text num [] [] den R Hn N eq_refl eq_refl
                    (fun _ => eq_refl) Hd D SR) as S.
      exact S. }
    rewrite (@parse_simple_fraction (pre ++ R) num den P); trivial.
    rewrite Nt. unfold slice_from. fold pre. rewrite skipn_prefix.
    unfold R. now rewrite strip_rest.
Qed.

Lemma truediv_fractions :
  PyFloat.truediv 1 2 = Ok PyFloat.half
  /\ PyFloat.truediv 1 4 = Ok PyFloat.quarter
  /\ PyFloat.truediv 2 4 = Ok PyFloat.half
  /\ PyFloat.truediv 3 4 = Ok PyFloat.three_quarters.
Proof. repeat split; vm_compute; reflexivity. Qed.

Lemma truediv_fraction n d :
  0 < n < d -> (d = 2 \/ d = 4) ->
  exists q,
    PyFloat.truediv n d = Ok q
    /\ PyFloat.truediv (n * (4 / d)) 4 = Ok q.
Proof.
  intros Hn Hd.
  destruct truediv_fractions as (H12 & H14 & H24 & H34).
  destruct Hd as [-> | ->].
  - assert (n = 1) by lia. subst n. exists PyFloat.half. now split.
  - assert (C : n = 1 \/ n = 2 \/ n = 3) by lia.
    destruct C as [->|[->| ->]].
    + exists PyFloat.quarter. now split.
    + exists PyFloat.half. now split.
    + exists PyFloat.three_quarters. now split.
Qed.

Lemma shown_fraction_back a t (frac : string) (num den u : str) n d x :
  0 <= a -> 0 < n < d -> (d = 2 \/ d = 4) ->
  t = 4 * a + n * (4 / d) -> t < 2 ^ 53 ->
  PyFloat.truediv t 4 = Ok x ->
  str_of_string frac = num ++ "/"%char :: den ->
  num <> [] -> all_decimal num = true -> digits_val num = n ->
  den <> [] -> all_decimal den = true -> digits_val den = d ->
  normalize u = u ->
  parse_quantity (strip (whole_and a frac ++ " "%char :: u))
  = Ok (Some x, u).
Proof.
  intros Ha Hn Hd T B X F Nn N Vn Nd D Vd Nu.
  rewrite (@parse_shown_fraction a frac num den u) by assumption.
  rewrite Vn, Vd.
  destruct (truediv_fraction Hn Hd) as (q & Q & Q4).
  rewrite Q. cbn [bind].
  destruct (0 <? a) eqn:Pa.
  - pose proof (@add_quarters a n d q Ha Hd Hn ltac:(lia) Q) as A.
    rewrite <- T, X in A. now injection A as ->.
  - apply Z.ltb_ge in Pa. assert (a = 0) by lia. subst a.
    rewrite Z.mul_0_r, Z.add_0_l in T. subst t.
    rewrite Q4 in X. now injection X as ->.
Qed.

Lemma quarters_round_trip t x u :
  0 < t < 2 ^ 53 ->
  PyFloat.truediv t 4 = Ok x ->
  normalize u = u ->
  starts_with isdecimal u = false ->
  starts_with (Ascii.eqb "/") u = false ->
  exists shown,
    format_scaled_quantity (Some x) u = Ok shown
    /\ parse_quantity shown = Ok (Some x, u).
Proof.
  intros B X Nu Dg Sl.
  exists (strip (quarters_text t ++ " "%char :: u)). split.
  - pose proof (@truediv_quarters t 1 B ltac:(lia)) as X'.
    rewrite Z.mul_1_r in X'. change (4 * 1) with 4 in X'.
    rewrite X' in X. injection X as <-. now apply formatted_quarters.
  - pose proof (Z.div_mod t 4 ltac:(lia)) as DM.
    pose proof (Z.mod_pos_bound t 4 ltac:(lia)) as MB.
    assert (Ha : 0 <= t / 4) by (apply Z.div_pos; lia).
    unfold quarters_text.
    destruct (t mod 4) as [|j|j] eqn:J; try lia.
    + rewrite parse_whole by (trivial; lia).
      f_equal. f_equal. f_equal.
      assert (T : PyFloat.truediv (t / 4 * 4) 4 = Ok (float_of_whole (t / 4)))
        by (apply truediv_whole; lia).
      replace (t / 4 * 4) with t in T by lia.
      rewrite X in T. now injection T.
    + assert (C : (j = 1 \/ j = 2 \/ j = 3)%positive) by lia.
      destruct C as [->|[->| ->]].
      * apply (@shown_fraction_back (t / 4) t "1/4" "1"%string "4"%string u 1 4);
          first [assumption | discriminate | reflexivity | lia | now right].
      * apply (@shown_fraction_back (t / 4) t "1/2" "1"%string "2"%string u 1 2);
          first [assumption | discriminate | reflexivity | lia | now left
                | change (4 / 2) with 2; lia].
      * apply (@shown_fraction_back (t / 4) t "3/4" "3"%string "4"%string u 3 4);
          first [assumption | discriminate | reflexivity | lia | now right].
Qed.

(** X11: a quantity of halves or quarters with its unit, shown and read
    again, comes back as it was: for [0 < t < 2^53] quarters and a unit in
    normal form that starts neither with a digit nor with a slash,
    [parse_quantity] of the text [format_scaled_quantity] makes gives the
    same magnitude and unit. *)
Theorem quarter_quantity_round_trip (t : Z) (x : float) (u : str) :
  0 < t < 2 ^ 53 ->
  PyFloat.truediv t 4 = Ok x ->
  normalize u = u ->
  starts_with isdecimal u = false ->
  starts_with (Ascii.eqb "/") u = false ->
  exists shown,
    format_scaled_quantity (Some x) u = Ok shown
    /\ parse_quantity shown = Ok (Some x, u).
Proof. apply quarters_round_trip. Qed.

Lemma quarter_quantity_round_trip_witness :
  exists shown,
    format_scaled_quantity (Some (PyFloat.of_decimal 25 1)) "cups"%string
    = Ok shown
    /\ parse_quantity shown
       = Ok (Some (PyFloat.of_decimal 25 1), str_of_string "cups").
Proof.
  apply (@quarter_quantity_round_trip 10 (PyFloat.of_decimal 25 1)
           (str_of_string "cups"));
    solve [lia | vm_compute; reflexivity].
Defined.

(** * The ingredient list and the interface *)

(** ** The ingredient list *)

Lemma display_ingredients_cons name q rest f :
  display_ingredients ((name, q) :: rest) f
  = (shown <- display_quantity q f ;;
     others <- display_ingredients rest f ;;
     Ok ((name, shown) :: others)).
Proof. reflexivity. Qed.

(** X12: the ingredient loop finishes exactly when every quantity can be
    shown, and then it yields one line per ingredient, in the order of the
    recipe, with the name as it was and the quantity that
    [display_quantity] gives for that ingredient alone. *)
Theorem display_ingredients_line_by_line l f : forall out,
  display_ingredients l f = Ok out <->
  Forall2 (fun i o => fst o = fst i /\ display_quantity (snd i) f = Ok (snd o))
          l out.
Proof.
  induction l as [|[name q] rest IH]; intros out.
  - simpl. split.
    + intros H. injection H as <-. constructor.
    + intros H. inversion H. reflexivity.
  - rewrite display_ingredients_cons. split.
    + intros H.
      destruct (display_quantity q f) as [shown|] eqn:Q; [|discriminate].
      cbn [bind] in H.
      destruct (display_ingredients rest f) as [others|] eqn:R; [|discriminate].
      cbn [bind] in H. injection H as <-.
      constructor; [now split | now apply IH].
    + intros H. inversion H as [|i o l' out' [N Q] T]; subst.
      destruct o as [n shown]. simpl in N, Q. subst n.
      rewrite Q. cbn [bind].
      apply IH in T. rewrite T. reflexivity.
Qed.

Lemma display_ingredients_app a b f :
  display_ingredients (a ++ b) f
  = (xs <- display_ingredients a f ;;
     ys <- display_ingredients b f ;;
     Ok (xs ++ ys)).
Proof.
  induction a as [|[name q] rest IH].
  - simpl. now destruct (display_ingredients b f).
  - rewrite <- app_comm_cons, !display_ingredients_cons.
    destruct (display_quantity q f) as [shown|]; [|reflexivity].
    cbn [bind]. rewrite IH.
    destruct (display_ingredients rest f) as [xs|]; [|reflexivity].
    cbn [bind]. now destruct (display_ingredients b f).
Qed.

(** X13: the first ingredient whose quantity raises ends the loop with
    that exception, whatever comes after it: nothing of the list is
    shown. *)
Theorem failing_ingredient_stops_the_list a name q b f shown e :
  display_ingredients a f = Ok shown ->
  display_quantity q f = Raise e ->
  display_ingredients (a ++ (name, q) :: b) f = Raise e.
Proof.
  intros A Q. rewrite display_ingredients_app, A. cbn [bind].
  rewrite display_ingredients_cons, Q. reflexivity.
Qed.

Lemma failing_ingredient_stops_the_list_witness :
  display_ingredients
    ([(str_of_string "flour", str_of_string "2 cups")]
     ++ (str_of_string "milk", str_of_string "1/0 cup")
     :: [(str_of_string "salt", str_of_string "a pinch")])
    (PyFloat.of_decimal 2 0)
  = Raise ZeroDivisionError.
Proof.
  apply (@failing_ingredient_stops_the_list
           [(str_of_string "flour", str_of_string "2 cups")]
           (str_of_string "milk") (str_of_string "1/0 cup")
           [(str_of_string "salt", str_of_string "a pinch")]
           (PyFloat.of_decimal 2 0)
           [(str_of_string "flour", str_of_string "4 cups")]);
    vm_compute; reflexivity.
Defined.

(** ** The selection widgets *)

Lemma index_found value options : forall i,
  index value options = Ok i ->
  nth_error options i = Some value
  /\ forall j, (j < i)%nat -> nth_error options j <> Some value.
Proof.
  induction options as [|o rest IH]; intros i; cbn [index]; [discriminate|].
  destruct (list_eq_dec ascii_dec o value) as [->|N].
  - intros H. injection H as <-. split; [reflexivity | intros j Hj; lia].
  - destruct (index value rest) as [k|] eqn:K; [|discriminate].
    cbn [bind]. intros H. injection H as <-.
    destruct (IH k eq_refl) as [F B]. split; [exact F|].
    intros [|j] Hj; simpl; [congruence|]. apply B. lia.
Qed.

Lemma index_absent value options :
  (exists i, index value options = Ok i)
  \/ (index value options = Raise ValueError /\ ~ In value options).
Proof.
  induction options as [|o rest IH]; cbn [index].
  - right. split; [reflexivity | intros []].
  - destruct (list_eq_dec ascii_dec o value) as [->|N]; [left; eauto|].
    destruct IH as [[i ->]|[-> A]]; [left; cbn [bind]; eauto|].
    right. split; [reflexivity|]. intros [E|I]; [congruence | now apply A].
Qed.

(** X14: the default of a selection widget is a valid position of its
    options: the first position of the stored value when it is among
    them, and 0 otherwise; it never raises. *)
Theorem default_index_is_valid options value :
  options <> [] ->
  exists i,
    default_index options value = Ok i
    /\ (i < length options)%nat
    /\ (In value options ->
        nth_error options i = Some value
        /\ forall j, (j < i)%nat -> nth_error options j <> Some value)
    /\ (~ In value options -> i = O).
Proof.
  intros Ne. unfold default_index.
  destruct (index_absent value options) as [[i E]|[E A]]; rewrite E.
  - destruct (index_found _ _ E) as [F B].
    exists i. split; [reflexivity|]. split.
    + apply nth_error_Some. congruence.
    + split; [now split|]. intros N. exfalso. apply N.
      now apply nth_error_In with i.
  - exists O. split; [reflexivity|]. split.
    + destruct options; [congruence | simpl; lia].
    + split; [intros I; now destruct (A I) | reflexivity].
Qed.

Lemma default_index_is_valid_witness :
  exists i,
    default_index cuisine_options "Indian"%string = Ok i
    /\ (i < length cuisine_options)%nat
    /\ (In (str_of_string "Indian") cuisine_options ->
        nth_error cuisine_options i = Some (str_of_string "Indian")
        /\ forall j, (j < i)%nat ->
             nth_error cuisine_options j <> Some (str_of_string "Indian"))
    /\ (~ In (str_of_string "Indian") cuisine_options -> i = O).
Proof.
  apply (@default_index_is_valid cuisine_options (str_of_string "Indian")).
  discriminate.
Defined.

(** ** The suggestion buttons *)



(** ** The name of the downloaded file *)




(** ** Whole multiples of the servings *)

Lemma mul_whole a b :
  0 <= a -> 0 < b -> a * b < 2 ^ 53 ->
  PyFloat.mul (float_of_whole a) (float_of_whole b) = float_of_whole (a * b).
Proof.
  intros Ha Hb B.
  destruct b as [|b|b]; try lia.
  destruct a as [|a|a]; try lia; cbn [float_of_whole Z.mul].
  - unfold whole_float. now destruct (shl_align _ _ _).
  - now apply mul_whole_float.
Qed.

Lemma eqb_finite_eq s m e m' e' :
  PyFloat.eqb (S754_finite s m e) (S754_finite s m' e') = true -> e = e'.
Proof.
  unfold PyFloat.eqb, SFeqb, SFcompare.
  destruct s; destruct (e ?= e') eqn:C; try discriminate;
    intros _; now apply Z.compare_eq.
Qed.

Lemma whole_not_one k :
  1 < k < 2 ^ 53 -> PyFloat.eqb (float_of_whole k) PyFloat.one = false.
Proof.
  intros B. destruct k as [|k|k]; try lia. cbn [float_of_whole].
  destruct (whole_float_eq false k (@digits_small k ltac:(lia))) as (m & -> & _).
  destruct (PyFloat.eqb _ _) eqn:E; [|reflexivity].
  apply eqb_finite_eq in E.
  pose proof (digits2_bounds k) as [L _].
  assert (D : Zpos (digits2_pos k) = 1) by lia.
  rewrite D in L. simpl in L.
  pose proof (digits2_bounds k) as [_ U]. rewrite D in U. simpl in U. lia.
Qed.

(** X17: scaling to a whole multiple of the servings is exact on whole
    quantities: a quantity that parses to the whole number [n], scaled from
    [o] servings to [k * o], is shown as [str (n * k)], a space and the
    unit. *)
Theorem whole_multiple_of_servings s x u n k o f :
  parse_quantity s = Ok (Some x, u) ->
  PyFloat.of_int n = Ok x ->
  0 <= n -> 1 < k < 2 ^ 53 -> 0 < o -> n * k < 2 ^ 53 ->
  scaling_factor (k * o) o = Ok f ->
  display_quantity s f = Ok (strip (str_of_int (n * k) ++ " "%char :: u)).
Proof.
  intros P X Hn Hk Ho B F.
  assert (Bn : n < 2 ^ 53) by nia.
  rewrite of_int_whole in X by lia. injection X as <-.
  unfold scaling_factor in F. rewrite truediv_whole in F by lia.
  injection F as <-.
  unfold display_quantity. rewrite P. cbn [bind].
  rewrite whole_not_one by lia. cbn [negb].
  rewrite mul_whole by lia.
  apply format_whole. lia.
Qed.

Lemma whole_multiple_of_servings_witness :
  display_quantity "2 cups"%string (PyFloat.of_decimal 3 0)
  = Ok (strip (str_of_int (2 * 3) ++ " "%char :: str_of_string "cups")).
Proof.
  apply (@whole_multiple_of_servings (str_of_string "2 cups")
           (PyFloat.of_decimal 2 0) (str_of_string "cups") 2 3 4
           (PyFloat.of_decimal 3 0));
    solve [vm_compute; reflexivity | lia].
Defined.

(** ** Equal servings *)

Lemma scaling_factor_same n : n <> 0 -> scaling_factor n n = Ok PyFloat.one.
Proof. apply truediv_self. Qed.

Lemma display_ingredients_same l :
  (forall i, In i l -> exists r, parse_quantity (snd i) = Ok r) ->
  display_ingredients l PyFloat.one = Ok l.
Proof.
  induction l as [|[name q] rest IH]; intros H; [reflexivity|].
  rewrite display_ingredients_cons.
  destruct (H (name, q) (or_introl eq_refl)) as [[m u] P]. cbn [snd] in P.
  rewrite (@display_quantity_bypass q PyFloat.one m u P (or_intror eq_refl)).
  cbn [bind]. rewrite IH; [reflexivity|].
  intros i I. apply H. now right.
Qed.

(** X18: with as many new servings as original ones the factor is exactly
    1.0 and the ingredient list is shown as it is, provided
    [parse_quantity] returns on every quantity. *)
Theorem equal_servings_change_nothing (n : Z) (l : list (str * str)) :
  n <> 0 ->
  (forall i, In i l -> exists r, parse_quantity (snd i) = Ok r) ->
  exists f, scaling_factor n n = Ok f /\ display_ingredients l f = Ok l.
Proof.
  intros N H. exists PyFloat.one.
  split; [now apply scaling_factor_same | now apply display_ingredients_same].
Qed.

Lemma equal_servings_change_nothing_witness :
  exists f,
    scaling_factor 4 4 = Ok f
    /\ display_ingredients
         [(str_of_string "flour", str_of_string "2 1/2 Cups");
          (str_of_string "salt", str_of_string "a pinch")] f
       = Ok [(str_of_string "flour", str_of_string "2 1/2 Cups");
             (str_of_string "salt", str_of_string "a pinch")].
Proof.
  apply (@equal_servings_change_nothing 4).
  - lia.
  - intros i [<-|[<-|[]]]; eexists; vm_compute; reflexivity.
Defined.

(** ** Factors in quarters *)

(** X19: scaling is exact on halves and quarters: a quantity of [r]
    quarters, scaled from [4 * o] servings to [k * o], is shown as the
    [r * k / 16] it makes, in whole numbers and the fractions 1/4, 1/2 and
    3/4, whenever that is a whole number [t] of quarters.  Halving and
    doubling a recipe are the cases [k = 2] and [k = 8]. *)
Theorem quarters_scale_exactly s x u r k o t f :
  parse_quantity s = Ok (Some x, u) ->
  PyFloat.truediv r 4 = Ok x ->
  0 < r -> 0 < k -> k <> 4 -> 0 < o ->
  r * k = 4 * t -> r * k < 2 ^ 53 ->
  scaling_factor (k * o) (4 * o) = Ok f ->
  display_quantity s f = Ok (strip (quarters_text t ++ " "%char :: u)).
Proof.
  intros P X Hr Hk K4 Ho E B F.
  assert (Br : r < 2 ^ 53) by nia.
  assert (Bk : k < 2 ^ 53) by nia.
  pose proof (@truediv_quarters r 1 ltac:(lia) ltac:(lia)) as X'.
  rewrite Z.mul_1_r in X'. change (4 * 1) with 4 in X'.
  rewrite X' in X. injection X as <-.
  unfold scaling_factor in F.
  rewrite truediv_quarters in F by lia. injection F as <-.
  unfold display_quantity. rewrite P. cbn [bind].
  rewrite quarters_not_one by (destruct k; cbn [Z.to_pos]; lia).
  cbn [negb].
  rewrite (@mul_quarters r k t) by assumption.
  apply formatted_quarters. lia.
Qed.

Lemma quarters_scale_exactly_witness :
  display_quantity "3 cups"%string (PyFloat.of_decimal 5 1)
  = Ok (strip (quarters_text 6 ++ " "%char :: str_of_string "cups")).
Proof.
  apply (@quarters_scale_exactly (str_of_string "3 cups")
           (PyFloat.of_decimal 3 0) (str_of_string "cups") 12 2 1 6
           (PyFloat.of_decimal 5 1));
    solve [lia | vm_compute; reflexivity].
Defined.

(** ** The calories per serving *)

(** X20: the calories per serving are exact for a whole ratio of the
    servings: with [k] times fewer servings, [k * new] before and [new]
    now, the calories [kcal] become [kcal * k]; with equal servings they
    stay as they are. *)
Theorem scaled_calories_whole_ratio kcal k new :
  0 <= kcal -> 0 < k < 2 ^ 53 -> 0 < new -> kcal * k < 2 ^ 53 ->
  scaled_calories (Some kcal) (k * new) new = Ok (Some (kcal * k)).
Proof.
  intros Hc Hk Hn B. unfold scaled_calories.
  assert (kcal < 2 ^ 53) by nia.
  rewrite truediv_whole by lia. cbn [bind].
  rewrite of_int_whole by lia. cbn [bind].
  rewrite mul_whole by lia.
  rewrite to_int_whole by lia. reflexivity.
Qed.

Lemma scaled_calories_whole_ratio_witness :
  scaled_calories (Some 350) (2 * 3) 3 = Ok (Some (350 * 2)).
Proof.
  apply (@scaled_calories_whole_ratio 350 2 3); lia.
Defined.
